(** * XReflection: data-loader builder and base training module

    A shallow embedding of [xreflection/data/__init__.py] and
    [xreflection/models/base_model.py].  Python objects are modelled by the
    values the code inspects: option dictionaries are insertion-ordered
    association lists, exceptions are an explicit result type, calls into
    torch, lightning, numpy and the metric functions are an interface
    ([Externals]) or a log of [event]s.

    Layout: part I holds the definitions, part II the lemmas and theorems. *)

From Stdlib Require Import ZArith QArith String Ascii List Permutation Lia.
From Stdlib Require Import DecimalString DecimalZ.
From Stdlib Require Floats.
From stdpp Require Import base option list strings gmap sorting.

(* ===================================================================== *)
(** * Part I: definitions                                                  *)
(* ===================================================================== *)

(** ** Exceptions and results *)

Inductive exn : Type :=
| KeyError (key : string)
| TypeError (msg : string)
| ValueError (msg : string)
| NotImplementedError (msg : string)
| AttributeError (msg : string)
| ZeroDivisionError.

Inductive result (A : Type) : Type :=
| Ok (a : A)
| Raise (e : exn).
Arguments Ok {A} a.
Arguments Raise {A} e.

(** Sequencing stops at the first raised exception; [x ← c; k] is stdpp's
    notation for [mbind]. *)
#[export] Instance result_ret : MRet result := fun A a => Ok a.
#[export] Instance result_bind : MBind result := fun A B k c =>
  match c with
  | Ok a => k a
  | Raise e => Raise e
  end.

(** ** Strings *)

(** [s[n:]] *)
Fixpoint str_from (n : nat) (s : string) : string :=
  match n, s with
  | O, _ => s
  | S n', String _ s' => str_from n' s'
  | S _, EmptyString => EmptyString
  end.

Definition dquote : string := String (ascii_of_nat 34) EmptyString.

(** [s.startswith(p)] *)
Definition startswith (p s : string) : bool := String.prefix p s.

(** [str(n)] for an integer *)
Definition str_of_Z (z : Z) : string := NilZero.string_of_int (Z.to_int z).
Definition str_of_nat (n : nat) : string := str_of_Z (Z.of_nat n).

(** [s * n] for a string: [n] copies, none when [n <= 0] *)
Fixpoint str_repeat (s : string) (n : nat) : string :=
  match n with
  | O => EmptyString
  | S n' => s +:+ str_repeat s n'
  end.

(** ** Insertion-ordered dictionaries with string keys

    Python's [dict] keeps insertion order; assigning to a present key
    replaces the value in place, assigning to an absent key appends, and
    [pop] removes the entry.  Iteration order decides the outcome of the
    renaming loops of [load_weights], so the order is part of the model. *)

Module PyDict.

Abbreviation dict V := (list (string * V)).

Section Ops.
Context {V : Type}.

Definition keys (d : dict V) : list string := map fst d.

(** [d.get(k)] *)
Fixpoint get (k : string) (d : dict V) : option V :=
  match d with
  | [] => None
  | (k', v) :: d' => if String.eqb k' k then Some v else get k d'
  end.

(** [k in d] *)
Definition mem (k : string) (d : dict V) : bool :=
  match get k d with Some _ => true | None => false end.

(** [d[k]] *)
Definition getitem (k : string) (d : dict V) : result V :=
  match get k d with
  | Some v => Ok v
  | None => Raise (KeyError k)
  end.

(** [d[k] = v] *)
Fixpoint set (k : string) (v : V) (d : dict V) : dict V :=
  match d with
  | [] => [(k, v)]
  | (k', v') :: d' =>
      if String.eqb k' k then (k', v) :: d' else (k', v') :: set k v d'
  end.

(** [d.pop(k)]: the value and the remaining dictionary *)
Fixpoint pop (k : string) (d : dict V) : result (V * dict V) :=
  match d with
  | [] => Raise (KeyError k)
  | (k', v') :: d' =>
      if String.eqb k' k then Ok (v', d')
      else match pop k d' with
           | Ok (v, r) => Ok (v, (k', v') :: r)
           | Raise e => Raise e
           end
  end.

(** A well-formed dictionary has no repeated key. *)
Definition wf (d : dict V) : Prop := NoDup (keys d).

End Ops.

End PyDict.

Import PyDict.

(** ** Dynamically typed option values *)

Inductive pyval : Type :=
| PNone
| PBool (b : bool)
| PInt (z : Z)
| PStr (s : string).

#[export] Instance pyval_eq_dec : EqDecision pyval.
Proof. solve_decision. Defined.

(** [a == b] *)
Definition pyval_eqb (a b : pyval) : bool :=
  match a, b with
  | PNone, PNone => true
  | PBool x, PBool y => Bool.eqb x y
  | PInt x, PInt y => Z.eqb x y
  | PBool x, PInt y | PInt y, PBool x => Z.eqb (if x then 1 else 0) y
  | PStr x, PStr y => String.eqb x y
  | _, _ => false
  end.

(** [str(v)], as an f-string interpolates it *)
Definition py_str (v : pyval) : string :=
  match v with
  | PNone => "None"
  | PBool true => "True"
  | PBool false => "False"
  | PInt z => str_of_Z z
  | PStr s => s
  end.

(** [bool] is a subclass of [int] *)
Definition as_int (v : pyval) : option Z :=
  match v with
  | PInt z => Some z
  | PBool b => Some (if b then 1 else 0)%Z
  | _ => None
  end.

Definition type_name (v : pyval) : string :=
  match v with
  | PNone => "NoneType"
  | PBool _ => "bool"
  | PInt _ => "int"
  | PStr _ => "str"
  end.

Definition unsupported (op : string) (a b : pyval) : exn :=
  TypeError ("unsupported operand type(s) for " +:+ op +:+ ": '"
             +:+ type_name a +:+ "' and '" +:+ type_name b +:+ "'").

(** [a * b]: integer product, or sequence repetition of a string *)
Definition py_mul (a b : pyval) : result pyval :=
  match as_int a, as_int b with
  | Some x, Some y => Ok (PInt (x * y))
  | Some x, None =>
      match b with
      | PStr s => Ok (PStr (str_repeat s (Z.to_nat x)))
      | _ => Raise (unsupported "*" a b)
      end
  | None, Some y =>
      match a with
      | PStr s => Ok (PStr (str_repeat s (Z.to_nat y)))
      | _ => Raise (unsupported "*" a b)
      end
  | None, None => Raise (unsupported "*" a b)
  end.

(** [a + b]: integer sum, or concatenation of two strings *)
Definition py_add (a b : pyval) : result pyval :=
  match as_int a, as_int b with
  | Some x, Some y => Ok (PInt (x + y))
  | _, _ =>
      match a, b with
      | PStr s, PStr t => Ok (PStr (s +:+ t))
      | PStr _, _ =>
          Raise (TypeError ("can only concatenate str (not " +:+ dquote
                            +:+ type_name b +:+ dquote +:+ ") to str"))
      | _, _ => Raise (unsupported "+" a b)
      end
  end.

(* ===================================================================== *)
(** ** [xreflection/data/__init__.py]                                      *)
(* ===================================================================== *)

Module Data.

(** Datasets and samplers are opaque torch objects. *)
Inductive dataset_handle : Type := DatasetHandle (id : nat).
Inductive sampler_handle : Type := SamplerHandle (id : nat).

(** Calls to [np.random.seed] and [random.seed] *)
Inductive seed_event : Type :=
| NumpySeed (z : Z)
| RandomSeed (z : Z).

(** What [np.random.seed] says of a text: it cannot be cast to an integer
    array.  The dtype named is that of the text, [<U] and its length. *)
Definition numpy_cast_message (v : pyval) : string :=
  "Cannot cast scalar from dtype('<U"
  +:+ str_of_nat (Nat.max 1 (String.length (py_str v)))
  +:+ "') to dtype('int64') according to the rule 'safe'".

(** [worker_init_fn(worker_id, num_workers, rank, seed)].  Both seeding
    functions receive [worker_seed], which is an integer or, when the
    arguments are texts, a text.  [np.random.seed], which is called first,
    accepts only the integers from [0] to [2**32 - 1]: for another integer
    and for a text it raises, and no seed is set. *)
Definition worker_init_fn (worker_id num_workers rank seed : pyval)
  : result (list seed_event) :=
  t ← py_mul num_workers rank;
  u ← py_add t worker_id;
  worker_seed ← py_add u seed;
  match worker_seed with
  | PInt z =>
      if (0 <=? z)%Z && (z <? 2 ^ 32)%Z
      then Ok [NumpySeed z; RandomSeed z]
      else Raise (ValueError "Seed must be between 0 and 2**32 - 1")
  | _ => Raise (TypeError (numpy_cast_message worker_seed))
  end.

(** [partial(worker_init_fn, num_workers=..., rank=..., seed=...)] *)
Record worker_init_partial : Type := WorkerInit {
  wi_num_workers : pyval;
  wi_rank : pyval;
  wi_seed : pyval
}.

Definition call_worker_init (p : worker_init_partial) (worker_id : Z)
  : result (list seed_event) :=
  worker_init_fn (PInt worker_id) (wi_num_workers p) (wi_rank p) (wi_seed p).

(** The keyword arguments gathered in [dataloader_args].  An optional
    field is [None] when the key is not passed, in which case torch's
    default applies. *)
Record dataloader_args : Type := DataloaderArgs {
  arg_dataset : dataset_handle;
  arg_batch_size : pyval;
  arg_shuffle : pyval;
  arg_num_workers : pyval;
  arg_sampler : option (option sampler_handle);
  arg_drop_last : option pyval;
  arg_phase : option pyval;
  arg_worker_init_fn : option worker_init_partial;
  arg_pin_memory : pyval;
  arg_persistent_workers : pyval
}.

(** The two loader classes.  Modelled from the spec: [PrefetchDataLoader],
    whose module [xreflection/data/prefetch_dataloader.py] is not at hand,
    is the bounded-queue prefetching wrapper: the same loader arguments
    together with the queue depth. *)
Inductive loader : Type :=
| DataLoader (args : dataloader_args)
| PrefetchDataLoader (num_prefetch_queue : pyval) (args : dataloader_args).

Definition loader_args (l : loader) : dataloader_args :=
  match l with
  | DataLoader a => a
  | PrefetchDataLoader _ a => a
  end.

(** The constructor of [torch.utils.data.DataLoader] checks its arguments
    and raises on those it refuses (a negative worker count,
    [persistent_workers] without workers, ...).  torch is not part of the
    repository: the check is a parameter of the development.  Modelled
    from the spec: [PrefetchDataLoader] wraps the loader, so it is built
    from the same arguments under the same check. *)
Class LoaderInit : Type := {
  loader_init : dataloader_args -> result unit
}.

(** A constructor call: the loader, unless its arguments are refused *)
Definition construct `{LoaderInit} (l : loader) : result loader :=
  _ ← loader_init (loader_args l);
  mret l.
Arguments construct : simpl never.

(** [torch.utils.data.DataLoader] drops no batch unless told to. *)
Definition drops_last (a : dataloader_args) : bool :=
  match arg_drop_last a with
  | Some v => pyval_eqb v (PBool true)
  | None => false
  end.

(** [d.get(k, default)] *)
Definition get_default (k : string) (default : pyval) (d : dict pyval)
  : pyval :=
  match get k d with
  | Some v => v
  | None => default
  end.

(** [os.environ.get('RANK', 0)]: the variable's text when it is set, the
    integer [0] otherwise. *)
Definition environ_rank (environ : dict string) : pyval :=
  match get "RANK" environ with
  | Some s => PStr s
  | None => PInt 0
  end.

Definition wrong_phase_message (phase : pyval) : string :=
  "Wrong dataset phase: " +:+ py_str phase
  +:+ ". Supported ones are 'train', 'val' and 'test'.".

(** [build_dataloader(dataset, dataset_opt, seed, sampler)] *)
Definition build_dataloader `{LoaderInit} (environ : dict string)
    (dataset : dataset_handle) (dataset_opt : dict pyval)
    (seed : pyval) (sampler : option sampler_handle) : result loader :=
  phase ← getitem "phase" dataset_opt;
  let rank := environ_rank environ in
  let pin_memory := get_default "pin_memory" (PBool false) dataset_opt in
  let persistent_workers :=
    get_default "persistent_workers" (PBool false) dataset_opt in
  dataloader_args ←
    (if pyval_eqb phase (PStr "train") then
       batch_size ← getitem "batch_size_per_gpu" dataset_opt;
       num_workers ← getitem "num_worker_per_gpu" dataset_opt;
       mret {| arg_dataset := dataset;
               arg_batch_size := batch_size;
               arg_shuffle :=
                 match sampler with
                 | None => PBool true
                 | Some _ => PBool false
                 end;
               arg_num_workers := num_workers;
               arg_sampler := Some sampler;
               arg_drop_last := Some (PBool true);
               arg_phase := Some phase;
               arg_worker_init_fn :=
                 Some (WorkerInit num_workers rank seed);
               arg_pin_memory := pin_memory;
               arg_persistent_workers := persistent_workers |}
     else if pyval_eqb phase (PStr "val") || pyval_eqb phase (PStr "test")
     then
       mret {| arg_dataset := dataset;
               arg_batch_size := PInt 1;
               arg_shuffle :=
                 get_default "use_shuffle" (PBool false) dataset_opt;
               arg_num_workers := PInt 0;
               arg_sampler := None;
               arg_drop_last := None;
               arg_phase := None;
               arg_worker_init_fn := None;
               arg_pin_memory := pin_memory;
               arg_persistent_workers := persistent_workers |}
     else Raise (ValueError (wrong_phase_message phase)));
  if pyval_eqb (get_default "prefetch_mode" PNone dataset_opt) (PStr "cpu")
  then
    construct (PrefetchDataLoader
                 (get_default "num_prefetch_queue" (PInt 1) dataset_opt)
                 dataloader_args)
  else construct (DataLoader dataloader_args).

(** The seeding performed in worker [worker_id] of a built loader; a
    loader without [worker_init_fn] seeds nothing here. *)
Definition seed_worker (l : loader) (worker_id : Z)
  : result (list seed_event) :=
  match arg_worker_init_fn (loader_args l) with
  | Some p => call_worker_init p worker_id
  | None => Ok []
  end.

(** Whether the worker got its seeds *)
Definition is_ok_seed (r : result (list seed_event)) : bool :=
  match r with
  | Ok (_ :: _) => true
  | _ => false
  end.

(** [DataLoader.reset]: only a training loader resets its dataset. *)
Definition reset (l : loader) : option dataset_handle :=
  match arg_phase (loader_args l) with
  | Some phase =>
      if pyval_eqb phase (PStr "train") then Some (arg_dataset (loader_args l))
      else None
  | None => None
  end.

End Data.

(* ===================================================================== *)
(** ** [xreflection/models/base_model.py]                                  *)
(* ===================================================================== *)

Module BaseModel.

(** Tensors and images are opaque: their contents belong to torch. *)
Inductive tensor : Type := Tensor (id : nat).
Inductive image : Type := Image (id : nat).

(** A checkpoint maps names to tensors, numbers or nested mappings. *)
#[warnings="-register-all"]
Inductive pyobj : Type :=
| OTensor (t : tensor)
| OInt (z : Z)
| ODict (d : list (string * pyobj)).

(** What the module reports to the outside, and what it does to the
    outside: the files it writes and the weights it loads into the
    network, which belongs to torch. *)
Inductive event : Type :=
| Info (msg : string)                          (* rank_zero_info *)
| Warn (msg : string)                          (* rank_zero_warn *)
| AddScalar (tag : string) (value : Q) (step : Z)
                                (* logger.experiment.add_scalar *)
| LogMetric (tag : string) (value : Q)         (* self.log *)
| Makedirs (path : string)                     (* os.makedirs *)
| Imwrite (img : image) (path : string)        (* imwrite *)
| LoadStateDict (weights : list (string * pyobj)) (strict : bool).
                                        (* self.net_g.load_state_dict *)

(** [str(e)] of a caught exception *)
Definition exn_str (e : exn) : string :=
  match e with
  | KeyError k => "'" +:+ k +:+ "'"
  | TypeError m | ValueError m | NotImplementedError m
  | AttributeError m => m
  | ZeroDivisionError => "division by zero"
  end.

(** The calls the module makes into torch, lightning and [os], and into
    the parts of the package that are not at hand ([calculate_metric],
    [tensor2img], [imwrite]): parameters of the development.

    A metric value is a Python number.  The model names it by a rational
    (every finite float is one) and assumes nothing of Python's arithmetic
    on the values, which rounds: [sum], [+] and [/] are parameters too. *)
Class Externals : Type := {
  (** the live network and its EMA copy: the clean and the reflection
      image of the last stage *)
  net_g : tensor -> tensor * tensor;
  ema_model : tensor -> tensor * tensor;
  tensor2img : tensor -> image;
  (** [calculate_metric({'img': img, 'img2': img2}, opt_)] *)
  calculate_metric : image -> image -> dict pyval -> result Q;
  os_makedirs : string -> result unit;
  imwrite : image -> string -> result unit;
  osp_join : list string -> string;
  osp_basename : string -> string;
  osp_splitext_root : string -> string;
  (** [f'{x:.4f}'] *)
  format_4f : Q -> string;
  (** [str] of a list of keys *)
  str_of_keys : list string -> string;
  (** [sum(values)] of metric values *)
  builtin_sum : list Q -> Q;
  (** [a + b] of two metric values *)
  num_add : Q -> Q -> Q;
  (** [a / n] of a metric value and a count other than zero *)
  truediv : Q -> nat -> Q
}.

(** *** Checkpoints *)

(** The four arms of the key selection in [load_weights] *)
Inductive branch : Type :=
| UseParamKey
| UseParamsEma
| UseParams
| UseWholeCheckpoint.

Definition branch_message (param_key : string) (b : branch) : string :=
  match b with
  | UseParamKey =>
      "Successfully loaded weights using key '" +:+ param_key +:+ "'"
  | UseParamsEma =>
      "Key '" +:+ param_key +:+ "' not found, using 'params_ema' instead"
  | UseParams =>
      "Key '" +:+ param_key +:+ "' not found, using 'params' instead"
  | UseWholeCheckpoint =>
      "No recognized parameter keys found, using entire checkpoint"
  end.

(** The [if]/[elif]/[else] chain choosing [weights] *)
Definition select_weights (param_key : string) (checkpoint : dict pyobj)
  : result (branch * pyobj) :=
  if mem param_key checkpoint then
    weights ← getitem param_key checkpoint;
    mret (UseParamKey, weights)
  else if mem "params_ema" checkpoint
          && negb (String.eqb param_key "params_ema") then
    weights ← getitem "params_ema" checkpoint;
    mret (UseParamsEma, weights)
  else if mem "params" checkpoint
          && negb (String.eqb param_key "params") then
    weights ← getitem "params" checkpoint;
    mret (UseParams, weights)
  else mret (UseWholeCheckpoint, ODict checkpoint).

(** [weights.items()] needs a mapping. *)
Definition items (o : pyobj) : result (dict pyobj) :=
  match o with
  | ODict d => Ok d
  | OTensor _ =>
      Raise (AttributeError "'Tensor' object has no attribute 'items'")
  | OInt _ => Raise (AttributeError "'int' object has no attribute 'items'")
  end.

(** One turn of [for k, v in list(weights.items())]:
    [if k.startswith(prefix): weights[k[n:]] = weights.pop(k)] *)
Definition rename_step {V : Type} (prefix : string) (n : nat)
    (weights : result (dict V)) (k : string) : result (dict V) :=
  w ← weights;
  if startswith prefix k then
    '(v, w') ← pop k w;
    mret (set (str_from n k) v w')
  else mret w.

(** The whole loop, over the snapshot of the keys taken at its start *)
Definition strip_prefix {V : Type} (prefix : string) (n : nat)
    (weights : dict V) : result (dict V) :=
  foldl (rename_step prefix n) (Ok weights) (keys weights).

Definition strip_prefixes {V : Type} (weights : dict V) : result (dict V) :=
  w ← strip_prefix "_orig_mod." 10 weights;
  strip_prefix "module." 7 w.

(** What the two loops make of a single key *)
Definition strip_one (prefix : string) (n : nat) (k : string) : string :=
  if startswith prefix k then str_from n k else k.

Definition stripped_key (k : string) : string :=
  strip_one "module." 7 (strip_one "_orig_mod." 10 k).

(** *** Optimizers and schedulers *)

Inductive optimizer_kind : Type :=
| Adam | AdamW | Adamax | SGD | ASGD | RMSprop | Rprop.

(** [get_optimizer]: the [if]/[elif] chain on [optim_type] *)
Definition get_optimizer (optim_type : pyval) : result optimizer_kind :=
  if pyval_eqb optim_type (PStr "Adam") then Ok Adam
  else if pyval_eqb optim_type (PStr "AdamW") then Ok AdamW
  else if pyval_eqb optim_type (PStr "Adamax") then Ok Adamax
  else if pyval_eqb optim_type (PStr "SGD") then Ok SGD
  else if pyval_eqb optim_type (PStr "ASGD") then Ok ASGD
  else if pyval_eqb optim_type (PStr "RMSprop") then Ok RMSprop
  else if pyval_eqb optim_type (PStr "Rprop") then Ok Rprop
  else Raise (NotImplementedError
                ("optimizer " +:+ py_str optim_type
                 +:+ " is not supported yet.")).

(** The classes of [torch.optim.lr_scheduler] the module instantiates *)
Inductive scheduler_kind : Type :=
| MultiStepLR
| CosineAnnealingLR.

(** A value of the scheduler options: a scalar, or a value of another
    type (a float such as ['gamma'], a list such as ['milestones']), of
    which the module uses no more than [str(v)]. *)
Inductive optval : Type :=
| Plain (v : pyval)
| Object (text : string).

#[export] Instance optval_eq_dec : EqDecision optval.
Proof. solve_decision. Defined.

(** [str(v)] *)
Definition opt_str (v : optval) : string :=
  match v with
  | Plain v => py_str v
  | Object text => text
  end.

(** [v == s] for a string [s] *)
Definition is_str (v : optval) (s : string) : bool :=
  match v with
  | Plain v => pyval_eqb v (PStr s)
  | Object _ => false
  end.

(** The constructors of torch's optimizers and schedulers check their
    arguments and raise on those they refuse (a scheduler without its
    ['milestones'], an empty parameter list, ...).  torch is not part of
    the repository: the checks are parameters of the development. *)
Class Optim : Type := {
  new_optimizer : optimizer_kind -> result unit;
  new_scheduler : scheduler_kind -> dict optval -> result unit
}.

Record lr_scheduler : Type := LrScheduler {
  scheduler : scheduler_kind;
  scheduler_config : dict optval
}.

(** [{k: v for k, v in train_opt['scheduler'].items() if k != 'type'}] *)
Definition without_type (scheduler_opt : dict optval) : dict optval :=
  List.filter (fun kv => negb (String.eqb (fst kv) "type")) scheduler_opt.

(** The [if]/[elif]/[else] chain on [scheduler_type] *)
Definition select_scheduler (scheduler_type : optval)
  : result scheduler_kind :=
  if is_str scheduler_type "MultiStepLR"
     || is_str scheduler_type "MultiStepRestartLR" then
    Ok MultiStepLR
  else if is_str scheduler_type "CosineAnnealingRestartLR" then
    Ok CosineAnnealingLR
  else Raise (NotImplementedError
                ("Scheduler " +:+ opt_str scheduler_type
                 +:+ " is not implemented yet.")).

(** A constructor call [kind(optimizer, **scheduler_config)]: the
    scheduler, unless its arguments are refused *)
Definition construct_scheduler `{Optim} (kind : scheduler_kind)
    (scheduler_config : dict optval) : result lr_scheduler :=
  _ ← new_scheduler kind scheduler_config;
  mret (LrScheduler kind scheduler_config).
Arguments construct_scheduler : simpl never.

(** The scheduler part of [configure_optimizers] *)
Definition configure_scheduler `{Optim} (scheduler_opt : dict optval)
  : result lr_scheduler :=
  scheduler_type ← getitem "type" scheduler_opt;
  let scheduler_config := without_type scheduler_opt in
  kind ← select_scheduler scheduler_type;
  construct_scheduler kind scheduler_config.

Record optimizers : Type := Optimizers {
  optimizer : optimizer_kind;
  scheduler_of : lr_scheduler;
  monitor : pyval;
  interval : string;
  frequency : Z
}.

(** [configure_optimizers]; [optim_type] comes from the subclass's
    [configure_optimizer_params], [monitor] from
    [opt.get('checkpoint', {}).get('monitor', 'val/psnr')].
    [get_optimizer] selects the class, [new_optimizer] is the constructor
    call it ends with. *)
Definition configure_optimizers `{Optim} (optim_type : pyval)
    (scheduler_opt : dict optval) (checkpoint_monitor : option pyval)
  : result optimizers :=
  o ← get_optimizer optim_type;
  _ ← new_optimizer o;
  s ← configure_scheduler scheduler_opt;
  mret (Optimizers o s (default (PStr "val/psnr") checkpoint_monitor)
          "epoch" 1).

(** *** Validation: configuration, trainer and module state *)

Definition tab : string := String (ascii_of_nat 9) EmptyString.
Definition newline : string := String (ascii_of_nat 10) EmptyString.

(** A validation loader, as far as the module looks into it:
    [loader.dataset.opt] when the dataset has that attribute; of the
    options only the string under ['name'] is read. *)
Record val_loader : Type := ValLoader {
  dataset_opt : option (dict string)
}.

(** [trainer.val_dataloaders] is a list of loaders or a single one. *)
Inductive val_dataloaders : Type :=
| LoaderList (loaders : list val_loader)
| SingleLoader (loader : val_loader).

Record trainer : Type := Trainer {
  is_global_zero : bool;
  sanity_checking : bool;
  (** [None] when the trainer has no attribute [val_dataloaders] *)
  trainer_val_dataloaders : option val_dataloaders
}.

(** The entries of [self.opt] the validation code reads *)
Record options : Type := Options {
  opt_name : string;                          (* opt['name'] *)
  opt_is_train : bool;                        (* opt['is_train'] *)
  opt_visualization : option string;     (* opt['path']['visualization'] *)
  opt_save_img : bool;              (* opt['val'].get('save_img', False) *)
  opt_suffix : option string;                (* opt['val'].get('suffix') *)
  opt_metrics : option (dict (dict pyval))  (* opt['val'].get('metrics') *)
}.

(** What the hooks read and do not write *)
Record context : Type := Context {
  opt : options;
  the_trainer : trainer;
  current_epoch : Z;
  global_step : Z;
  use_ema : bool
}.

(** dataset name -> metric name -> values, in order of arrival *)
Abbreviation metrics_store := (dict (dict (list Q))).

Record state : Type := State {
  val_dataset_names : gmap nat string;
  current_val_metrics : metrics_store;
  output : option (tensor * tensor);
  trace : list event
}.

(** *** The monad of the hooks: state, log and exceptions

    A raised exception keeps the state reached so far, as Python does. *)

Definition M (A : Type) : Type := state -> result A * state.

#[export] Instance M_ret : MRet M := fun A a s => (Ok a, s).
#[export] Instance M_bind : MBind M := fun A B k c s =>
  match c s with
  | (Ok a, s') => k a s'
  | (Raise e, s') => (Raise e, s')
  end.

Definition lift {A : Type} (r : result A) : M A := fun s => (r, s).

Definition emit (e : event) : M unit := fun s =>
  (Ok tt, State (val_dataset_names s) (current_val_metrics s) (output s)
            (trace s ++ [e])).

Definition set_output (o : tensor * tensor) : M unit := fun s =>
  (Ok tt, State (val_dataset_names s) (current_val_metrics s) (Some o)
            (trace s)).

Definition modify_metrics (f : metrics_store -> metrics_store) : M unit :=
  fun s =>
    (Ok tt, State (val_dataset_names s) (f (current_val_metrics s))
              (output s) (trace s)).

(** [try: body except Exception as e: handler(e)] *)
Definition try_except {A : Type} (body : M A) (handler : exn -> M A)
  : M A := fun s =>
  match body s with
  | (Ok a, s') => (Ok a, s')
  | (Raise e, s') => handler e s'
  end.

(** [for x in l: body(x)] *)
Fixpoint for_each {A : Type} (l : list A) (body : A -> M unit) : M unit :=
  match l with
  | [] => mret tt
  | x :: l' => _ ← body x; for_each l' body
  end.

(** A loop that updates local variables [acc] *)
Fixpoint for_fold {A B : Type} (l : list A) (acc : B)
    (body : B -> A -> M B) : M B :=
  match l with
  | [] => mret acc
  | x :: l' => acc' ← body acc x; for_fold l' acc' body
  end.

(** *** [validation_step] *)

Inductive batch_val : Type :=
| BTensor (t : tensor)
| BList (l : list string).

Inductive out_val : Type :=
| VTensor (t : tensor)
| VStr (s : string).

Definition as_tensor (key : string) (v : batch_val) : result tensor :=
  match v with
  | BTensor t => Ok t
  | BList _ => Raise (TypeError (key +:+ " is not a tensor"))
  end.

(** [self.val_dataset_names[dataloader_idx]] *)
Definition lookup_dataset_name (dataloader_idx : nat) : M string :=
  fun s =>
    match val_dataset_names s !! dataloader_idx with
    | Some name => (Ok name, s)
    | None => (Raise (KeyError (str_of_nat dataloader_idx)), s)
    end.

(** The first of [required_keys] that the batch lacks *)
Fixpoint first_missing (required_keys : list string)
    (batch : dict batch_val) : option string :=
  match required_keys with
  | [] => None
  | key :: rest =>
      if negb (mem key batch) then Some key else first_missing rest batch
  end.

(** [testing]: run the EMA copy or the live network, keep both images *)
Definition testing `{Externals} (ctx : context) (inp : tensor) : M unit :=
  set_output ((if use_ema ctx then ema_model else net_g) inp).

(** [self.output] *)
Definition get_output : M (tensor * tensor) := fun s =>
  match output s with
  | Some o => (Ok o, s)
  | None => (Raise (AttributeError "object has no attribute 'output'"), s)
  end.

(** The name of the sample, with the fallback and its warning *)
Definition sample_name `{Externals} (batch : dict batch_val)
    (batch_idx : nat) : M string :=
  match get "inp_path" batch with
  | Some (BList (p :: _)) => mret (osp_splitext_root (osp_basename p))
  | Some (BTensor _) => lift (Raise (TypeError "inp_path is not a list"))
  | Some (BList []) | None =>
      let img_name := "sample_" +:+ str_of_nat batch_idx in
      _ ← emit (Warn ("'inp_path' key missing in batch, using fallback name: "
                      +:+ img_name));
      mret img_name
  end.

(** The body of the [try] that writes the two images *)
Definition save_images `{Externals} (ctx : context)
    (dataset_name img_name : string) (clean_img reflection_img : image)
  : M unit :=
  let current_iter :=
    if sanity_checking (the_trainer ctx) then current_epoch ctx
    else global_step ctx in
  visualization ←
    lift (match opt_visualization (opt ctx) with
          | Some v => Ok v
          | None => Raise (KeyError "visualization")
          end);
  let file (role tag : string) :=
    img_name +:+ "_" +:+ role +:+ "_" +:+ tag +:+ ".png" in
  '(save_clean_img_path, save_reflection_img_path) ←
    (if opt_is_train (opt ctx) then
       let save_dir := osp_join [visualization; dataset_name; img_name] in
       _ ← lift (os_makedirs save_dir);
       _ ← emit (Makedirs save_dir);
       mret (osp_join [save_dir; file "clean" (str_of_Z current_iter)],
             osp_join [save_dir; file "reflection" (str_of_Z current_iter)])
     else
       let save_dir := osp_join [visualization; dataset_name] in
       _ ← lift (os_makedirs save_dir);
       _ ← emit (Makedirs save_dir);
       let tag :=
         match opt_suffix (opt ctx) with
         | Some (String c sfx) => String c sfx
         | Some EmptyString | None => opt_name (opt ctx)
         end in
       mret (osp_join [save_dir; file "clean" tag],
             osp_join [save_dir; file "reflection" tag]));
  _ ← lift (imwrite clean_img save_clean_img_path);
  _ ← emit (Imwrite clean_img save_clean_img_path);
  _ ← lift (imwrite reflection_img save_reflection_img_path);
  emit (Imwrite reflection_img save_reflection_img_path).

(** The three statements that store a metric value:
    create the dataset's entry, create the metric's list, append. *)
Definition append_metric (dataset_name name : string) (metric_value : Q)
    (store : metrics_store) : metrics_store :=
  let store1 :=
    if negb (mem dataset_name store) then set dataset_name [] store
    else store in
  let metrics := default [] (get dataset_name store1) in
  let metrics1 :=
    if negb (mem name metrics) then set name [] metrics else metrics in
  let values := default [] (get name metrics1) in
  set dataset_name (set name (values ++ [metric_value]) metrics1) store1.

(** One turn of the loop over the configured metrics *)
Definition record_metric `{Externals} (dataset_name : string)
    (clean_img target_t_img : image) (item : string * dict pyval)
  : M unit :=
  let '(name, opt_) := item in
  try_except
    (metric_value ← lift (calculate_metric clean_img target_t_img opt_);
     modify_metrics (append_metric dataset_name name metric_value))
    (fun e => emit (Warn ("Error calculating metric '" +:+ name +:+ "': "
                          +:+ exn_str e))).

Definition missing_key_warning (key : string) : string :=
  "Required key '" +:+ key +:+ "' missing from batch during validation".

Definition validation_step `{Externals} (ctx : context)
    (batch : dict batch_val) (batch_idx : nat) (dataloader_idx : nat)
  : M (dict out_val) :=
  dataset_name ← lookup_dataset_name dataloader_idx;
  match first_missing ["input"] batch with
  | Some key =>
      _ ← emit (Warn (missing_key_warning key));
      mret [("error", VStr ("Missing required key: " +:+ key))]
  | None =>
      inp ← lift (v ← getitem "input" batch; as_tensor "input" v);
      _ ← testing ctx inp;
      '(output_clean, output_reflection) ← get_output;
      img_name ← sample_name batch batch_idx;
      let clean_img := tensor2img output_clean in
      let reflection_img := tensor2img output_reflection in
      target_t ← lift (v ← getitem "target_t" batch; as_tensor "target_t" v);
      let target_t_img := tensor2img target_t in
      _ ← (if is_global_zero (the_trainer ctx) && opt_save_img (opt ctx)
           then
             try_except
               (save_images ctx dataset_name img_name clean_img
                  reflection_img)
               (fun e => emit (Warn ("Error saving validation images: "
                                     +:+ exn_str e)))
           else mret tt);
      _ ← match opt_metrics (opt ctx) with
          | Some metrics =>
              for_each metrics
                (record_metric dataset_name clean_img target_t_img)
          | None => mret tt
          end;
      mret [("output_clean", VTensor output_clean);
            ("output_reflection", VTensor output_reflection);
            ("img_name", VStr img_name);
            ("dataset_name", VStr dataset_name)]
  end.

(** [test_step] runs the validation step on loader index [0]. *)
Definition test_step `{Externals} (ctx : context) (batch : dict batch_val)
    (batch_idx : nat) : M (dict out_val) :=
  validation_step ctx batch batch_idx 0.

(** *** [on_validation_epoch_start] *)

(** [list(enumerate(l))] *)
Definition enumerate {A : Type} (l : list A) : list (nat * A) :=
  zip (seq 0 (length l)) l.

(** The configured dataset name, or the fallback *)
Definition loader_name (fallback : string) (loader : val_loader) : string :=
  match dataset_opt loader with
  | Some o =>
      match get "name" o with
      | Some name => name
      | None => fallback
      end
  | None => fallback
  end.

(** One turn of [for idx, loader in enumerate(...)] *)
Definition name_loader (names : gmap nat string)
    (item : nat * val_loader) : gmap nat string :=
  <[item.1 := loader_name ("val_" +:+ str_of_nat item.1) item.2]> names.

Definition update_dataset_names (ctx : context)
    (names : gmap nat string) : gmap nat string :=
  match trainer_val_dataloaders (the_trainer ctx) with
  | Some (LoaderList loaders) => foldl name_loader names (enumerate loaders)
  | Some (SingleLoader loader) => <[0 := loader_name "val" loader]> names
  | None => names
  end.

Definition on_validation_epoch_start (ctx : context) : M unit := fun s =>
  (Ok tt, State (update_dataset_names ctx (val_dataset_names s)) []
            (output s) (trace s)).

(** *** [on_validation_epoch_end] *)

(** [x / n] for a count [n]: division by zero raises, of a float as of
    the integer [0] that is the sum of no value *)
Definition py_div `{Externals} (x : Q) (n : nat) : result Q :=
  match n with
  | O => Raise ZeroDivisionError
  | S _ => Ok (truediv x n)
  end.

(** An entry of [total_average_metrics] before the final division *)
Record total : Type := Total {
  val : Q;
  counts : nat
}.

(** The body of the loop over one dataset's metrics; the local variables
    are [log_str] and [total_average_metrics]. *)
Definition report_metric `{Externals} (ctx : context)
    (dataset_name : string) (acc : string * dict total)
    (item : string * list Q) : M (string * dict total) :=
  let '(log_str, totals) := acc in
  let '(metric_name, values) := item in
  avg_value ← lift (py_div (builtin_sum values) (length values));
  let log_str :=
    log_str +:+ tab +:+ " # " +:+ metric_name +:+ ": "
    +:+ format_4f avg_value in
  _ ← emit (AddScalar ("metrics/" +:+ dataset_name +:+ "/" +:+ metric_name)
              avg_value (current_epoch ctx));
  mret (log_str,
        match get metric_name totals with
        | None =>
            set metric_name (Total (builtin_sum values) (length values))
              totals
        | Some t =>
            set metric_name
              (Total (num_add (val t) (builtin_sum values))
                 (counts t + length values))
              totals
        end).

(** The body of the loop over the datasets *)
Definition report_dataset `{Externals} (ctx : context)
    (totals : dict total) (item : string * dict (list Q))
  : M (dict total) :=
  let '(dataset_name, metrics) := item in
  let log_str :=
    "Validation [" +:+ dataset_name +:+ "] Epoch "
    +:+ str_of_Z (current_epoch ctx) +:+ newline in
  '(log_str, totals') ←
    for_fold metrics (log_str, totals) (report_metric ctx dataset_name);
  _ ← emit (Info log_str);
  mret totals'.

(** [{k: v['val'] / v['counts'] for k, v in ...items()}] *)
Fixpoint divide_totals `{Externals} (totals : dict total)
  : result (dict Q) :=
  match totals with
  | [] => Ok []
  | (k, v) :: rest =>
      q ← py_div (val v) (counts v);
      r ← divide_totals rest;
      mret ((k, q) :: r)
  end.

Definition on_validation_epoch_end `{Externals} (ctx : context) : M unit :=
  fun s =>
    match current_val_metrics s with
    | [] => (Ok tt, s)
    | _ :: _ =>
        (totals ← for_fold (current_val_metrics s) []
                   (report_dataset ctx);
         total_average_metrics ← lift (divide_totals totals);
         _ ← for_each total_average_metrics
               (fun item =>
                  emit (AddScalar ("metrics/average/" +:+ item.1) item.2
                          (current_epoch ctx)));
         log_str ←
           for_fold total_average_metrics
             ("Validation Epoch " +:+ str_of_Z (current_epoch ctx)
              +:+ " Average Metrics:" +:+ newline)
             (fun log_str item =>
                _ ← emit (LogMetric ("metrics/average/" +:+ item.1) item.2);
                mret (log_str +:+ tab +:+ " # " +:+ item.1 +:+ ": "
                      +:+ format_4f item.2 +:+ newline));
         emit (Info log_str)) s
    end.

(** The values handed to [add_scalar] and to [self.log], by tag *)
Definition scalars (tr : list event) : list (string * Q) :=
  omap (fun e => match e with
                 | AddScalar tag v _ => Some (tag, v)
                 | _ => None
                 end) tr.

Definition logged (tr : list event) : list (string * Q) :=
  omap (fun e => match e with
                 | LogMetric tag v => Some (tag, v)
                 | _ => None
                 end) tr.

(** A validation epoch: the start hook, the steps, the end hook.  The
    trainer goes on to the next step only if a step returns. *)
Definition run_steps `{Externals} (ctx : context)
    (steps : list (dict batch_val * nat * nat)) : M unit :=
  for_each steps
    (fun '(batch, batch_idx, dataloader_idx) =>
       _ ← validation_step ctx batch batch_idx dataloader_idx; mret tt).

(** The state in which [setup] leaves the module *)
Definition after_setup : state := State ∅ [] None [].

End BaseModel.

(* ===================================================================== *)
(** ** Notions the properties are stated with                              *)
(* ===================================================================== *)

Module Notions.
Import Data BaseModel.

(** *** Schedulers *)

(** The names the scheduler selection accepts for each class *)
Definition scheduler_for (scheduler_type : string) : result scheduler_kind :=
  select_scheduler (Plain (PStr scheduler_type)).

(** *** States and their logs *)

(** The state with further events in its log *)
Definition logging (s : state) (evs : list event) : state :=
  State (val_dataset_names s) (current_val_metrics s) (output s)
    (trace s ++ evs).

(** A property of the name mapping and the accumulator that a
    computation maintains, whether it returns or raises *)
Definition keeps (I : gmap nat string -> metrics_store -> Prop)
    {A : Type} (c : M A) : Prop :=
  forall s,
    I (val_dataset_names s) (current_val_metrics s) ->
    I (val_dataset_names (c s).2) (current_val_metrics (c s).2).

(** A computation that only adds to the log *)
Definition only_logs {A : Type} (c : M A) : Prop :=
  forall s, exists r evs, c s = (r, logging s evs).

(** *** Metrics of one step *)

(** The values stored under [(dataset_name, name)] *)
Definition values_at (dataset_name name : string) (store : metrics_store)
  : list Q :=
  match get dataset_name store with
  | Some metrics => default [] (get name metrics)
  | None => []
  end.

(** What one configured metric does to the store, and what it warns *)
Definition record_pure `{Externals} (dataset_name : string)
    (clean_img target_t_img : image) (store : metrics_store)
    (item : string * dict pyval) : metrics_store :=
  match calculate_metric clean_img target_t_img item.2 with
  | Ok v => append_metric dataset_name item.1 v store
  | Raise _ => store
  end.

Definition metric_warning `{Externals} (clean_img target_t_img : image)
    (item : string * dict pyval) : option event :=
  match calculate_metric clean_img target_t_img item.2 with
  | Ok _ => None
  | Raise e =>
      Some (Warn ("Error calculating metric '" +:+ item.1 +:+ "': "
                  +:+ exn_str e))
  end.

(** The values the configured metrics yield for [name], in order *)
Definition computed_values `{Externals} (clean_img target_t_img : image)
    (name : string) (metrics : dict (dict pyval)) : list Q :=
  omap (fun item : string * dict pyval =>
          if String.eqb item.1 name then
            match calculate_metric clean_img target_t_img item.2 with
            | Ok v => Some v
            | Raise _ => None
            end
          else None) metrics.

(** *** Averages *)

(** [sum(values) / len(values)], as Python computes it, for a list that
    is not empty *)
Definition mean `{Externals} (values : list Q) : Q :=
  truediv (builtin_sum values) (length values).

(** The values of metric [m] among [(name, values)] entries, in order *)
Definition vals_of (m : string) (entries : dict (list Q)) : list Q :=
  flat_map (fun item : string * list Q =>
              if String.eqb item.1 m then item.2 else []) entries.

(** All metric entries of the store, dataset after dataset *)
Definition entries (store : metrics_store) : dict (list Q) :=
  flat_map snd store.

(** All values accumulated for metric [m], across the datasets *)
Definition all_values (m : string) (store : metrics_store) : list Q :=
  vals_of m (entries store).

(** The per-dataset reports: tag and mean *)
Definition dataset_means `{Externals} (store : metrics_store)
  : list (string * Q) :=
  flat_map (fun item : string * dict (list Q) =>
              map (fun mv : string * list Q =>
                     ("metrics/" +:+ item.1 +:+ "/" +:+ mv.1, mean mv.2))
                item.2) store.

(** Every stored list has a value, as [validation_step] leaves it. *)
Definition store_ok (store : metrics_store) : Prop :=
  Forall (fun mv : string * list Q => mv.2 <> []) (entries store).

(** The update of [total_average_metrics] for one entry *)
Definition add_total `{Externals} (totals : dict total)
    (mv : string * list Q) : dict total :=
  match get mv.1 totals with
  | None => set mv.1 (Total (builtin_sum mv.2) (length mv.2)) totals
  | Some t =>
      set mv.1
        (Total (num_add (val t) (builtin_sum mv.2))
           (counts t + length mv.2)) totals
  end.

(** The sums of the lists of metric [m], dataset after dataset, and the
    running total the hook makes of them: the first sum, then each further
    sum added to what has been added up so far *)
Definition sums_of `{Externals} (m : string) (entries : dict (list Q))
  : list Q :=
  flat_map (fun item : string * list Q =>
              if String.eqb item.1 m then [builtin_sum item.2] else [])
    entries.

Definition running_total `{Externals} (m : string)
    (entries : dict (list Q)) : Q :=
  match sums_of m entries with
  | [] => 0%Q
  | first :: rest => foldl num_add first rest
  end.

(** The global value of metric [m]: the running total of all its sums
    over the number of all its values *)
Definition global_mean `{Externals} (m : string) (store : metrics_store)
  : Q :=
  truediv (running_total m (entries store)) (length (all_values m store)).

(** [totals] holds, for each metric seen, the running total and the count
    of the values seen *)
Definition totals_inv `{Externals} (totals : dict total)
    (seen : dict (list Q)) : Prop :=
  forall m,
    match get m totals with
    | Some t =>
        val t = running_total m seen
        /\ counts t = length (vals_of m seen)
        /\ m ∈ keys seen
    | None => m ∉ keys seen
    end.

Definition average_of `{Externals} (kt : string * total) : string * Q :=
  (kt.1, truediv (val kt.2) (counts kt.2)).

(** *** Exact arithmetic *)

(** The sum and the mean of the rationals *)
Definition exact_sum (values : list Q) : Q := foldr Qplus 0%Q values.

Definition exact_mean (values : list Q) : Q :=
  (exact_sum values / inject_Z (Z.of_nat (length values)))%Q.

(** The additions [((first + x1) + x2) + ...] of a running total do not
    round. *)
Fixpoint exact_adds `{Externals} (total : Q) (rest : list Q) : Prop :=
  match rest with
  | [] => True
  | x :: rest' =>
      (num_add total x == total + x)%Q /\ exact_adds (num_add total x) rest'
  end.

(** No operation of the end hook rounds on this accumulator: the sum and
    the mean of every list, the additions of every running total and the
    division that ends it. *)
Definition exact_on `{Externals} (store : metrics_store) : Prop :=
  Forall (fun mv : string * list Q =>
            (builtin_sum mv.2 == exact_sum mv.2)%Q
            /\ (mean mv.2
                == builtin_sum mv.2 / inject_Z (Z.of_nat (length mv.2)))%Q)
    (entries store)
  /\ forall m,
       m ∈ keys (entries store) ->
       match sums_of m (entries store) with
       | [] => True
       | first :: rest => exact_adds first rest
       end
       /\ (global_mean m store
           == running_total m (entries store)
              / inject_Z (Z.of_nat (length (all_values m store))))%Q.

Definition average_tag (kv : string * Q) : string * Q :=
  ("metrics/average/" +:+ kv.1, kv.2).

(** *** Renaming of keys *)

(** The entries one loop leaves in place, and those it moves to the end
    under the shortened key *)
Definition kept {V : Type} (prefix : string) (w : dict V) : dict V :=
  filter (fun kv : string * V => ¬ startswith prefix kv.1) w.

Definition moved {V : Type} (prefix : string) (n : nat) (w : dict V) : dict V :=
  (fun kv : string * V => (str_from n kv.1, kv.2))
    <$> filter (fun kv : string * V => startswith prefix kv.1) w.

Definition renamed {V : Type} (prefix : string) (n : nat) (w : dict V)
  : dict V :=
  kept prefix w ++ moved prefix n w.

(** No shortened key meets a key in use or another shortened key. *)
Definition clean {V : Type} (prefix : string) (n : nat) (w : dict V) : Prop :=
  NoDup (keys w ++ keys (moved prefix n w)).

End Notions.

(* ===================================================================== *)
(** ** Concrete inputs for the examples                                    *)
(* ===================================================================== *)

Module Fixtures.
Import Data BaseModel.

(** The configuration of the scenario:
    [{phase: 'train', batch_size_per_gpu: 4, num_worker_per_gpu: 2}] *)
Definition scenario_opt : dict pyval :=
  [("phase", PStr "train"); ("batch_size_per_gpu", PInt 4);
   ("num_worker_per_gpu", PInt 2)].

(** [bool(v)] *)
Definition truthy (v : pyval) : bool :=
  match v with
  | PNone => false
  | PBool b => b
  | PInt z => negb (z =? 0)%Z
  | PStr s => negb (String.eqb s EmptyString)
  end.

(** The loader constructor of the examples, with the two checks of
    torch's constructor that they meet: the worker count is not negative,
    and [persistent_workers] needs a worker. *)
Definition torch_checks : LoaderInit := {|
  loader_init := fun a =>
    match as_int (arg_num_workers a) with
    | Some n =>
        if (n <? 0)%Z then
          Raise (ValueError
                   ("num_workers option should be non-negative; "
                    +:+ "use num_workers=0 to disable multiprocessing."))
        else if truthy (arg_persistent_workers a) && (n =? 0)%Z then
          Raise (ValueError "persistent_workers option needs num_workers > 0")
        else Ok tt
    | None => Raise (TypeError "num_workers must be an integer")
    end
|}.

(** The optimizer and scheduler constructors of the examples: step decay
    needs its ['milestones'], which must be iterable, and cosine annealing
    its ['T_max']. *)
Definition torch_optim : Optim := {|
  new_optimizer := fun _ => Ok tt;
  new_scheduler := fun kind scheduler_config =>
    match kind with
    | MultiStepLR =>
        match get "milestones" scheduler_config with
        | Some (Object _) | Some (Plain (PStr _)) => Ok tt
        | Some (Plain v) =>
            Raise (TypeError ("'" +:+ type_name v
                              +:+ "' object is not iterable"))
        | None =>
            Raise (TypeError
                     ("MultiStepLR.__init__() missing 1 required "
                      +:+ "positional argument: 'milestones'"))
        end
    | CosineAnnealingLR =>
        match get "T_max" scheduler_config with
        | Some _ => Ok tt
        | None =>
            Raise (TypeError
                     ("CosineAnnealingLR.__init__() missing 1 required "
                      +:+ "positional argument: 'T_max'"))
        end
    end
|}.

(** Externals for the examples: a network that numbers its two outputs
    after the input, metrics that succeed for the types it knows, and the
    arithmetic of the rationals on their values. *)
#[export] Instance demo : Externals := {|
  net_g := fun '(Tensor n) => (Tensor (2 * n), Tensor (2 * n + 1));
  ema_model := fun '(Tensor n) => (Tensor (2 * n), Tensor (2 * n + 1));
  tensor2img := fun '(Tensor n) => Image n;
  calculate_metric := fun _ _ o =>
    match get "type" o with
    | Some (PStr "psnr") => Ok 30%Q
    | Some (PStr "ssim") => Ok (9 # 10)%Q
    | _ => Raise (ValueError "unknown metric")
    end;
  os_makedirs := fun _ => Ok tt;
  imwrite := fun _ _ => Ok tt;
  osp_join := fun parts => foldr (fun a b => a +:+ "/" +:+ b) "" parts;
  osp_basename := fun p => p;
  osp_splitext_root := fun p => p;
  format_4f := fun _ => "";
  str_of_keys := fun _ => "";
  builtin_sum := fun values => foldl Qplus 0%Q values;
  num_add := Qplus;
  truediv := fun x n => (x / inject_Z (Z.of_nat n))%Q
|}.

(** Python's floats, to the extent the examples need them.  A float is
    named by the rational it is; the two conversions are exact on the
    rationals that are binary64 values. *)
Definition float_of_Z (z : Z) : PrimFloat.float :=
  PrimFloat.of_uint63 (Uint63.of_Z z).

Definition Q_of_float (f : PrimFloat.float) : Q :=
  match FloatOps.Prim2SF f with
  | SpecFloat.S754_finite s m e =>
      let n := if s then Zneg m else Zpos m in
      if (0 <=? e)%Z then inject_Z (n * 2 ^ e)
      else Qmake n (Z.to_pos (2 ^ (- e)))
  | _ => 0%Q
  end.

Definition float_of_Q (q : Q) : PrimFloat.float :=
  match Qnum q with
  | Z0 => PrimFloat.zero
  | Zpos m =>
      FloatOps.SF2Prim
        (SpecFloat.S754_finite false m (- Z.log2 (Zpos (Qden q))))
  | Zneg m =>
      FloatOps.SF2Prim
        (SpecFloat.S754_finite true m (- Z.log2 (Zpos (Qden q))))
  end.

(** The floats [0.1], [0.2] and [0.3], as Python reads the literals *)
Definition tenth : Q :=
  Q_of_float (PrimFloat.div (float_of_Z 1) (float_of_Z 10)).
Definition fifth : Q :=
  Q_of_float (PrimFloat.div (float_of_Z 2) (float_of_Z 10)).
Definition three_tenths : Q :=
  Q_of_float (PrimFloat.div (float_of_Z 3) (float_of_Z 10)).

(** The externals of the examples with the arithmetic of binary64 floats:
    [+] and [/] round to the nearest float, [sum] adds from left to right
    (on the lists of the examples the compensated summation of recent
    Python versions gives the same floats). *)
Definition binary64 : Externals := {|
  net_g := net_g (Externals := demo);
  ema_model := ema_model (Externals := demo);
  tensor2img := tensor2img (Externals := demo);
  calculate_metric := calculate_metric (Externals := demo);
  os_makedirs := os_makedirs (Externals := demo);
  imwrite := imwrite (Externals := demo);
  osp_join := osp_join (Externals := demo);
  osp_basename := osp_basename (Externals := demo);
  osp_splitext_root := osp_splitext_root (Externals := demo);
  format_4f := format_4f (Externals := demo);
  str_of_keys := str_of_keys (Externals := demo);
  builtin_sum := fun values =>
    Q_of_float (foldl PrimFloat.add PrimFloat.zero (float_of_Q <$> values));
  num_add := fun a b =>
    Q_of_float (PrimFloat.add (float_of_Q a) (float_of_Q b));
  truediv := fun x n =>
    Q_of_float (PrimFloat.div (float_of_Q x) (float_of_Z (Z.of_nat n)))
|}.

(** The accumulator [{dsA: {psnr: [0.1, 0.2]}, dsB: {psnr: [0.3]}}] *)
Definition float_store : metrics_store :=
  [("dsA", [("psnr", [tenth; fifth])]); ("dsB", [("psnr", [three_tenths])])].

Definition demo_ctx (loaders : option val_dataloaders) : context :=
  Context (Options "run" true (Some "vis") false None
             (Some [("psnr", [("type", PStr "psnr")]);
                    ("lpips", [("type", PStr "lpips")]);
                    ("ssim", [("type", PStr "ssim")])]))
    (Trainer true false loaders) 0 0 false.

(** The accumulator of the example:
    [{dsA: {psnr: [10, 20]}, dsB: {psnr: [30]}}] *)
Definition example_store : metrics_store :=
  [("dsA", [("psnr", [10%Q; 20%Q])]); ("dsB", [("psnr", [30%Q])])].

End Fixtures.

(* ===================================================================== *)
(** ** More of [base_model.py]: the key report and [setup]                 *)
(* ===================================================================== *)

Module BaseModelMore.
Import Data BaseModel.

(** *** [_print_different_keys_loading] *)

(** [sorted(l)] for a list of strings *)
Definition sorted (l : list string) : list string :=
  merge_sort (fun a b : string => String.leb a b) l.

(** [set(d.keys())] *)
Definition key_set {V : Type} (d : dict V) : gset string :=
  list_to_set (keys d).

(** [for v in sorted(list(ks)): rank_zero_warn(f'  {v}')] *)
Definition key_lines (ks : gset string) : list event :=
  (fun v : string => Warn ("  " +:+ v)) <$> sorted (elements ks).

(** The report of the two key sets, made when they differ *)
Definition key_warnings (crt_net_keys load_net_keys : gset string)
  : list event :=
  if bool_decide (crt_net_keys ≠ load_net_keys) then
    Warn "Current net - loaded net:"
    :: key_lines (crt_net_keys ∖ load_net_keys)
    ++ Warn "Loaded net - current net:"
    :: key_lines (load_net_keys ∖ crt_net_keys)
  else [].

Section PrintKeys.
Context {V : Type}.
(** [v.size()] of a loaded value and [str] of a size *)
Variable size : V -> list Z.
Variable str_of_size : list Z -> string.

Definition size_warning (k : string) (crt load : list Z) : string :=
  "Size different, ignore [" +:+ k +:+ "]: crt_net: " +:+ str_of_size crt
  +:+ "; load_net: " +:+ str_of_size load.

(** One turn of [for k in common_keys] *)
Definition ignore_step (crt_net : dict (list Z))
    (acc : result (list event * dict V)) (k : string)
  : result (list event * dict V) :=
  '(evs, load_net) ← acc;
  crt ← getitem k crt_net;
  v ← getitem k load_net;
  if negb (bool_decide (crt = size v)) then
    '(v', rest) ← pop k load_net;
    mret (evs ++ [Warn (size_warning k crt (size v))],
          set (k +:+ ".ignore") v' rest)
  else mret (evs, load_net).

(** [_print_different_keys_loading(crt_net, load_net, strict)].  The
    decorator [rank_zero_only] runs the body on rank zero only; [crt_net]
    is the state dict of the current network, as sizes; [common_keys] is
    the order in which Python iterates the set [crt_net_keys &
    load_net_keys], which the language leaves open.  The result is the log
    and [load_net] as the function leaves it. *)
Definition _print_different_keys_loading (rank_zero : bool)
    (common_keys : list string) (crt_net : dict (list Z))
    (load_net : dict V) (strict : bool) : result (list event * dict V) :=
  if rank_zero then
    let evs := key_warnings (key_set crt_net) (key_set load_net) in
    if negb strict then
      foldl (ignore_step crt_net) (Ok (evs, load_net)) common_keys
    else Ok (evs, load_net)
  else Ok ([], load_net).

End PrintKeys.

(** *** [load_weights], whole, and [setup] *)

(** What loading needs from outside the module *)
Record loading : Type := Loading {
  load_path : string;                  (* opt['path']['pretrain_network_g'] *)
  param_key_g : option string;         (* opt['path'].get('param_key_g') *)
  strict_load_g : option bool;         (* opt['path'].get('strict_load_g') *)
  torch_load : result (dict pyobj);    (* torch.load(load_path) *)
  crt_net : dict (list Z);             (* self.net_g.state_dict(), as sizes *)
  size_of : pyobj -> list Z;
  str_of_size : list Z -> string;
  common_keys : list string;
  (** [self.net_g.load_state_dict(weights, strict=strict_load)] *)
  load_state_dict : dict pyobj -> bool -> result unit
}.

Definition emit_all (evs : list event) : M unit := for_each evs emit.

Definition say (primary : bool) (msg : string) : M unit :=
  if primary then emit (Info msg) else mret tt.

(** [load_weights(load_path)], statement by statement.  [primary] is
    [self.trainer is None or self.trainer.global_rank == 0], [rank_zero]
    the condition of [rank_zero_only].  The call of [load_state_dict] is
    recorded before its outcome: torch copies what it can into the network
    also when it raises. *)
Definition load_weights `{Externals} (primary rank_zero : bool)
    (l : loading) : M unit :=
  let param_key := default "params" (param_key_g l) in
  let strict_load := default true (strict_load_g l) in
  _ ← say primary ("Loading weights from " +:+ load_path l
                   +:+ " with param key: [" +:+ param_key +:+ "]");
  checkpoint ← lift (torch_load l);
  _ ← say primary ("Available keys in checkpoint: "
                   +:+ str_of_keys (keys checkpoint));
  '(b, weights) ← lift (select_weights param_key checkpoint);
  _ ← say primary (branch_message param_key b);
  w ← lift (items weights);
  w ← lift (strip_prefixes w);
  '(evs, w) ← lift (_print_different_keys_loading (size_of l)
                      (str_of_size l) rank_zero (common_keys l) (crt_net l)
                      w strict_load);
  _ ← emit_all evs;
  _ ← emit (LoadStateDict w strict_load);
  lift (load_state_dict l w strict_load).

(** [self.val_dataset_names = names] *)
Definition set_names (names : gmap nat string) : M unit := fun s =>
  (Ok tt, State names (current_val_metrics s) (output s) (trace s)).

(** [setup(stage)]: [print_network], the pretrained weights if a path is
    configured, [setup_losses] (which does nothing here), and the empty
    name mapping.  [network_line] is the line [print_network] logs. *)
Definition setup `{Externals} (primary rank_zero : bool)
    (network_line : string) (pretrain : option loading)
    (stage : option string) : M unit :=
  _ ← (if rank_zero then emit (Info network_line) else mret tt);
  _ ← match pretrain with
      | Some l => load_weights primary rank_zero l
      | None => mret tt
      end;
  set_names ∅.

End BaseModelMore.

(* ===================================================================== *)
(** ** Further notions                                                     *)
(* ===================================================================== *)

Module MoreNotions.
Import Data BaseModel Notions BaseModelMore.

(** The type name that selects an optimizer class *)
Definition optimizer_name (k : optimizer_kind) : string :=
  match k with
  | Adam => "Adam"
  | AdamW => "AdamW"
  | Adamax => "Adamax"
  | SGD => "SGD"
  | ASGD => "ASGD"
  | RMSprop => "RMSprop"
  | Rprop => "Rprop"
  end.

(** A key of both nets whose loaded value has another size than the
    current one *)
Definition mismatched {V : Type} (size : V -> list Z)
    (crt_net : dict (list Z)) (load_net : dict V) (k : string) : bool :=
  match get k crt_net, get k load_net with
  | Some crt, Some v => negb (bool_decide (crt = size v))
  | _, _ => false
  end.

(** The lookups of [load_net] after the turn for [k0], from those before *)
Definition ignore_lookup {V : Type} (size : V -> list Z)
    (crt_net : dict (list Z)) (load_net : dict V)
    (f : string -> option V) (k0 : string) : string -> option V :=
  if mismatched size crt_net load_net k0 then
    fun k => if String.eqb k (k0 +:+ ".ignore") then get k0 load_net
             else if String.eqb k k0 then None
             else f k
  else f.

(** The guarded [try] of [validation_step] that writes the images *)
Definition save_block `{Externals} (ctx : context)
    (dataset_name img_name : string) (clean_img reflection_img : image)
  : M unit :=
  if is_global_zero (the_trainer ctx) && opt_save_img (opt ctx) then
    try_except
      (save_images ctx dataset_name img_name clean_img reflection_img)
      (fun e => emit (Warn ("Error saving validation images: "
                            +:+ exn_str e)))
  else mret tt.

(** The name a step gives its sample, and what it logs when it has to
    make one up *)
Definition img_name_of `{Externals} (batch : dict batch_val)
    (batch_idx : nat) : string :=
  match get "inp_path" batch with
  | Some (BList (p :: _)) => osp_splitext_root (osp_basename p)
  | _ => "sample_" +:+ str_of_nat batch_idx
  end.

Definition sample_events (batch : dict batch_val) (batch_idx : nat)
  : list event :=
  match get "inp_path" batch with
  | Some (BList (_ :: _)) => []
  | _ => [Warn ("'inp_path' key missing in batch, using fallback name: "
                +:+ "sample_" +:+ str_of_nat batch_idx)]
  end.

(** Where the images of a sample go: the directory, and the tag that
    ends the file names *)
Definition save_dir `{Externals} (ctx : context) (visualization : string)
    (dataset_name img_name : string) : string :=
  if opt_is_train (opt ctx)
  then osp_join [visualization; dataset_name; img_name]
  else osp_join [visualization; dataset_name].

Definition file_tag (ctx : context) : string :=
  if opt_is_train (opt ctx) then
    str_of_Z (if sanity_checking (the_trainer ctx) then current_epoch ctx
              else global_step ctx)
  else match opt_suffix (opt ctx) with
       | Some (String c sfx) => String c sfx
       | _ => opt_name (opt ctx)
       end.

Definition image_path `{Externals} (ctx : context)
    (visualization dataset_name img_name role : string) : string :=
  osp_join [save_dir ctx visualization dataset_name img_name;
            img_name +:+ "_" +:+ role +:+ "_" +:+ file_tag ctx +:+ ".png"].

(** The dictionary a completed step returns *)
Definition step_output (out : tensor * tensor) (img_name dataset_name : string)
  : dict out_val :=
  [("output_clean", VTensor out.1); ("output_reflection", VTensor out.2);
   ("img_name", VStr img_name); ("dataset_name", VStr dataset_name)].

(** The events of the file system: [os.makedirs] and [imwrite] *)
Definition file_event (ev : event) : bool :=
  match ev with
  | Makedirs _ | Imwrite _ _ => true
  | _ => false
  end.

Definition file_events (tr : list event) : list event :=
  List.filter file_event tr.

(** The calls that change the network *)
Definition network_call (ev : event) : bool :=
  match ev with
  | LoadStateDict _ _ => true
  | _ => false
  end.

Definition network_calls (tr : list event) : list event :=
  List.filter network_call tr.

(** The lines [load_weights] logs on the primary process: the
    announcement, the keys of the checkpoint, the arm of the selection *)
Definition announcement (primary : bool) (l : loading) : list event :=
  if primary
  then [Info ("Loading weights from " +:+ load_path l
              +:+ " with param key: ["
              +:+ default "params" (param_key_g l) +:+ "]")]
  else [].

Definition available_keys `{Externals} (primary : bool)
    (checkpoint : dict pyobj) : list event :=
  if primary
  then [Info ("Available keys in checkpoint: "
              +:+ str_of_keys (keys checkpoint))]
  else [].

Definition selection_line (primary : bool) (l : loading) (b : branch)
  : list event :=
  if primary
  then [Info (branch_message (default "params" (param_key_g l)) b)]
  else [].

(** A loader whose dataset has options with a ['name'] *)
Definition has_name (loader : val_loader) : bool :=
  match dataset_opt loader with
  | Some o => mem "name" o
  | None => false
  end.

(** A computation that leaves the file system alone *)
Definition no_files {A : Type} (c : M A) : Prop :=
  forall s, file_events (trace (c s).2) = file_events (trace s).

End MoreNotions.

Module MoreFixtures.
Import Data BaseModel Fixtures.

(** A training run on the global-zero process that saves its images *)
Definition saving_ctx : context :=
  Context (Options "run" true (Some "vis") true None None)
    (Trainer true false None) 0 7 false.

(** The externals of the examples on a file system that refuses new
    directories, and on one that refuses to write *)
Definition read_only : Externals := {|
  net_g := net_g (Externals := demo);
  ema_model := ema_model (Externals := demo);
  tensor2img := tensor2img (Externals := demo);
  calculate_metric := calculate_metric (Externals := demo);
  os_makedirs := fun _ => Raise (ValueError "read-only file system");
  imwrite := imwrite (Externals := demo);
  osp_join := osp_join (Externals := demo);
  osp_basename := osp_basename (Externals := demo);
  osp_splitext_root := osp_splitext_root (Externals := demo);
  format_4f := format_4f (Externals := demo);
  str_of_keys := str_of_keys (Externals := demo);
  builtin_sum := builtin_sum (Externals := demo);
  num_add := num_add (Externals := demo);
  truediv := truediv (Externals := demo)
|}.

Definition disk_full : Externals := {|
  net_g := net_g (Externals := demo);
  ema_model := ema_model (Externals := demo);
  tensor2img := tensor2img (Externals := demo);
  calculate_metric := calculate_metric (Externals := demo);
  os_makedirs := os_makedirs (Externals := demo);
  imwrite := fun _ _ => Raise (ValueError "no space left on device");
  osp_join := osp_join (Externals := demo);
  osp_basename := osp_basename (Externals := demo);
  osp_splitext_root := osp_splitext_root (Externals := demo);
  format_4f := format_4f (Externals := demo);
  str_of_keys := str_of_keys (Externals := demo);
  builtin_sum := builtin_sum (Externals := demo);
  num_add := num_add (Externals := demo);
  truediv := truediv (Externals := demo)
|}.

End MoreFixtures.

(** *** [get_current_visuals] *)

Module Visuals.
Import BaseModel.

(** [s.replace(old, new)] for single characters *)
Fixpoint str_replace (old new : ascii) (s : string) : string :=
  match s with
  | EmptyString => EmptyString
  | String c s' =>
      String (if Ascii.eqb c old then new else c) (str_replace old new s')
  end.

(** The attributes [get_current_visuals] looks for with [hasattr]; [None]
    is an attribute the module does not have.  [detach().cpu()] gives the
    same tensor. *)
Record visual_attrs : Type := VisualAttrs {
  last_inp : option tensor;
  last_output_clean : option tensor;
  last_output_reflection : option tensor;
  last_target_t : option tensor;
  val_visualization : option (dict (dict tensor))
}.

(** [if hasattr(self, attr): out_dict[key] = self.attr] *)
Definition add_attr (key : string) (attr : option tensor)
    (out_dict : dict tensor) : dict tensor :=
  match attr with
  | Some t => set key t out_dict
  | None => out_dict
  end.

(** [dataset_name.replace(' ', '_')] *)
Definition visual_prefix (dataset_name : string) : string :=
  str_replace " "%char "_"%char dataset_name.

(** One turn of the loop over [val_visualization.items()] *)
Definition add_visuals (out_dict : dict tensor)
    (item : string * dict tensor) : result (dict tensor) :=
  let '(dataset_name, visuals) := item in
  let prefix := visual_prefix dataset_name in
  inp ← getitem "inp" visuals;
  let out_dict := set (prefix +:+ "_inp") inp out_dict in
  output_clean ← getitem "output_clean" visuals;
  let out_dict := set (prefix +:+ "_result_clean") output_clean out_dict in
  output_reflection ← getitem "output_reflection" visuals;
  let out_dict :=
    set (prefix +:+ "_result_reflection") output_reflection out_dict in
  mret (match get "target_t" visuals with
        | Some target_t => set (prefix +:+ "_target_t") target_t out_dict
        | None => out_dict
        end).

(** The loop: it stops at the first exception *)
Fixpoint add_all_visuals (items : dict (dict tensor))
    (out_dict : dict tensor) : result (dict tensor) :=
  match items with
  | [] => Ok out_dict
  | item :: rest =>
      out_dict' ← add_visuals out_dict item;
      add_all_visuals rest out_dict'
  end.

Definition get_current_visuals (self : visual_attrs)
  : result (dict tensor) :=
  let out_dict := [] in
  let out_dict := add_attr "inp" (last_inp self) out_dict in
  let out_dict := add_attr "result_clean" (last_output_clean self) out_dict in
  let out_dict :=
    add_attr "result_reflection" (last_output_reflection self) out_dict in
  let out_dict := add_attr "target_t" (last_target_t self) out_dict in
  match val_visualization self with
  | Some visualization => add_all_visuals visualization out_dict
  | None => Ok out_dict
  end.

(** The keys one dataset writes *)
Definition dataset_keys (prefix : string) : list string :=
  [prefix +:+ "_inp"; prefix +:+ "_result_clean";
   prefix +:+ "_result_reflection"; prefix +:+ "_target_t"].

(** The visuals of a dataset with the three entries the loop reads
    unconditionally *)
Definition complete (visuals : dict tensor) : bool :=
  mem "inp" visuals && mem "output_clean" visuals
  && mem "output_reflection" visuals.

End Visuals.

(* ===================================================================== *)
(** * Part II: properties                                                  *)
(* ===================================================================== *)

(** ** Dictionaries *)

Module PyDictFacts.

Section Facts.
Context {V : Type}.
Implicit Types (d : dict V) (k : string) (v : V).

Lemma mem_true k d : mem k d = true <-> is_Some (get k d).
Proof.
  unfold mem. destruct (get k d); split; intros Hm; eauto;
    try discriminate. by destruct Hm.
Qed.

Lemma mem_false k d : mem k d = false <-> get k d = None.
Proof. unfold mem. destruct (get k d); split; congruence. Qed.

Lemma get_Some_in k v d : get k d = Some v -> (k, v) ∈ d.
Proof.
  induction d as [|[k' v'] d IH]; simpl; [discriminate|].
  destruct (String.eqb_spec k' k) as [->|Hne]; intros Hg.
  - inversion Hg; subst. apply list_elem_of_here.
  - apply list_elem_of_further. auto.
Qed.

Lemma get_None_keys k d : get k d = None <-> k ∉ keys d.
Proof.
  unfold keys. induction d as [|[k' v'] d IH]; simpl.
  - split; [intros _; apply not_elem_of_nil | done].
  - rewrite not_elem_of_cons.
    destruct (String.eqb_spec k' k) as [->|Hne]; split.
    + discriminate.
    + intros [Hk _]. done.
    + intros Hg. split; [congruence | by apply IH].
    + intros [_ Hk]. by apply IH.
Qed.

Lemma get_in_wf k v d : wf d -> (k, v) ∈ d -> get k d = Some v.
Proof.
  unfold wf, keys. induction d as [|[k' v'] d IH]; simpl.
  - intros _ Hin. by apply elem_of_nil in Hin.
  - intros Hnd Hin. apply NoDup_cons in Hnd as [Hk' Hnd].
    apply elem_of_cons in Hin as [Heq|Hin].
    + inversion Heq; subst. by rewrite String.eqb_refl.
    + destruct (String.eqb_spec k' k) as [->|Hne]; [|auto].
      exfalso. apply Hk'. apply list_elem_of_fmap. by exists (k, v).
Qed.

Lemma get_set_eq k v d : get k (set k v d) = Some v.
Proof.
  induction d as [|[k' v'] d IH]; simpl.
  - by rewrite String.eqb_refl.
  - destruct (String.eqb_spec k' k) as [->|Hne]; simpl.
    + by rewrite String.eqb_refl.
    + destruct (String.eqb_spec k' k); [done | apply IH].
Qed.

Lemma get_set_ne k k0 v d : k0 <> k -> get k (set k0 v d) = get k d.
Proof.
  intros Hne. induction d as [|[k' v'] d IH]; simpl.
  - destruct (String.eqb_spec k0 k); [done | reflexivity].
  - destruct (String.eqb_spec k' k0) as [->|Hne']; simpl.
    + destruct (String.eqb_spec k0 k); [done | reflexivity].
    + by rewrite IH.
Qed.

Lemma set_fresh k v d : k ∉ keys d -> set k v d = d ++ [(k, v)].
Proof.
  unfold keys. induction d as [|[k' v'] d IH]; simpl; [done|].
  rewrite not_elem_of_cons. intros [Hne Hk].
  destruct (String.eqb_spec k' k); [congruence | by rewrite IH].
Qed.

Lemma keys_set_present k v d : k ∈ keys d -> keys (set k v d) = keys d.
Proof.
  unfold keys. induction d as [|[k' v'] d IH]; simpl.
  - intros Hin. by apply elem_of_nil in Hin.
  - intros Hin. destruct (String.eqb_spec k' k) as [->|Hne]; [done|].
    simpl. f_equal. apply IH.
    apply elem_of_cons in Hin as [?|?]; [congruence | done].
Qed.

Lemma keys_set k v d :
  keys (set k v d) = if mem k d then keys d else keys d ++ [k].
Proof.
  destruct (mem k d) eqn:Hm.
  - apply keys_set_present. apply mem_true in Hm as [x Hx].
    apply get_Some_in in Hx. unfold keys.
    apply list_elem_of_fmap. by exists (k, x).
  - apply mem_false, get_None_keys in Hm. rewrite set_fresh by done.
    unfold keys. by rewrite map_app.
Qed.

Lemma pop_middle k v (a t : dict V) :
  k ∉ keys a -> pop k (a ++ (k, v) :: t) = Ok (v, a ++ t).
Proof.
  unfold keys. induction a as [|[k' v'] a IH]; simpl.
  - intros _. by rewrite String.eqb_refl.
  - rewrite not_elem_of_cons. intros [Hne Hk].
    destruct (String.eqb_spec k' k); [congruence|]. by rewrite IH.
Qed.

Lemma pop_present k d :
  k ∈ keys d ->
  exists v a t, d = (a ++ (k, v) :: t) /\ (k ∉ keys a) /\
                pop k d = Ok (v, a ++ t).
Proof.
  unfold keys. induction d as [|[k' v'] d IH]; simpl.
  - intros Hin. by apply elem_of_nil in Hin.
  - intros Hin. destruct (String.eqb_spec k' k) as [->|Hne].
    + exists v', [], d. split; [done|]. split; [apply not_elem_of_nil|done].
    + apply elem_of_cons in Hin as [?|Hin]; [congruence|].
      destruct (IH Hin) as (v & a & t & -> & Hk & ->).
      exists v, ((k', v') :: a), t. split; [done|]. split; [|done].
      simpl. rewrite not_elem_of_cons. split; [congruence | done].
Qed.

Lemma wf_set k v d : wf d -> wf (set k v d).
Proof.
  unfold wf. intros Hwf. rewrite keys_set.
  destruct (mem k d) eqn:Hm; [done|].
  apply mem_false, get_None_keys in Hm.
  apply NoDup_app. split; [done|]. split; [|apply NoDup_singleton].
  intros x Hx Hx'. apply list_elem_of_singleton in Hx'. by subst.
Qed.

Lemma elem_of_keys_set k v d x :
  x ∈ keys (set k v d) <-> x ∈ keys d \/ x = k.
Proof.
  rewrite keys_set. destruct (mem k d) eqn:Hm.
  - split; [by left|]. intros [Hx | ->]; [done|].
    apply mem_true in Hm as [y Hy]. apply get_Some_in in Hy.
    unfold keys. apply list_elem_of_fmap. by exists (k, y).
  - rewrite elem_of_app, list_elem_of_singleton. done.
Qed.

Lemma wf_remove k v (a t : dict V) :
  wf (a ++ (k, v) :: t) -> wf (a ++ t) /\ k ∉ keys (a ++ t).
Proof.
  unfold wf, keys. rewrite !map_app. simpl. intros Hwf.
  assert (Hp : map fst a ++ k :: map fst t ≡ₚ k :: (map fst a ++ map fst t))
    by solve_Permutation.
  rewrite Hp in Hwf. apply NoDup_cons in Hwf as [Hk Hwf]. done.
Qed.

Lemma elem_of_keys_middle k v (a t : dict V) x :
  x ∈ keys (a ++ (k, v) :: t) <-> x = k \/ x ∈ keys (a ++ t).
Proof.
  unfold keys. rewrite !map_app. simpl.
  rewrite !elem_of_app, elem_of_cons. tauto.
Qed.

End Facts.

End PyDictFacts.

Import PyDictFacts.

(** ** The data-loader builder *)

Module DataFacts.
Import Data Fixtures.

Lemma pyval_eqb_str (v : pyval) (s : string) :
  pyval_eqb v (PStr s) = true <-> v = PStr s.
Proof.
  destruct v as [| b | z | t]; simpl; split; try discriminate; try done.
  - intros Heq. apply String.eqb_eq in Heq. by subst.
  - intros [= ->]. apply String.eqb_refl.
Qed.

Lemma pyval_neqb_str (v : pyval) (s : string) :
  pyval_eqb v (PStr s) = false <-> v <> PStr s.
Proof.
  rewrite <- pyval_eqb_str. destruct (pyval_eqb v (PStr s)); split;
    congruence.
Qed.

Lemma getitem_get {V : Type} (k : string) (d : dict V) (v : V) :
  get k d = Some v -> getitem k d = Ok v.
Proof. unfold getitem. by intros ->. Qed.

(** On integers the worker seed is the documented sum, and it is set
    when numpy accepts it. *)
Lemma worker_init_fn_ints (worker_id num_workers rank seed : Z) :
  worker_init_fn (PInt worker_id) (PInt num_workers) (PInt rank) (PInt seed)
  = let worker_seed := (num_workers * rank + worker_id + seed)%Z in
    if (0 <=? worker_seed)%Z && (worker_seed <? 2 ^ 32)%Z
    then Ok [NumpySeed worker_seed; RandomSeed worker_seed]
    else Raise (ValueError "Seed must be between 0 and 2**32 - 1").
Proof. reflexivity. Qed.

Lemma worker_init_fn_in_range (worker_id num_workers rank seed : Z) :
  (0 <= num_workers * rank + worker_id + seed < 2 ^ 32)%Z ->
  worker_init_fn (PInt worker_id) (PInt num_workers) (PInt rank) (PInt seed)
  = Ok [NumpySeed (num_workers * rank + worker_id + seed);
        RandomSeed (num_workers * rank + worker_id + seed)].
Proof.
  intros Hrange. rewrite worker_init_fn_ints. cbv zeta.
  destruct (Z.leb_spec 0 (num_workers * rank + worker_id + seed));
    [|lia].
  destruct (Z.ltb_spec (num_workers * rank + worker_id + seed) (2 ^ 32));
    [done | lia].
Qed.

(** A rank given as text never yields a seed: the product is a string,
    and adding the integer worker id to it raises. *)
Lemma worker_init_fn_text_rank (worker_id num_workers : Z)
    (rank : string) (seed : pyval) :
  worker_init_fn (PInt worker_id) (PInt num_workers) (PStr rank) seed
  = Raise (TypeError ("can only concatenate str (not " +:+ dquote
                      +:+ "int" +:+ dquote +:+ ") to str")).
Proof. reflexivity. Qed.

(** With [RANK] in the environment no worker of a training loader is
    seeded, whatever the rank and the seed. *)
Lemma train_seeds_with_rank `{LoaderInit} (environ : dict string)
    (dataset : dataset_handle) (dataset_opt : dict pyval)
    (batch_size seed : pyval) (num_workers : Z) (rank : string)
    (sampler : option sampler_handle) :
  get "RANK" environ = Some rank ->
  get "phase" dataset_opt = Some (PStr "train") ->
  get "batch_size_per_gpu" dataset_opt = Some batch_size ->
  get "num_worker_per_gpu" dataset_opt = Some (PInt num_workers) ->
  exists l,
    build_dataloader environ dataset dataset_opt seed sampler = construct l
    /\ forall w, is_ok_seed (seed_worker l w) = false.
Proof.
  intros Hrank Hphase Hbs Hnw. unfold build_dataloader, environ_rank.
  rewrite Hrank, (getitem_get _ _ _ Hphase), (getitem_get _ _ _ Hbs),
    (getitem_get _ _ _ Hnw). simpl.
  destruct (pyval_eqb _ (PStr "cpu")); eexists; (split; [reflexivity|]);
    intros w; reflexivity.
Qed.

(** Without [RANK] in the environment, a training loader seeds worker
    [w] with [num_workers * 0 + w + seed], when numpy accepts it. *)
Lemma train_seeds_without_rank `{LoaderInit} (environ : dict string)
    (dataset : dataset_handle) (dataset_opt : dict pyval)
    (batch_size : pyval) (num_workers seed w : Z)
    (sampler : option sampler_handle) :
  get "RANK" environ = None ->
  get "phase" dataset_opt = Some (PStr "train") ->
  get "batch_size_per_gpu" dataset_opt = Some batch_size ->
  get "num_worker_per_gpu" dataset_opt = Some (PInt num_workers) ->
  (0 <= num_workers * 0 + w + seed < 2 ^ 32)%Z ->
  exists l,
    build_dataloader environ dataset dataset_opt (PInt seed) sampler
    = construct l
    /\ seed_worker l w
       = Ok [NumpySeed (num_workers * 0 + w + seed);
             RandomSeed (num_workers * 0 + w + seed)].
Proof.
  intros Hrank Hphase Hbs Hnw Hrange. unfold build_dataloader, environ_rank.
  rewrite Hrank, (getitem_get _ _ _ Hphase), (getitem_get _ _ _ Hbs),
    (getitem_get _ _ _ Hnw). simpl.
  destruct (pyval_eqb _ (PStr "cpu")); eexists; (split; [reflexivity|]);
    unfold seed_worker, call_worker_init; cbn [loader_args arg_worker_init_fn
      wi_num_workers wi_rank wi_seed];
    by apply worker_init_fn_in_range.
Qed.

Example scenario_seeds_without_rank :
  exists l,
    build_dataloader (H:=torch_checks) [] (DatasetHandle 0) scenario_opt
      (PInt 7) None = Ok l
    /\ seed_worker l 0 = Ok [NumpySeed 7; RandomSeed 7]
    /\ seed_worker l 1 = Ok [NumpySeed 8; RandomSeed 8].
Proof. eexists. repeat split. Qed.

(** The loader of the scenario with [RANK] set is built, and none of its
    two workers is seeded. *)
Example scenario_seeds_with_rank :
  exists l,
    build_dataloader (H:=torch_checks) [("RANK", "0")] (DatasetHandle 0)
      scenario_opt (PInt 7) None = Ok l
    /\ is_ok_seed (seed_worker l 0) = false
    /\ is_ok_seed (seed_worker l 1) = false.
Proof. eexists. repeat split. Qed.

(** What torch's constructor refuses is refused by [build_dataloader]:
    a validation loader has no worker, so it cannot keep workers alive,
    and a worker count must not be negative. *)
Example constructor_refusals :
  build_dataloader (H:=torch_checks) [] (DatasetHandle 0)
    [("phase", PStr "val"); ("persistent_workers", PBool true)] PNone None
  = Raise (ValueError "persistent_workers option needs num_workers > 0")
  /\ build_dataloader (H:=torch_checks) [] (DatasetHandle 0)
       [("phase", PStr "train"); ("batch_size_per_gpu", PInt 4);
        ("num_worker_per_gpu", PInt (-1))] (PInt 7) None
     = Raise (ValueError
                ("num_workers option should be non-negative; "
                 +:+ "use num_workers=0 to disable multiprocessing.")).
Proof. split; reflexivity. Qed.

(** C4, at the failing input.  With [RANK] set in the environment, as a
    distributed launcher does, [os.environ.get('RANK', 0)] is the text
    ["0"], [num_workers * rank] is the text ["00"], and adding the worker
    id raises [TypeError]: the worker of the scenario
    ([num_worker_per_gpu=2], [seed=7], rank 0) is not seeded with [7].
    The loader is the one the call constructs, and the call returns it
    when the constructor accepts its arguments, whatever else the
    constructor checks. *)
Theorem worker_seed_rank_from_environment `{LoaderInit} :
  exists l,
    build_dataloader [("RANK", "0")] (DatasetHandle 0) scenario_opt (PInt 7)
      None = construct l
    /\ (loader_init (loader_args l) = Ok tt ->
        build_dataloader [("RANK", "0")] (DatasetHandle 0) scenario_opt
          (PInt 7) None = Ok l)
    /\ arg_worker_init_fn (loader_args l)
       = Some (WorkerInit (PInt 2) (PStr "0") (PInt 7))
    /\ py_mul (PInt 2) (PStr "0") = Ok (PStr "00")
    /\ seed_worker l 0
       = Raise (TypeError ("can only concatenate str (not " +:+ dquote
                           +:+ "int" +:+ dquote +:+ ") to str"))
    /\ seed_worker l 0 <> Ok [NumpySeed 7; RandomSeed 7].
Proof.
  eexists. split; [reflexivity|]. split.
  - intros Hinit. unfold build_dataloader. simpl. unfold construct.
    simpl in Hinit |- *. by rewrite Hinit.
  - repeat split. discriminate.
Qed.

Lemma worker_seed_rank_from_environment_witness :
  exists l,
    build_dataloader (H:=torch_checks) [("RANK", "0")] (DatasetHandle 0)
      scenario_opt (PInt 7) None = Ok l
    /\ seed_worker l 0
       = Raise (TypeError ("can only concatenate str (not " +:+ dquote
                           +:+ "int" +:+ dquote +:+ ") to str"))
    /\ seed_worker l 0 <> Ok [NumpySeed 7; RandomSeed 7].
Proof.
  destruct (worker_seed_rank_from_environment (H:=torch_checks))
    as (l & Hbuilt & Hreturns & _ & _ & Hseed & Hne).
  exists l. split; [|by split].
  apply Hreturns. clear Hreturns. unfold construct in Hbuilt.
  destruct (loader_init (loader_args l)) as [[]|e]; [done|].
  exfalso. revert Hbuilt. clear. vm_compute. discriminate.
Defined.

(** C3.  [build_dataloader] by phase: the training loader takes batch
    size and worker count from the per-GPU fields, shuffles exactly when
    no sampler is given and drops the last batch; the validation and test
    loaders have batch size 1, no worker, the optional [use_shuffle] flag
    (false by default) and drop nothing; any other phase raises
    [ValueError] with a message that names the phase.  In the three
    phases the call ends by constructing the loader from these arguments,
    and returns it unless the constructor refuses them. *)
Theorem build_dataloader_by_phase `{LoaderInit} (environ : dict string)
    (dataset : dataset_handle) (dataset_opt : dict pyval)
    (seed phase : pyval) (sampler : option sampler_handle) :
  get "phase" dataset_opt = Some phase ->
  (forall batch_size num_workers,
      phase = PStr "train" ->
      get "batch_size_per_gpu" dataset_opt = Some batch_size ->
      get "num_worker_per_gpu" dataset_opt = Some num_workers ->
      exists l,
        build_dataloader environ dataset dataset_opt seed sampler
        = construct l
        /\ (loader_init (loader_args l) = Ok tt ->
            build_dataloader environ dataset dataset_opt seed sampler
            = Ok l)
        /\ arg_batch_size (loader_args l) = batch_size
        /\ arg_num_workers (loader_args l) = num_workers
        /\ arg_shuffle (loader_args l)
           = PBool (bool_decide (sampler = None))
        /\ arg_sampler (loader_args l) = Some sampler
        /\ drops_last (loader_args l) = true)
  /\ (phase = PStr "val" \/ phase = PStr "test" ->
      exists l,
        build_dataloader environ dataset dataset_opt seed sampler
        = construct l
        /\ (loader_init (loader_args l) = Ok tt ->
            build_dataloader environ dataset dataset_opt seed sampler
            = Ok l)
        /\ arg_batch_size (loader_args l) = PInt 1
        /\ arg_num_workers (loader_args l) = PInt 0
        /\ arg_shuffle (loader_args l)
           = default (PBool false) (get "use_shuffle" dataset_opt)
        /\ drops_last (loader_args l) = false)
  /\ (phase <> PStr "train" -> phase <> PStr "val" ->
      phase <> PStr "test" ->
      build_dataloader environ dataset dataset_opt seed sampler
      = Raise (ValueError ("Wrong dataset phase: " +:+ py_str phase
                 +:+ ". Supported ones are 'train', 'val' and 'test'."))).
Proof.
  intros Hphase. unfold build_dataloader.
  rewrite (getitem_get _ _ _ Hphase). simpl.
  split; [|split].
  - intros batch_size num_workers -> Hbs Hnw. simpl.
    rewrite (getitem_get _ _ _ Hbs), (getitem_get _ _ _ Hnw). simpl.
    destruct (pyval_eqb _ (PStr "cpu")); eexists; (split; [reflexivity|]);
      (split; [unfold construct; by intros ->|]);
      simpl; repeat split; by destruct sampler.
  - intros [-> | ->]; simpl;
      destruct (pyval_eqb _ (PStr "cpu")); eexists;
      (split; [reflexivity|]);
      (split; [unfold construct; by intros ->|]); simpl; repeat split.
  - intros Htrain Hval Htest.
    apply pyval_neqb_str in Htrain, Hval, Htest.
    by rewrite Htrain, Hval, Htest.
Qed.

Lemma build_dataloader_by_phase_witness :
  let opt : dict pyval := [("phase", PStr "val"); ("use_shuffle", PBool true)] in
  exists l,
    build_dataloader (H:=torch_checks) [] (DatasetHandle 0) opt PNone None
    = Ok l
    /\ arg_batch_size (loader_args l) = PInt 1
    /\ arg_num_workers (loader_args l) = PInt 0
    /\ arg_shuffle (loader_args l) = PBool true
    /\ drops_last (loader_args l) = false.
Proof.
  intros opt.
  destruct (build_dataloader_by_phase (H:=torch_checks) []
              (DatasetHandle 0) opt PNone (PStr "val") None eq_refl)
    as (_ & Hval & _).
  destruct (Hval (or_introl eq_refl))
    as (l & Hbuilt & Hreturns & Hbs & Hnw & Hsh & Hdrop).
  exists l. split; [|done].
  apply Hreturns. clear Hreturns. unfold construct in Hbuilt.
  destruct (loader_init (loader_args l)) as [[]|e]; [done|].
  exfalso. revert Hbuilt. subst opt. clear. vm_compute. discriminate.
Defined.

(** The loader of this configuration is built: torch accepts a single
    process without workers to keep. *)
Example validation_loader_is_built :
  exists l,
    build_dataloader (H:=torch_checks) [] (DatasetHandle 0)
      [("phase", PStr "val"); ("use_shuffle", PBool true)] PNone None = Ok l
    /\ arg_batch_size (loader_args l) = PInt 1
    /\ arg_shuffle (loader_args l) = PBool true.
Proof. eexists. repeat split. Qed.

End DataFacts.

(** ** Checkpoint keys and schedulers *)

Module LoadFacts.
Import Data DataFacts BaseModel Notions Fixtures.

Lemma select_weights_total (param_key : string) (checkpoint : dict pyobj) :
  exists b w, select_weights param_key checkpoint = Ok (b, w).
Proof.
  unfold select_weights, getitem.
  destruct (mem param_key checkpoint) eqn:H1.
  { apply mem_true in H1 as [w ->]. by eexists _, _. }
  destruct (mem "params_ema" checkpoint) eqn:H2; simpl.
  { apply mem_true in H2 as [w H2]. rewrite H2.
    destruct (negb _); simpl; [by eexists _, _|].
    destruct (mem "params" checkpoint) eqn:H3; simpl; [|by eexists _, _].
    apply mem_true in H3 as [w3 ->].
    destruct (negb _); by eexists _, _. }
  destruct (mem "params" checkpoint) eqn:H3; simpl; [|by eexists _, _].
  apply mem_true in H3 as [w3 ->].
  destruct (negb _); by eexists _, _.
Qed.

(** C2.  The key selection of [load_weights]: the configured key when
    the checkpoint has it; else ['params_ema'] when the configured key
    differs from it and it is present; else ['params'] under the same
    condition; else the whole checkpoint.  The selection always yields
    exactly one arm, and a checkpoint holding only ['params_ema'] serves a
    request for ['params'] from ['params_ema']. *)
Theorem load_weights_key_selection (param_key : string)
    (checkpoint : dict pyobj) :
  let has k := is_Some (get k checkpoint) in
  let ema := has "params_ema" /\ param_key <> "params_ema" in
  let primary := has "params" /\ param_key <> "params" in
  (forall w, get param_key checkpoint = Some w ->
             select_weights param_key checkpoint = Ok (UseParamKey, w))
  /\ (forall w, ~ has param_key -> ema ->
                get "params_ema" checkpoint = Some w ->
                select_weights param_key checkpoint = Ok (UseParamsEma, w))
  /\ (forall w, ~ has param_key -> ~ ema -> primary ->
                get "params" checkpoint = Some w ->
                select_weights param_key checkpoint = Ok (UseParams, w))
  /\ (~ has param_key -> ~ ema -> ~ primary ->
      select_weights param_key checkpoint
      = Ok (UseWholeCheckpoint, ODict checkpoint))
  /\ (exists b w, select_weights param_key checkpoint = Ok (b, w)
                  /\ forall b' w',
                       select_weights param_key checkpoint = Ok (b', w') ->
                       b' = b /\ w' = w)
  /\ (forall w, select_weights "params" [("params_ema", w)]
                = Ok (UseParamsEma, w)).
Proof.
  intros has ema primary. subst has ema primary. simpl.
  assert (Hno : forall k, ~ is_Some (get k checkpoint) ->
                          mem k checkpoint = false).
  { intros k Hk. apply mem_false. destruct (get k checkpoint); [|done].
    exfalso. apply Hk. eauto. }
  assert (Hyes : forall k w, get k checkpoint = Some w ->
                             mem k checkpoint = true).
  { intros k w Hk. apply mem_true. eauto. }
  assert (Hcond : forall k, mem k checkpoint && negb (String.eqb param_key k)
                            = true
                            <-> is_Some (get k checkpoint) /\ param_key <> k).
  { intros k. rewrite andb_true_iff, mem_true, negb_true_iff.
    by rewrite String.eqb_neq. }
  repeat split.
  - intros w Hw. unfold select_weights, getitem.
    by rewrite (Hyes _ _ Hw), Hw.
  - intros w Hk Hema Hw. unfold select_weights, getitem.
    rewrite (Hno _ Hk). apply Hcond in Hema. by rewrite Hema, Hw.
  - intros w Hk Hema Hprim Hw. unfold select_weights, getitem.
    rewrite (Hno _ Hk).
    destruct (mem "params_ema" checkpoint && _) eqn:He.
    { apply Hcond in He. contradiction. }
    apply Hcond in Hprim. by rewrite Hprim, Hw.
  - intros Hk Hema Hprim. unfold select_weights.
    rewrite (Hno _ Hk).
    destruct (mem "params_ema" checkpoint && _) eqn:He.
    { apply Hcond in He. contradiction. }
    destruct (mem "params" checkpoint && _) eqn:Hp.
    { apply Hcond in Hp. contradiction. }
    reflexivity.
  - destruct (select_weights_total param_key checkpoint) as (b & w & Hs).
    exists b, w. split; [done|]. intros b' w' Hs'. rewrite Hs in Hs'.
    by inversion Hs'.
Qed.

Lemma load_weights_key_selection_witness :
  select_weights "params"
    [("epoch", OInt 3); ("params_ema", ODict [("conv.weight", OTensor (Tensor 0))])]
  = Ok (UseParamsEma, ODict [("conv.weight", OTensor (Tensor 0))]).
Proof.
  destruct (load_weights_key_selection "params"
              [("epoch", OInt 3);
               ("params_ema", ODict [("conv.weight", OTensor (Tensor 0))])])
    as (_ & Hema & _).
  apply Hema.
  - simpl. by intros [x Hx].
  - simpl. split; [eauto | discriminate].
  - reflexivity.
Defined.

Lemma is_str_spec (ty : optval) (s : string) :
  is_str ty s = bool_decide (ty = Plain (PStr s)).
Proof.
  destruct ty as [v|text]; unfold is_str.
  - destruct (pyval_eqb v (PStr s)) eqn:He.
    + apply pyval_eqb_str in He. subst. symmetry.
      by apply bool_decide_eq_true_2.
    + apply pyval_neqb_str in He. symmetry. apply bool_decide_eq_false_2.
      congruence.
  - symmetry. by apply bool_decide_eq_false_2.
Qed.

Lemma configure_scheduler_get `{Optim} (scheduler_opt : dict optval)
    (ty : optval) :
  get "type" scheduler_opt = Some ty ->
  configure_scheduler scheduler_opt
  = (kind ← select_scheduler ty;
     construct_scheduler kind (without_type scheduler_opt)).
Proof.
  intros Hty. unfold configure_scheduler.
  by rewrite (getitem_get _ _ _ Hty).
Qed.

Lemma scheduler_for_cosine (a : string) :
  scheduler_for a = Ok CosineAnnealingLR -> a = "CosineAnnealingRestartLR".
Proof.
  unfold scheduler_for, select_scheduler. simpl.
  destruct (String.eqb a "MultiStepLR" || String.eqb a "MultiStepRestartLR");
    [discriminate|].
  destruct (String.eqb_spec a "CosineAnnealingRestartLR"); [done|].
  discriminate.
Qed.

(** C8, as stated, fails: cosine annealing has a single configured name.
    No two distinct type names select it, and the class's own name
    ['CosineAnnealingLR'] is rejected. *)
Lemma cosine_annealing_has_one_name :
  ~ (exists a b : string,
        a <> b /\ scheduler_for a = Ok CosineAnnealingLR
        /\ scheduler_for b = Ok CosineAnnealingLR)
  /\ scheduler_for "CosineAnnealingLR"
     = Raise (NotImplementedError
                "Scheduler CosineAnnealingLR is not implemented yet.")
  /\ configure_scheduler (H:=torch_optim)
       [("type", Plain (PStr "CosineAnnealingLR")); ("T_max", Plain (PInt 100))]
     = Raise (NotImplementedError
                "Scheduler CosineAnnealingLR is not implemented yet.").
Proof.
  split; [|split; reflexivity].
  intros (a & b & Hne & Ha & Hb).
  apply scheduler_for_cosine in Ha, Hb. congruence.
Qed.

(** What torch's constructors refuse is refused by the configuration: a
    step decay without milestones, or with a number for them. *)
Example scheduler_constructor_refusals :
  configure_scheduler (H:=torch_optim) [("type", Plain (PStr "MultiStepLR"))]
  = Raise (TypeError
             ("MultiStepLR.__init__() missing 1 required "
              +:+ "positional argument: 'milestones'"))
  /\ configure_optimizers (H:=torch_optim) (PStr "Adam")
       [("milestones", Plain (PInt 5)); ("type", Plain (PStr "MultiStepLR"));
        ("gamma", Plain (PInt 2))] None
     = Raise (TypeError "'int' object is not iterable").
Proof. split; reflexivity. Qed.

(** C8, amended.  The scheduler type selects one of two classes: the
    names ['MultiStepLR'] and ['MultiStepRestartLR'] both select step decay
    at milestones, the single name ['CosineAnnealingRestartLR'] selects
    cosine annealing, and every other type raises [NotImplementedError].
    The selected class is constructed from the options without ['type'],
    and the scheduler is the one constructed unless the constructor
    refuses them. *)
Theorem scheduler_selection `{Optim} (scheduler_opt : dict optval)
    (ty : optval) :
  get "type" scheduler_opt = Some ty ->
  (ty = Plain (PStr "MultiStepLR")
   \/ ty = Plain (PStr "MultiStepRestartLR") ->
   select_scheduler ty = Ok MultiStepLR
   /\ configure_scheduler scheduler_opt
      = construct_scheduler MultiStepLR (without_type scheduler_opt))
  /\ (ty = Plain (PStr "CosineAnnealingRestartLR") ->
      select_scheduler ty = Ok CosineAnnealingLR
      /\ configure_scheduler scheduler_opt
         = construct_scheduler CosineAnnealingLR
             (without_type scheduler_opt))
  /\ (ty <> Plain (PStr "MultiStepLR") ->
      ty <> Plain (PStr "MultiStepRestartLR") ->
      ty <> Plain (PStr "CosineAnnealingRestartLR") ->
      configure_scheduler scheduler_opt
      = Raise (NotImplementedError
                 ("Scheduler " +:+ opt_str ty +:+ " is not implemented yet.")))
  /\ (forall s, configure_scheduler scheduler_opt = Ok s ->
                (scheduler s = MultiStepLR
                 <-> ty = Plain (PStr "MultiStepLR")
                     \/ ty = Plain (PStr "MultiStepRestartLR"))
                /\ (scheduler s = CosineAnnealingLR
                    <-> ty = Plain (PStr "CosineAnnealingRestartLR"))).
Proof.
  intros Hty. rewrite (configure_scheduler_get _ _ Hty).
  unfold select_scheduler. rewrite !is_str_spec.
  repeat case_bool_decide; subst; simpl; try discriminate;
    (split; [|split; [|split]]);
    try (intros; subst; simpl in *; intuition congruence).
  all: intros s; unfold construct_scheduler;
    destruct (new_scheduler _ _) as [[]|e]; simpl; try discriminate;
    intros [= <-]; simpl; intuition congruence.
Qed.

Lemma scheduler_selection_witness :
  configure_scheduler (H:=torch_optim)
    [("type", Plain (PStr "MultiStepRestartLR"));
     ("milestones", Object "[100, 200]"); ("gamma", Object "0.5")]
  = Ok (LrScheduler MultiStepLR
          [("milestones", Object "[100, 200]"); ("gamma", Object "0.5")]).
Proof.
  destruct (scheduler_selection (H:=torch_optim)
              [("type", Plain (PStr "MultiStepRestartLR"));
               ("milestones", Object "[100, 200]"); ("gamma", Object "0.5")]
              (Plain (PStr "MultiStepRestartLR")) eq_refl) as (Hms & _).
  destruct Hms as [_ Hrun]; [by right|]. rewrite Hrun. reflexivity.
Defined.

End LoadFacts.

(** ** Validation *)

Module ValidationFacts.
Import Data DataFacts BaseModel Notions Fixtures.

Section Steps.
Context `{Externals}.

Lemma bind_run {A B : Type} (c : M A) (k : A -> M B) (s : state) :
  (x ← c; k x) s
  = match c s with
    | (Ok a, s') => k a s'
    | (Raise e, s') => (Raise e, s')
    end.
Proof. reflexivity. Qed.

Lemma validation_step_unknown_loader (ctx : context)
    (batch : dict batch_val) (batch_idx dataloader_idx : nat) (s : state) :
  val_dataset_names s !! dataloader_idx = None ->
  validation_step ctx batch batch_idx dataloader_idx s
  = (Raise (KeyError (str_of_nat dataloader_idx)), s).
Proof.
  intros Hnone. unfold validation_step. rewrite bind_run.
  unfold lookup_dataset_name. by rewrite Hnone.
Qed.

Lemma validation_step_missing_input (ctx : context)
    (batch : dict batch_val) (batch_idx dataloader_idx : nat) (s : state)
    (dataset_name : string) :
  val_dataset_names s !! dataloader_idx = Some dataset_name ->
  mem "input" batch = false ->
  validation_step ctx batch batch_idx dataloader_idx s
  = (Ok [("error", VStr "Missing required key: input")],
     logging s
       [Warn "Required key 'input' missing from batch during validation"]).
Proof.
  intros Hname Hin. unfold validation_step. rewrite bind_run.
  unfold lookup_dataset_name. rewrite Hname. simpl. by rewrite Hin.
Qed.

End Steps.

(** C5, as stated, fails: in the state [setup] leaves behind, where no
    dataset name is known yet, a batch without ['input'] makes the step
    raise [KeyError] instead of returning the tagged result.  This is the
    state in which [test_step] runs the step. *)
Lemma missing_input_before_names_raises :
  mem "input" ([("target_t", BTensor (Tensor 1))] : dict batch_val) = false
  /\ validation_step (demo_ctx None) [("target_t", BTensor (Tensor 1))] 0 0
       after_setup
     = (Raise (KeyError "0"), after_setup)
  /\ test_step (demo_ctx None) [("target_t", BTensor (Tensor 1))] 0
       after_setup
     = (Raise (KeyError "0"), after_setup).
Proof. repeat split. Qed.

(** C5, amended.  When the name mapping has an entry for the loader
    index, a batch without ['input'] makes the step return the mapping
    [{'error': 'Missing required key: input'}]; it raises nothing, logs one
    warning and leaves names, metrics and output as they were, so that the
    loop goes on with the next sample. *)
Theorem validation_step_skips_sample_without_input `{Externals}
    (ctx : context) (batch : dict batch_val)
    (batch_idx dataloader_idx : nat) (s : state) (dataset_name : string)
    (rest : list (dict batch_val * nat * nat)) :
  val_dataset_names s !! dataloader_idx = Some dataset_name ->
  mem "input" batch = false ->
  let s' :=
    logging s
      [Warn "Required key 'input' missing from batch during validation"] in
  validation_step ctx batch batch_idx dataloader_idx s
  = (Ok [("error", VStr "Missing required key: input")], s')
  /\ current_val_metrics s' = current_val_metrics s
  /\ val_dataset_names s' = val_dataset_names s
  /\ run_steps ctx ((batch, batch_idx, dataloader_idx) :: rest) s
     = run_steps ctx rest s'.
Proof.
  intros Hname Hin s'.
  pose proof (validation_step_missing_input ctx batch batch_idx
                dataloader_idx s dataset_name Hname Hin) as Hstep.
  repeat split; [done|].
  unfold run_steps. simpl. rewrite !bind_run. by rewrite Hstep.
Qed.

Lemma validation_step_skips_sample_without_input_witness :
  let s := State {[0 := "dsA"]} [] None [] in
  validation_step (demo_ctx None) [("target_t", BTensor (Tensor 1))] 5 0 s
  = (Ok [("error", VStr "Missing required key: input")],
     State {[0 := "dsA"]} [] None
       [Warn "Required key 'input' missing from batch during validation"]).
Proof.
  intros s.
  destruct (validation_step_skips_sample_without_input (demo_ctx None)
              [("target_t", BTensor (Tensor 1))] 5 0 s "dsA" []
              eq_refl eq_refl) as (Hstep & _).
  exact Hstep.
Defined.

(** C10.  The step reads [val_dataset_names[dataloader_idx]] before it
    checks the batch: for an index the mapping lacks it raises [KeyError]
    whatever the batch holds, and a batch without ['input'] gets the tagged
    error result exactly when the mapping has the index. *)
Theorem validation_step_reads_name_first `{Externals} (ctx : context)
    (batch : dict batch_val) (batch_idx dataloader_idx : nat) (s : state) :
  (val_dataset_names s !! dataloader_idx = None ->
   validation_step ctx batch batch_idx dataloader_idx s
   = (Raise (KeyError (str_of_nat dataloader_idx)), s))
  /\ (mem "input" batch = false ->
      (exists out s',
          validation_step ctx batch batch_idx dataloader_idx s
          = (Ok out, s')
          /\ get "error" out = Some (VStr "Missing required key: input"))
      <-> is_Some (val_dataset_names s !! dataloader_idx)).
Proof.
  split; [apply validation_step_unknown_loader|].
  intros Hin. split.
  - intros (out & s' & Hstep & _).
    destruct (val_dataset_names s !! dataloader_idx) eqn:Hname; [eauto|].
    rewrite validation_step_unknown_loader in Hstep by done. discriminate.
  - intros [dataset_name Hname].
    rewrite (validation_step_missing_input _ _ _ _ _ _ Hname Hin).
    by eexists _, _.
Qed.

Lemma validation_step_reads_name_first_witness :
  let s := State {[0 := "dsA"]} [] None [] in
  validation_step (demo_ctx None) [] 0 1 s = (Raise (KeyError "1"), s).
Proof.
  intros s.
  destruct (validation_step_reads_name_first (demo_ctx None) [] 0 1 s)
    as (Hraise & _).
  apply Hraise. reflexivity.
Defined.

(** *** The name mapping over an epoch *)

Section Invariant.
Context `{Externals}.
Variable I : gmap nat string -> metrics_store -> Prop.
Hypothesis I_append :
  forall names store dataset_name name v,
    I names store -> I names (append_metric dataset_name name v store).

Lemma keeps_ret {A : Type} (a : A) : keeps I (mret a).
Proof. by intros s Hs. Qed.

Lemma keeps_lift {A : Type} (r : result A) : keeps I (lift r).
Proof. by intros s Hs. Qed.

Lemma keeps_emit (e : event) : keeps I (emit e).
Proof. by intros s Hs. Qed.

Lemma keeps_set_output (o : tensor * tensor) : keeps I (set_output o).
Proof. by intros s Hs. Qed.

Lemma keeps_append_metric (dataset_name name : string) (v : Q) :
  keeps I (modify_metrics (append_metric dataset_name name v)).
Proof. intros s Hs. simpl. by apply I_append. Qed.

Lemma keeps_get_output : keeps I get_output.
Proof. intros s Hs. unfold get_output. by destruct (output s). Qed.

Lemma keeps_lookup (idx : nat) : keeps I (lookup_dataset_name idx).
Proof.
  intros s Hs. unfold lookup_dataset_name.
  by destruct (val_dataset_names s !! idx).
Qed.

Lemma keeps_bind {A B : Type} (c : M A) (k : A -> M B) :
  keeps I c -> (forall a, keeps I (k a)) ->
  keeps I (x ← c; k x).
Proof.
  intros Hc Hk s Hs. rewrite bind_run. specialize (Hc s Hs).
  destruct (c s) as [[a|e] s1]; simpl in *; [|done].
  by apply Hk.
Qed.

Lemma keeps_try {A : Type} (body : M A) (handler : exn -> M A) :
  keeps I body -> (forall e, keeps I (handler e)) ->
  keeps I (try_except body handler).
Proof.
  intros Hb Hh s Hs. unfold try_except. specialize (Hb s Hs).
  destruct (body s) as [[a|e] s1]; simpl in *; [done|].
  by apply Hh.
Qed.

Lemma keeps_for_each {A : Type} (l : list A) (body : A -> M unit) :
  (forall x, keeps I (body x)) -> keeps I (for_each l body).
Proof.
  intros Hb. induction l as [|x l IH]; simpl.
  - apply keeps_ret.
  - apply keeps_bind; [apply Hb | intros _; apply IH].
Qed.

Lemma keeps_save_images (ctx : context) (dataset_name img_name : string)
    (clean_img reflection_img : image) :
  keeps I (save_images ctx dataset_name img_name clean_img
                 reflection_img).
Proof.
  unfold save_images.
  apply keeps_bind; [apply keeps_lift | intros visualization].
  apply keeps_bind.
  - destruct (opt_is_train (opt ctx));
      repeat (apply keeps_bind; [first [apply keeps_lift | apply keeps_emit]
                                | intros ?]); apply keeps_ret.
  - intros [p1 p2].
    repeat (apply keeps_bind; [first [apply keeps_lift | apply keeps_emit]
                              | intros ?]); apply keeps_emit.
Qed.

Lemma keeps_record_metric (dataset_name : string)
    (clean_img target_t_img : image) (item : string * dict pyval) :
  keeps I (record_metric dataset_name clean_img target_t_img item).
Proof.
  destruct item as [name opt_]. unfold record_metric.
  apply keeps_try; [|intros e; apply keeps_emit].
  apply keeps_bind; [apply keeps_lift|].
  intros v. apply keeps_append_metric.
Qed.

Lemma keeps_sample_name (batch : dict batch_val) (batch_idx : nat) :
  keeps I (sample_name batch batch_idx).
Proof.
  unfold sample_name.
  destruct (get "inp_path" batch) as [[t|[|p l]]|];
    first [apply keeps_lift | apply keeps_ret
          | apply keeps_bind; [apply keeps_emit | intros ?; apply keeps_ret]].
Qed.

Lemma keeps_validation_step (ctx : context) (batch : dict batch_val)
    (batch_idx dataloader_idx : nat) :
  keeps I (validation_step ctx batch batch_idx dataloader_idx).
Proof.
  unfold validation_step.
  apply keeps_bind; [apply keeps_lookup | intros dataset_name].
  destruct (first_missing ["input"] batch) as [key|].
  { apply keeps_bind; [apply keeps_emit | intros ?; apply keeps_ret]. }
  apply keeps_bind; [apply keeps_lift | intros inp].
  apply keeps_bind; [apply keeps_set_output | intros _].
  apply keeps_bind; [apply keeps_get_output | intros [oc orf]].
  apply keeps_bind; [apply keeps_sample_name | intros img_name].
  apply keeps_bind; [apply keeps_lift | intros target_t].
  apply keeps_bind.
  { destruct (_ && _); [|apply keeps_ret].
    apply keeps_try; [apply keeps_save_images | intros e; apply keeps_emit]. }
  intros _. apply keeps_bind; [|intros _; apply keeps_ret].
  destruct (opt_metrics (opt ctx)) as [metrics|]; [|apply keeps_ret].
  apply keeps_for_each. intros item. apply keeps_record_metric.
Qed.

Lemma keeps_run_steps (ctx : context)
    (steps : list (dict batch_val * nat * nat)) :
  keeps I (run_steps ctx steps).
Proof.
  unfold run_steps. apply keeps_for_each. intros [[batch bi] di].
  apply keeps_bind; [apply keeps_validation_step | intros _].
  apply keeps_ret.
Qed.

End Invariant.

Section Names.
Context `{Externals}.

(** No validation step writes to [val_dataset_names]. *)
Lemma run_steps_keeps_names (ctx : context)
    (steps : list (dict batch_val * nat * nat)) (s : state) :
  val_dataset_names (run_steps ctx steps s).2 = val_dataset_names s.
Proof.
  by apply (keeps_run_steps (fun names _ => names = val_dataset_names s)).
Qed.

(** The mapping after the loop over [enumerate(val_dataloaders)] *)
Lemma foldl_name_loader (loaders : list val_loader) :
  forall (i : nat) (names : gmap nat string) (idx : nat),
    foldl name_loader names (zip (seq i (length loaders)) loaders) !! idx
    = match (if decide (i <= idx) then loaders !! (idx - i) else None) with
      | Some loader =>
          Some (loader_name ("val_" +:+ str_of_nat idx) loader)
      | None => names !! idx
      end.
Proof.
  induction loaders as [|l loaders IH]; intros i names idx; simpl.
  - by destruct (decide (i <= idx)).
  - rewrite IH. unfold name_loader. simpl.
    destruct (decide (S i <= idx)) as [Hlt|Hge].
    + destruct (decide (i <= idx)); [|lia].
      replace (idx - i) with (S (idx - S i)) by lia. simpl.
      destruct (loaders !! (idx - S i)); [done|].
      apply lookup_insert_ne. lia.
    + destruct (decide (i <= idx)) as [Hle|Hgt].
      * assert (idx = i) as -> by lia. rewrite Nat.sub_diag. simpl.
        apply lookup_insert_eq.
      * apply lookup_insert_ne. lia.
Qed.

Lemma update_names_list (ctx : context) (names : gmap nat string)
    (loaders : list val_loader) (idx : nat) :
  trainer_val_dataloaders (the_trainer ctx) = Some (LoaderList loaders) ->
  update_dataset_names ctx names !! idx
  = match loaders !! idx with
    | Some loader => Some (loader_name ("val_" +:+ str_of_nat idx) loader)
    | None => names !! idx
    end.
Proof.
  intros Hl. unfold update_dataset_names, enumerate. rewrite Hl.
  rewrite foldl_name_loader. destruct (decide (0 <= idx)); [|lia].
  by rewrite Nat.sub_0_r.
Qed.

(** During a validation epoch every active loader has its name: the
    lookup at the head of [validation_step] succeeds for its index. *)
Lemma epoch_names_cover (ctx : context)
    (steps : list (dict batch_val * nat * nat)) (s0 : state)
    (loaders : list val_loader) (idx : nat) :
  trainer_val_dataloaders (the_trainer ctx) = Some (LoaderList loaders) ->
  idx < length loaders ->
  is_Some
    (val_dataset_names
       (run_steps ctx steps (on_validation_epoch_start ctx s0).2).2 !! idx).
Proof.
  intros Hl Hidx. rewrite run_steps_keeps_names. simpl.
  rewrite (update_names_list _ _ _ _ Hl).
  apply lookup_lt_is_Some in Hidx as [loader Hloader].
  rewrite Hloader. by eexists.
Qed.

End Names.

(** C9, as stated, fails: the hook overwrites the entries of the active
    loaders and keeps every other entry.  After an epoch with two loaders
    and a later one with a single loader, index [1] still carries the name
    of a loader that is no longer active. *)
Lemma stale_name_survives_epoch_start :
  let two := LoaderList [ValLoader (Some [("name", "dsA")]);
                         ValLoader (Some [("name", "dsB")])] in
  let one := LoaderList [ValLoader (Some [("name", "dsC")])] in
  let s1 := (on_validation_epoch_start (demo_ctx (Some two)) after_setup).2 in
  let s2 := (on_validation_epoch_start (demo_ctx (Some one)) s1).2 in
  val_dataset_names s2 !! 0 = Some "dsC"
  /\ val_dataset_names s2 !! 1 = Some "dsB"
  /\ ~ (forall idx, is_Some (val_dataset_names s2 !! idx) <-> idx < 1).
Proof.
  intros two one s1 s2. split; [reflexivity|]. split; [reflexivity|].
  intros Hexact. destruct (Hexact 1) as [Hlt _].
  assert (1 < 1) by (apply Hlt; by eexists). lia.
Qed.

(** C9, amended.  The epoch-start hook empties the metric accumulator and
    writes, for every active validation loader, its index with the
    configured dataset name or the fallback (["val_<idx>"] in a list,
    ["val"] for a single loader); entries at other indices stay as they
    were, so the entries are exactly the active loaders when the mapping
    was empty before, as [setup] leaves it.  No validation step of the
    epoch changes the mapping. *)
Theorem epoch_start_names `{Externals} (ctx : context) (s : state) :
  let s' := (on_validation_epoch_start ctx s).2 in
  (on_validation_epoch_start ctx s).1 = Ok tt
  /\ current_val_metrics s' = []
  /\ (forall loaders,
         trainer_val_dataloaders (the_trainer ctx)
         = Some (LoaderList loaders) ->
         (forall idx loader,
             loaders !! idx = Some loader ->
             val_dataset_names s' !! idx
             = Some (loader_name ("val_" +:+ str_of_nat idx) loader))
         /\ (forall idx,
                length loaders <= idx ->
                val_dataset_names s' !! idx = val_dataset_names s !! idx)
         /\ (val_dataset_names s = ∅ ->
             forall idx,
               is_Some (val_dataset_names s' !! idx)
               <-> idx < length loaders))
  /\ (forall loader,
         trainer_val_dataloaders (the_trainer ctx)
         = Some (SingleLoader loader) ->
         val_dataset_names s'
         = <[0 := loader_name "val" loader]> (val_dataset_names s))
  /\ (trainer_val_dataloaders (the_trainer ctx) = None ->
      val_dataset_names s' = val_dataset_names s)
  /\ (forall steps,
         val_dataset_names (run_steps ctx steps s').2
         = val_dataset_names s').
Proof.
  intros s'. subst s'. simpl.
  split; [done|]. split; [done|]. split; [|split; [|split]].
  - intros loaders Hl. split; [|split].
    + intros idx loader Hidx. rewrite (update_names_list _ _ _ _ Hl).
      by rewrite Hidx.
    + intros idx Hidx. rewrite (update_names_list _ _ _ _ Hl).
      by rewrite (lookup_ge_None_2 loaders idx).
    + intros Hempty idx. rewrite (update_names_list _ _ _ _ Hl), Hempty.
      rewrite lookup_empty. rewrite <- lookup_lt_is_Some.
      destruct (loaders !! idx); split; intros [x Hx]; eauto; discriminate.
  - intros loader Hl. unfold update_dataset_names. by rewrite Hl.
  - intros Hl. unfold update_dataset_names. by rewrite Hl.
  - intros steps. apply run_steps_keeps_names.
Qed.

Lemma epoch_start_names_witness :
  let ctx := demo_ctx (Some (LoaderList [ValLoader (Some [("name", "dsA")]);
                                         ValLoader None])) in
  let s' := (on_validation_epoch_start ctx after_setup).2 in
  val_dataset_names s' !! 0 = Some "dsA"
  /\ val_dataset_names s' !! 1 = Some "val_1".
Proof.
  intros ctx s'.
  destruct (epoch_start_names ctx after_setup) as (_ & _ & Hlist & _).
  destruct (Hlist _ eq_refl) as (Hname & _).
  split; [apply (Hname 0 _ eq_refl) | apply (Hname 1 _ eq_refl)].
Defined.

(** *** Metrics of one step *)

Section Metrics.
Context `{Externals}.

Lemma logging_logging (s : state) (a b : list event) :
  logging (logging s a) b = logging s (a ++ b).
Proof. unfold logging. simpl. by rewrite <- app_assoc. Qed.

Lemma logging_nil (s : state) : logging s [] = s.
Proof. destruct s. unfold logging. simpl. by rewrite app_nil_r. Qed.

Lemma only_logs_ret {A : Type} (a : A) : only_logs (mret a).
Proof. intros s. exists (Ok a), []. by rewrite logging_nil. Qed.

Lemma only_logs_lift {A : Type} (r : result A) : only_logs (lift r).
Proof. intros s. exists r, []. by rewrite logging_nil. Qed.

Lemma only_logs_emit (e : event) : only_logs (emit e).
Proof. intros s. by exists (Ok tt), [e]. Qed.

Lemma only_logs_bind {A B : Type} (c : M A) (k : A -> M B) :
  only_logs c -> (forall a, only_logs (k a)) -> only_logs (x ← c; k x).
Proof.
  intros Hc Hk s. rewrite bind_run. destruct (Hc s) as (r & evs & ->).
  destruct r as [a|e]; [|by eexists _, _].
  destruct (Hk a (logging s evs)) as (r' & evs' & ->).
  rewrite logging_logging. by eexists _, _.
Qed.

Lemma only_logs_save_images (ctx : context)
    (dataset_name img_name : string) (clean_img reflection_img : image) :
  only_logs (save_images ctx dataset_name img_name clean_img
               reflection_img).
Proof.
  unfold save_images.
  apply only_logs_bind; [apply only_logs_lift | intros visualization].
  apply only_logs_bind.
  - destruct (opt_is_train (opt ctx));
      repeat (apply only_logs_bind;
              [first [apply only_logs_lift | apply only_logs_emit]
              | intros ?]); apply only_logs_ret.
  - intros [p1 p2].
    repeat (apply only_logs_bind;
            [first [apply only_logs_lift | apply only_logs_emit]
            | intros ?]); apply only_logs_emit.
Qed.

(** A failure while the images are written ends in a warning. *)
Lemma save_block_returns (ctx : context) (dataset_name img_name : string)
    (clean_img reflection_img : image) (s : state) :
  exists evs,
    try_except
      (save_images ctx dataset_name img_name clean_img reflection_img)
      (fun e => emit (Warn ("Error saving validation images: "
                            +:+ exn_str e))) s
    = (Ok tt, logging s evs).
Proof.
  unfold try_except.
  destruct (only_logs_save_images ctx dataset_name img_name clean_img
              reflection_img s) as (r & evs & ->).
  destruct r as [[]|e]; [by eexists|].
  unfold emit. simpl. eexists (evs ++ [_]).
  unfold logging. simpl. by rewrite <- app_assoc.
Qed.

Lemma record_metric_run (dataset_name : string)
    (clean_img target_t_img : image) (item : string * dict pyval)
    (s : state) :
  record_metric dataset_name clean_img target_t_img item s
  = (Ok tt,
     State (val_dataset_names s)
       (record_pure dataset_name clean_img target_t_img
          (current_val_metrics s) item)
       (output s)
       (trace s ++ option_list (metric_warning clean_img target_t_img item))).
Proof.
  destruct item as [name opt_]. destruct s as [names store out tr].
  unfold record_metric, try_except, record_pure, metric_warning.
  rewrite bind_run. unfold lift. simpl.
  destruct (calculate_metric clean_img target_t_img opt_) as [v|e]; simpl.
  - unfold modify_metrics. simpl. by rewrite app_nil_r.
  - reflexivity.
Qed.

Lemma record_metrics_run (dataset_name : string)
    (clean_img target_t_img : image) (metrics : dict (dict pyval)) :
  forall s,
    for_each metrics (record_metric dataset_name clean_img target_t_img) s
    = (Ok tt,
       State (val_dataset_names s)
         (foldl (record_pure dataset_name clean_img target_t_img)
            (current_val_metrics s) metrics)
         (output s)
         (trace s ++ omap (metric_warning clean_img target_t_img) metrics)).
Proof.
  induction metrics as [|item metrics IH]; intros s; simpl.
  - destruct s. simpl. by rewrite app_nil_r.
  - rewrite bind_run, record_metric_run, IH. simpl.
    rewrite <- app_assoc. do 3 f_equal.
    by destruct (metric_warning clean_img target_t_img item).
Qed.

Lemma values_at_append (dataset_name name : string) (v : Q)
    (store : metrics_store) (dataset_name' name' : string) :
  values_at dataset_name' name'
    (append_metric dataset_name name v store)
  = values_at dataset_name' name' store
    ++ (if String.eqb dataset_name dataset_name' && String.eqb name name'
        then [v] else []).
Proof.
  unfold append_metric.
  set (store1 := if negb (mem dataset_name store)
                 then set dataset_name [] store else store).
  assert (Hget1 : get dataset_name store1
                  = Some (default [] (get dataset_name store))).
  { subst store1. unfold mem.
    destruct (get dataset_name store) eqn:Hg; simpl; [done|].
    apply get_set_eq. }
  assert (Hother1 : forall d, dataset_name <> d ->
                              get d store1 = get d store).
  { intros d Hd. subst store1.
    destruct (negb (mem dataset_name store)); [|done].
    by apply get_set_ne. }
  rewrite Hget1. simpl.
  set (metrics := default [] (get dataset_name store)).
  set (metrics1 := if negb (mem name metrics)
                   then set name [] metrics else metrics).
  assert (Hget2 : default [] (get name metrics1)
                  = default [] (get name metrics)).
  { subst metrics1. unfold mem.
    destruct (get name metrics) eqn:Hg; simpl; [by rewrite Hg|].
    by rewrite get_set_eq. }
  assert (Hother2 : forall n, name <> n ->
                              get n metrics1 = get n metrics).
  { intros n Hn. subst metrics1.
    destruct (negb (mem name metrics)); [|done].
    by apply get_set_ne. }
  assert (Hvals : forall n, values_at dataset_name n store
                            = default [] (get n metrics)).
  { intros n. unfold values_at. subst metrics.
    by destruct (get dataset_name store). }
  unfold values_at at 1.
  destruct (String.eqb_spec dataset_name dataset_name') as [<-|Hd]; simpl.
  - rewrite get_set_eq.
    destruct (String.eqb_spec name name') as [<-|Hn].
    + by rewrite get_set_eq, Hget2, Hvals.
    + rewrite get_set_ne, Hother2, Hvals by done. by rewrite app_nil_r.
  - rewrite get_set_ne, Hother1 by done. by rewrite app_nil_r.
Qed.

Lemma values_at_recorded (dataset_name : string)
    (clean_img target_t_img : image) (metrics : dict (dict pyval))
    (dataset_name' name' : string) :
  forall store,
    values_at dataset_name' name'
      (foldl (record_pure dataset_name clean_img target_t_img) store
         metrics)
    = values_at dataset_name' name' store
      ++ (if String.eqb dataset_name dataset_name'
          then computed_values clean_img target_t_img name' metrics
          else []).
Proof.
  induction metrics as [|[name opt_] metrics IH]; intros store; simpl.
  - destruct (String.eqb _ _); by rewrite app_nil_r.
  - rewrite IH. unfold record_pure. simpl.
    destruct (calculate_metric clean_img target_t_img opt_) as [v|e].
    + rewrite values_at_append, <- app_assoc. f_equal.
      destruct (String.eqb dataset_name dataset_name'); simpl; [|done].
      by destruct (String.eqb name name').
    + f_equal. destruct (String.eqb dataset_name dataset_name'); [|done].
      by destruct (String.eqb name name').
Qed.

End Metrics.

Section Step.
Context `{Externals}.

Lemma sample_name_returns (batch : dict batch_val) (batch_idx : nat)
    (s : state) :
  (forall t, get "inp_path" batch <> Some (BTensor t)) ->
  exists img_name evs,
    sample_name batch batch_idx s = (Ok img_name, logging s evs).
Proof.
  intros Hpath. unfold sample_name.
  destruct (get "inp_path" batch) as [[t|[|p l]]|].
  - by destruct (Hpath t).
  - by eexists _, [_].
  - eexists _, []. by rewrite logging_nil.
  - by eexists _, [_].
Qed.

(** The step on a well-formed batch: what it returns and the state it
    leaves *)
Lemma validation_step_run (ctx : context) (batch : dict batch_val)
    (batch_idx dataloader_idx : nat) (s : state) (dataset_name : string)
    (inp target_t : tensor) :
  val_dataset_names s !! dataloader_idx = Some dataset_name ->
  get "input" batch = Some (BTensor inp) ->
  get "target_t" batch = Some (BTensor target_t) ->
  (forall t, get "inp_path" batch <> Some (BTensor t)) ->
  let out := (if use_ema ctx then ema_model else net_g) inp in
  let clean_img := tensor2img out.1 in
  let target_t_img := tensor2img target_t in
  let metrics := default [] (opt_metrics (opt ctx)) in
  exists img_name evs,
    validation_step ctx batch batch_idx dataloader_idx s
    = (Ok [("output_clean", VTensor out.1);
           ("output_reflection", VTensor out.2);
           ("img_name", VStr img_name);
           ("dataset_name", VStr dataset_name)],
       State (val_dataset_names s)
         (foldl (record_pure dataset_name clean_img target_t_img)
            (current_val_metrics s) metrics)
         (Some out)
         (trace s ++ evs
          ++ omap (metric_warning clean_img target_t_img) metrics)).
Proof.
  intros Hname Hinp Htgt Hpath out clean_img target_t_img metrics.
  unfold validation_step. rewrite bind_run.
  unfold lookup_dataset_name. rewrite Hname. simpl.
  unfold mem. rewrite Hinp. simpl.
  rewrite bind_run. unfold lift at 1, getitem. rewrite Hinp. simpl.
  rewrite bind_run. unfold testing, set_output. simpl.
  rewrite bind_run. unfold get_output. simpl.
  fold out. destruct out as [output_clean output_reflection] eqn:Hout.
  rewrite bind_run.
  match goal with
  | |- context [sample_name batch batch_idx ?s1] =>
      destruct (sample_name_returns batch batch_idx s1 Hpath)
        as (img_name & evs1 & ->)
  end.
  rewrite bind_run. unfold lift at 1, getitem. rewrite Htgt. simpl.
  rewrite bind_run.
  match goal with
  | |- context [(if ?c then try_except ?b ?h else mret tt) ?s1] =>
      assert (Hsave : exists evs2,
                 (if c then try_except b h else mret tt) s1
                 = (Ok tt, logging s1 evs2))
  end.
  { destruct (_ && _).
    - apply save_block_returns.
    - exists []. by rewrite logging_nil. }
  destruct Hsave as (evs2 & ->).
  rewrite bind_run.
  exists img_name, (evs1 ++ evs2).
  subst metrics clean_img target_t_img. unfold logging. simpl.
  destruct (opt_metrics (opt ctx)) as [metrics|]; simpl.
  - rewrite record_metrics_run. simpl. by rewrite <- !app_assoc.
  - unfold mret, M_ret. by rewrite <- !app_assoc, app_nil_r.
Qed.

End Step.

(** C6.  In one validation step every configured metric is computed from
    the clean image and the target image.  A metric whose function raises
    is skipped with a warning; the step still returns, and each value that
    was computed is appended to the accumulator under the dataset name and
    the metric name, in the configured order and whatever the other
    metrics did. *)
Theorem validation_step_records_metrics `{Externals} (ctx : context)
    (batch : dict batch_val) (batch_idx dataloader_idx : nat) (s : state)
    (dataset_name : string) (inp target_t : tensor)
    (metrics : dict (dict pyval)) :
  val_dataset_names s !! dataloader_idx = Some dataset_name ->
  get "input" batch = Some (BTensor inp) ->
  get "target_t" batch = Some (BTensor target_t) ->
  (forall t, get "inp_path" batch <> Some (BTensor t)) ->
  opt_metrics (opt ctx) = Some metrics ->
  let clean_img :=
    tensor2img ((if use_ema ctx then ema_model else net_g) inp).1 in
  let target_t_img := tensor2img target_t in
  exists out s',
    validation_step ctx batch batch_idx dataloader_idx s = (Ok out, s')
    /\ (forall name,
           values_at dataset_name name (current_val_metrics s')
           = values_at dataset_name name (current_val_metrics s)
             ++ computed_values clean_img target_t_img name metrics)
    /\ (forall name opt_ v,
           (name, opt_) ∈ metrics ->
           calculate_metric clean_img target_t_img opt_ = Ok v ->
           v ∈ values_at dataset_name name (current_val_metrics s'))
    /\ (forall name opt_ e,
           (name, opt_) ∈ metrics ->
           calculate_metric clean_img target_t_img opt_ = Raise e ->
           Warn ("Error calculating metric '" +:+ name +:+ "': "
                 +:+ exn_str e) ∈ trace s')
    /\ (forall other name,
           other <> dataset_name ->
           values_at other name (current_val_metrics s')
           = values_at other name (current_val_metrics s)).
Proof.
  intros Hname Hinp Htgt Hpath Hmetrics clean_img target_t_img.
  destruct (validation_step_run ctx batch batch_idx dataloader_idx s
              dataset_name inp target_t Hname Hinp Htgt Hpath)
    as (img_name & evs & Hstep).
  rewrite Hmetrics in Hstep. simpl in Hstep.
  eexists _, _. split; [exact Hstep|]. simpl.
  fold clean_img target_t_img.
  assert (Hvals : forall name,
             values_at dataset_name name
               (foldl (record_pure dataset_name clean_img target_t_img)
                  (current_val_metrics s) metrics)
             = values_at dataset_name name (current_val_metrics s)
               ++ computed_values clean_img target_t_img name metrics).
  { intros name. rewrite values_at_recorded. by rewrite String.eqb_refl. }
  split; [exact Hvals|]. split; [|split].
  - intros name opt_ v Hin Hcalc. rewrite Hvals.
    apply elem_of_app. right. unfold computed_values.
    apply list_elem_of_omap. exists (name, opt_). split; [done|]. simpl.
    by rewrite String.eqb_refl, Hcalc.
  - intros name opt_ e Hin Hcalc.
    apply elem_of_app. right. apply elem_of_app. right.
    apply list_elem_of_omap. exists (name, opt_). split; [done|].
    unfold metric_warning. simpl. by rewrite Hcalc.
  - intros other name Hother. rewrite values_at_recorded.
    destruct (String.eqb_spec dataset_name other); [congruence|].
    by rewrite app_nil_r.
Qed.

Lemma validation_step_records_metrics_witness :
  let s := State {[0 := "dsA"]} [("dsA", [("psnr", [28%Q])])] None [] in
  let batch := [("input", BTensor (Tensor 1));
                ("target_t", BTensor (Tensor 2));
                ("inp_path", BList ["img1"])] in
  exists out s',
    validation_step (demo_ctx None) batch 0 0 s = (Ok out, s')
    /\ values_at "dsA" "psnr" (current_val_metrics s') = [28%Q; 30%Q]
    /\ values_at "dsA" "lpips" (current_val_metrics s') = []
    /\ values_at "dsA" "ssim" (current_val_metrics s') = [(9 # 10)%Q]
    /\ Warn "Error calculating metric 'lpips': unknown metric" ∈ trace s'.
Proof.
  intros s batch.
  destruct (validation_step_records_metrics (demo_ctx None) batch 0 0 s
              "dsA" (Tensor 1) (Tensor 2) _ eq_refl eq_refl eq_refl
              ltac:(discriminate) eq_refl)
    as (out & s' & Hstep & Hvals & _ & Hwarn & _).
  exists out, s'. split; [exact Hstep|].
  rewrite !Hvals. repeat split.
  apply (Hwarn "lpips" [("type", PStr "lpips")]
           (ValueError "unknown metric")); [|reflexivity].
  apply list_elem_of_further, list_elem_of_here.
Defined.

(** *** Averages at the end of the epoch *)

Lemma vals_of_app (m : string) (a b : dict (list Q)) :
  vals_of m (a ++ b) = vals_of m a ++ vals_of m b.
Proof. unfold vals_of. apply flat_map_app. Qed.

Lemma vals_of_absent (m : string) (seen : dict (list Q)) :
  m ∉ keys seen -> vals_of m seen = [].
Proof.
  unfold keys, vals_of. induction seen as [|[k vs] seen IH]; simpl; [done|].
  rewrite not_elem_of_cons. intros [Hne Hk].
  destruct (String.eqb_spec k m); [congruence|]. by apply IH.
Qed.

Lemma vals_of_present (m : string) (seen : dict (list Q)) :
  Forall (fun mv : string * list Q => mv.2 <> []) seen ->
  m ∈ keys seen -> vals_of m seen <> [].
Proof.
  unfold keys, vals_of. induction seen as [|[k vs] seen IH]; simpl.
  - intros _ Hin. by apply elem_of_nil in Hin.
  - intros Hne Hin. apply Forall_cons in Hne as [Hvs Hne]. simpl in Hvs.
    destruct (String.eqb_spec k m) as [->|Hk].
    + intros Happ. apply app_eq_nil in Happ as [? _]. done.
    + apply elem_of_cons in Hin as [?|Hin]; [congruence|]. by apply IH.
Qed.

Lemma exact_sum_app (a b : list Q) :
  (exact_sum (a ++ b) == exact_sum a + exact_sum b)%Q.
Proof.
  unfold exact_sum. induction a as [|x a IH]; simpl.
  - ring.
  - rewrite IH. ring.
Qed.

Section EpochEnd.
Context `{Externals}.

Lemma sums_of_app (m : string) (a b : dict (list Q)) :
  sums_of m (a ++ b) = sums_of m a ++ sums_of m b.
Proof. unfold sums_of. apply flat_map_app. Qed.

Lemma sums_of_absent (m : string) (seen : dict (list Q)) :
  m ∉ keys seen -> sums_of m seen = [].
Proof.
  unfold keys, sums_of. induction seen as [|[k vs] seen IH]; simpl; [done|].
  rewrite not_elem_of_cons. intros [Hne Hk].
  destruct (String.eqb_spec k m); [congruence|]. by apply IH.
Qed.

Lemma sums_of_present (m : string) (seen : dict (list Q)) :
  m ∈ keys seen -> sums_of m seen <> [].
Proof.
  unfold keys, sums_of. induction seen as [|[k vs] seen IH]; simpl.
  - intros Hin. by apply elem_of_nil in Hin.
  - intros Hin. destruct (String.eqb_spec k m) as [->|Hk]; [done|].
    apply elem_of_cons in Hin as [?|Hin]; [congruence|]. by apply IH.
Qed.

(** One more sum makes one more addition. *)
Lemma running_total_snoc (m : string) (seen : dict (list Q))
    (values : list Q) :
  m ∈ keys seen ->
  running_total m (seen ++ [(m, values)])
  = num_add (running_total m seen) (builtin_sum values).
Proof.
  intros Hin. unfold running_total. rewrite sums_of_app.
  assert (Hone : sums_of m [(m, values)] = [builtin_sum values]).
  { unfold sums_of. cbn [flat_map fst snd]. by rewrite String.eqb_refl. }
  rewrite Hone.
  pose proof (sums_of_present m seen Hin) as Hne.
  destruct (sums_of m seen) as [|first rest]; [done|].
  rewrite <- app_comm_cons. by rewrite foldl_app.
Qed.

Lemma running_total_first (m : string) (seen : dict (list Q))
    (values : list Q) :
  m ∉ keys seen ->
  running_total m (seen ++ [(m, values)]) = builtin_sum values.
Proof.
  intros Hout. unfold running_total.
  rewrite sums_of_app, (sums_of_absent m seen Hout).
  assert (Hone : sums_of m [(m, values)] = [builtin_sum values]).
  { unfold sums_of. cbn [flat_map fst snd]. by rewrite String.eqb_refl. }
  by rewrite Hone.
Qed.

Lemma running_total_other (m m0 : string) (seen : dict (list Q))
    (values : list Q) :
  m0 <> m ->
  running_total m (seen ++ [(m0, values)]) = running_total m seen.
Proof.
  intros Hne. unfold running_total. rewrite sums_of_app.
  assert (Hone : sums_of m [(m0, values)] = []).
  { unfold sums_of. cbn [flat_map fst snd].
    by destruct (String.eqb_spec m0 m). }
  by rewrite Hone, app_nil_r.
Qed.

Lemma totals_inv_nil : totals_inv [] [].
Proof. intros m. simpl. apply not_elem_of_nil. Qed.

Lemma totals_inv_step (totals : dict total) (seen : dict (list Q))
    (mv : string * list Q) :
  totals_inv totals seen ->
  totals_inv (add_total totals mv) (seen ++ [mv]).
Proof.
  intros Hinv m. destruct mv as [m0 vs0]. unfold add_total. cbn [fst snd].
  assert (Hkeys : keys (seen ++ [(m0, vs0)]) = keys seen ++ [m0]).
  { unfold keys. by rewrite map_app. }
  rewrite Hkeys, vals_of_app.
  assert (Hone : vals_of m [(m0, vs0)]
                 = if String.eqb m0 m then vs0 else []).
  { unfold vals_of. cbn [flat_map fst snd]. by rewrite app_nil_r. }
  rewrite Hone.
  destruct (String.eqb_spec m0 m) as [->|Hne].
  - specialize (Hinv m).
    destruct (get m totals) as [t|]; rewrite get_set_eq; cbn [val counts].
    + destruct Hinv as (Hval & Hcnt & Hin).
      rewrite (running_total_snoc m seen vs0 Hin), length_app, Hval, Hcnt.
      split; [reflexivity|]. split; [done|]. apply elem_of_app. by left.
    + rewrite (running_total_first m seen vs0 Hinv).
      rewrite (vals_of_absent _ _ Hinv). cbn [app].
      split; [reflexivity|]. split; [done|].
      apply elem_of_app. right. apply list_elem_of_here.
  - specialize (Hinv m). rewrite app_nil_r.
    rewrite (running_total_other m m0 seen vs0 Hne).
    assert (Hget : forall t, get m (set m0 t totals) = get m totals).
    { intros t. by apply get_set_ne. }
    destruct (get m0 totals); rewrite Hget;
      (destruct (get m totals) as [t'|];
       [destruct Hinv as (Hval & Hcnt & Hin);
        split; [done|]; split; [done|]; apply elem_of_app; by left
       | rewrite not_elem_of_app, not_elem_of_cons;
         split; [done|]; split; [congruence | apply not_elem_of_nil]]).
Qed.

Lemma totals_inv_foldl (mvs : dict (list Q)) :
  forall totals seen,
    totals_inv totals seen ->
    totals_inv (foldl add_total totals mvs) (seen ++ mvs).
Proof.
  induction mvs as [|mv mvs IH]; intros totals seen Hinv; simpl.
  - by rewrite app_nil_r.
  - replace (seen ++ mv :: mvs) with ((seen ++ [mv]) ++ mvs)
      by (by rewrite <- app_assoc).
    apply IH. by apply totals_inv_step.
Qed.

Lemma wf_add_totals (mvs : dict (list Q)) :
  forall totals, wf totals -> wf (foldl add_total totals mvs).
Proof.
  induction mvs as [|mv mvs IH]; intros totals Hwf; simpl; [done|].
  apply IH. unfold add_total. destruct (get mv.1 totals); by apply wf_set.
Qed.

Lemma divide_totals_ok (totals : dict total) :
  Forall (fun kt : string * total => counts kt.2 <> 0) totals ->
  divide_totals totals = Ok (map average_of totals).
Proof.
  induction totals as [|[k t] totals IH]; simpl; [done|].
  intros Hall. apply Forall_cons in Hall as [Hc Hall]. simpl in Hc.
  unfold py_div. destruct (counts t) eqn:Hcnt; [done|]. simpl.
  rewrite (IH Hall). simpl. unfold average_of. simpl. by rewrite Hcnt.
Qed.

(** *** Where nothing rounds *)

Lemma exact_adds_total (rest : list Q) :
  forall first,
    exact_adds first rest ->
    (foldl num_add first rest == first + exact_sum rest)%Q.
Proof.
  induction rest as [|x rest IH]; intros first Hexact; cbn [foldl].
  - unfold exact_sum. simpl. ring.
  - destruct Hexact as [Hadd Hrest]. rewrite (IH _ Hrest), Hadd.
    unfold exact_sum. simpl. ring.
Qed.

Lemma sums_exact (m : string) (seen : dict (list Q)) :
  Forall (fun mv : string * list Q =>
            (builtin_sum mv.2 == exact_sum mv.2)%Q) seen ->
  (exact_sum (sums_of m seen) == exact_sum (vals_of m seen))%Q.
Proof.
  unfold sums_of, vals_of.
  induction seen as [|[k vs] seen IH]; intros Hall; cbn [flat_map fst snd].
  - reflexivity.
  - apply Forall_cons in Hall as [Hvs Hall]. cbn [snd] in Hvs.
    rewrite !exact_sum_app, (IH Hall).
    destruct (String.eqb k m).
    + unfold exact_sum at 1. cbn [foldr]. rewrite Hvs. ring.
    + reflexivity.
Qed.

Lemma running_total_exact (m : string) (seen : dict (list Q)) :
  Forall (fun mv : string * list Q =>
            (builtin_sum mv.2 == exact_sum mv.2)%Q) seen ->
  match sums_of m seen with
  | [] => True
  | first :: rest => exact_adds first rest
  end ->
  (running_total m seen == exact_sum (vals_of m seen))%Q.
Proof.
  intros Hall Hadds. rewrite <- (sums_exact m seen Hall).
  unfold running_total. destruct (sums_of m seen) as [|first rest].
  - reflexivity.
  - rewrite (exact_adds_total rest first Hadds). unfold exact_sum. simpl.
    reflexivity.
Qed.

Lemma scalars_app (a b : list event) :
  scalars (a ++ b) = scalars a ++ scalars b.
Proof. apply omap_app. Qed.

Lemma logged_app (a b : list event) :
  logged (a ++ b) = logged a ++ logged b.
Proof. apply omap_app. Qed.

Lemma report_metric_run (ctx : context) (dataset_name : string)
    (log_str : string) (totals : dict total) (mv : string * list Q)
    (s : state) :
  mv.2 <> [] ->
  exists log_str',
    report_metric ctx dataset_name (log_str, totals) mv s
    = (Ok (log_str', add_total totals mv),
       logging s
         [AddScalar ("metrics/" +:+ dataset_name +:+ "/" +:+ mv.1)
            (mean mv.2) (current_epoch ctx)]).
Proof.
  destruct mv as [m vs]. simpl. intros Hvs.
  unfold report_metric. rewrite bind_run. unfold lift, py_div.
  destruct (length vs) eqn:Hlen.
  { destruct vs; [done | discriminate]. }
  rewrite <- Hlen. rewrite bind_run. unfold emit.
  eexists. reflexivity.
Qed.

Lemma report_metrics_run (ctx : context) (dataset_name : string)
    (mvs : dict (list Q)) :
  forall (log_str : string) (totals : dict total) (s : state),
    Forall (fun mv : string * list Q => mv.2 <> []) mvs ->
    exists log_str',
      for_fold mvs (log_str, totals) (report_metric ctx dataset_name) s
      = (Ok (log_str', foldl add_total totals mvs),
         logging s
           (map (fun mv : string * list Q =>
                   AddScalar
                     ("metrics/" +:+ dataset_name +:+ "/" +:+ mv.1)
                     (mean mv.2) (current_epoch ctx)) mvs)).
Proof.
  induction mvs as [|mv mvs IH]; intros log_str totals s Hne;
    cbn [for_fold foldl map].
  - exists log_str. by rewrite logging_nil.
  - apply Forall_cons in Hne as [Hvs Hne].
    rewrite bind_run.
    destruct (report_metric_run ctx dataset_name log_str totals mv s Hvs)
      as (log_str1 & ->).
    destruct (IH log_str1 (add_total totals mv) (logging s [AddScalar
                ("metrics/" +:+ dataset_name +:+ "/" +:+ mv.1)
                (mean mv.2) (current_epoch ctx)]) Hne)
      as (log_str' & ->).
    exists log_str'. by rewrite logging_logging.
Qed.

Lemma report_dataset_run (ctx : context) (totals : dict total)
    (item : string * dict (list Q)) (s : state) :
  Forall (fun mv : string * list Q => mv.2 <> []) item.2 ->
  exists log_str,
    report_dataset ctx totals item s
    = (Ok (foldl add_total totals item.2),
       logging s
         (map (fun mv : string * list Q =>
                 AddScalar ("metrics/" +:+ item.1 +:+ "/" +:+ mv.1)
                   (mean mv.2) (current_epoch ctx)) item.2
          ++ [Info log_str])).
Proof.
  destruct item as [dataset_name mvs]. simpl. intros Hne.
  unfold report_dataset. rewrite bind_run.
  match goal with
  | |- context [for_fold mvs (?l, ?t) _ ?s1] =>
      destruct (report_metrics_run ctx dataset_name mvs l t s1 Hne)
        as (log_str' & ->)
  end.
  rewrite bind_run. unfold emit. exists log_str'.
  unfold mret, M_ret, logging. simpl. by rewrite <- app_assoc.
Qed.

Lemma report_datasets_run (ctx : context) (store : metrics_store) :
  forall (totals : dict total) (s : state),
    store_ok store ->
    exists evs,
      for_fold store totals (report_dataset ctx) s
      = (Ok (foldl add_total totals (entries store)), logging s evs)
      /\ scalars evs = dataset_means store
      /\ logged evs = [].
Proof.
  unfold store_ok, entries.
  induction store as [|item store IH]; intros totals s Hok;
    cbn [for_fold flat_map].
  - exists []. by rewrite logging_nil.
  - apply Forall_app in Hok as [Hmvs Hok].
    rewrite bind_run.
    destruct (report_dataset_run ctx totals item s Hmvs) as (log_str & ->).
    match goal with
    | |- context [for_fold store ?t _ ?s1] =>
        destruct (IH t s1 Hok) as (evs & -> & Hsc & Hlg)
    end.
    rewrite foldl_app, logging_logging.
    eexists. split; [reflexivity|]. split.
    + rewrite !scalars_app, Hsc. unfold dataset_means at 2. simpl.
      rewrite app_nil_r. f_equal.
      generalize (item.2). intros mvs.
      induction mvs as [|mv mvs IHm]; simpl; [done|]. by rewrite <- IHm.
    + rewrite !logged_app, Hlg. simpl. rewrite !app_nil_r.
      generalize (item.2). intros mvs. by induction mvs as [|mv mvs IHm].
Qed.

Lemma report_averages_run (ctx : context) (averages : dict Q) :
  forall s,
    for_each averages
      (fun item =>
         emit (AddScalar ("metrics/average/" +:+ item.1) item.2
                 (current_epoch ctx))) s
    = (Ok tt,
       logging s
         (map (fun item : string * Q =>
                 AddScalar ("metrics/average/" +:+ item.1) item.2
                   (current_epoch ctx)) averages)).
Proof.
  induction averages as [|item averages IH]; intros s;
    cbn [for_each map].
  - by rewrite logging_nil.
  - rewrite bind_run. unfold emit at 1. rewrite IH.
    unfold logging. simpl. by rewrite <- app_assoc.
Qed.

Lemma log_averages_run (ctx : context) (averages : dict Q) :
  forall (log_str : string) (s : state),
    exists log_str',
      for_fold averages log_str
        (fun log_str item =>
           _ ← emit (LogMetric ("metrics/average/" +:+ item.1) item.2);
           mret (log_str +:+ tab +:+ " # " +:+ item.1 +:+ ": "
                 +:+ format_4f item.2 +:+ newline)) s
      = (Ok log_str',
         logging s
           (map (fun item : string * Q =>
                   LogMetric ("metrics/average/" +:+ item.1) item.2)
              averages)).
Proof.
  induction averages as [|item averages IH]; intros log_str s;
    cbn [for_fold map].
  - exists log_str. by rewrite logging_nil.
  - rewrite bind_run. rewrite bind_run. unfold emit at 1.
    unfold mret at 1, M_ret at 1.
    match goal with
    | |- context [for_fold averages ?l _ ?s1] =>
        destruct (IH l s1) as (log_str' & ->)
    end.
    exists log_str'. unfold logging. simpl. by rewrite <- app_assoc.
Qed.

End EpochEnd.

Lemma totals_counts `{Externals} (store : metrics_store) :
  store_ok store ->
  let totals := foldl add_total [] (entries store) in
  wf totals
  /\ totals_inv totals (entries store)
  /\ Forall (fun kt : string * total => counts kt.2 <> 0) totals.
Proof.
  intros Hok totals.
  assert (Hwf : wf totals).
  { apply wf_add_totals. unfold wf. simpl. apply NoDup_nil_2. }
  assert (Hinv : totals_inv totals (entries store)).
  { apply (totals_inv_foldl (entries store) [] []), totals_inv_nil. }
  split; [done|]. split; [done|].
  apply Forall_forall. intros [k t] Hin. simpl.
  pose proof (get_in_wf k t totals Hwf Hin) as Hget.
  specialize (Hinv k). rewrite Hget in Hinv.
  destruct Hinv as (_ & Hcnt & Hk). rewrite Hcnt.
  pose proof (vals_of_present k (entries store) Hok Hk) as Hne.
  destruct (vals_of k (entries store)); [done | simpl; lia].
Qed.

Lemma average_of_total `{Externals} (m : string) (t : total)
    (store : metrics_store) :
  val t = running_total m (entries store) ->
  counts t = length (all_values m store) ->
  (average_of (m, t)).2 = global_mean m store.
Proof.
  intros Hval Hcnt. unfold average_of, global_mean. simpl.
  by rewrite Hval, Hcnt.
Qed.

Lemma scalars_of_averages (averages : dict Q) (epoch : Z) :
  scalars (map (fun item : string * Q =>
                  AddScalar ("metrics/average/" +:+ item.1) item.2 epoch)
             averages)
  = map average_tag averages
  /\ logged (map (fun item : string * Q =>
                    AddScalar ("metrics/average/" +:+ item.1) item.2 epoch)
               averages) = [].
Proof.
  induction averages as [|item averages [IH1 IH2]]; simpl; [done|].
  unfold scalars, logged in *. simpl. by rewrite IH1, IH2.
Qed.

Lemma logged_of_averages (averages : dict Q) :
  logged (map (fun item : string * Q =>
                 LogMetric ("metrics/average/" +:+ item.1) item.2) averages)
  = map average_tag averages
  /\ scalars (map (fun item : string * Q =>
                     LogMetric ("metrics/average/" +:+ item.1) item.2)
                averages) = [].
Proof.
  induction averages as [|item averages [IH1 IH2]]; simpl; [done|].
  unfold scalars, logged in *. simpl. by rewrite IH1, IH2.
Qed.

(** The end hook on a store without empty lists: it returns, and reports
    the dataset means followed by the quotients of the totals. *)
Lemma epoch_end_run `{Externals} (ctx : context) (s : state) :
  store_ok (current_val_metrics s) ->
  let totals := foldl add_total [] (entries (current_val_metrics s)) in
  exists evs,
    on_validation_epoch_end ctx s = (Ok tt, logging s evs)
    /\ scalars evs
       = dataset_means (current_val_metrics s)
         ++ map average_tag (map average_of totals)
    /\ logged evs = map average_tag (map average_of totals).
Proof.
  intros Hok totals.
  destruct (totals_counts _ Hok) as (_ & _ & Hcnt). fold totals in Hcnt.
  unfold on_validation_epoch_end. subst totals.
  remember (current_val_metrics s) as st eqn:Hst.
  set (totals := foldl add_total [] (entries st)) in *.
  destruct st as [|item store].
  { exists []. by rewrite logging_nil. }
  destruct (report_datasets_run ctx (item :: store) [] s Hok)
    as (evs1 & Hrun1 & Hsc & Hlg).
  fold totals in Hrun1.
  set (averages := map average_of totals).
  set (evs2 := map (fun item : string * Q =>
                      AddScalar ("metrics/average/" +:+ item.1) item.2
                        (current_epoch ctx)) averages).
  destruct (log_averages_run ctx averages
              ("Validation Epoch " +:+ str_of_Z (current_epoch ctx)
               +:+ " Average Metrics:" +:+ newline)
              (logging (logging s evs1) evs2)) as (log_str' & Hrun3).
  exists (evs1 ++ evs2 ++ map (fun item : string * Q =>
                                 LogMetric ("metrics/average/" +:+ item.1)
                                   item.2) averages ++ [Info log_str']).
  split.
  - rewrite bind_run, Hrun1. rewrite bind_run. unfold lift at 1.
    rewrite (divide_totals_ok totals Hcnt).
    rewrite bind_run, report_averages_run.
    fold averages. fold evs2. rewrite bind_run, Hrun3.
    unfold emit, logging. simpl. by rewrite <- !app_assoc.
  - destruct (scalars_of_averages averages (current_epoch ctx))
      as [Hs1 Hl1].
    destruct (logged_of_averages averages) as [Hl2 Hs2].
    subst evs2.
    rewrite !scalars_app, !logged_app, Hsc, Hlg, Hs1, Hl1, Hs2, Hl2.
    simpl. by rewrite !app_nil_r.
Qed.

(** *** The accumulator never holds an empty list *)

Lemma set_set {V : Type} (k : string) (x y : V) (d : dict V) :
  set k x (set k y d) = set k x d.
Proof.
  induction d as [|[k' v'] d IH]; simpl.
  - by rewrite String.eqb_refl.
  - destruct (String.eqb_spec k' k) as [->|Hne]; simpl.
    + by rewrite String.eqb_refl.
    + destruct (String.eqb_spec k' k); [done | by rewrite IH].
Qed.

Lemma Forall_set {V : Type} (R : V -> Prop) (k : string) (v : V)
    (d : dict V) :
  Forall (fun kv : string * V => R kv.2) d -> R v ->
  Forall (fun kv : string * V => R kv.2) (set k v d).
Proof.
  intros Hd Hv. induction d as [|[k' v'] d IH]; simpl.
  - by constructor.
  - apply Forall_cons in Hd as [Hv' Hd].
    destruct (String.eqb k' k); constructor; auto.
Qed.

Lemma Forall_get {V : Type} (R : V -> Prop) (k : string) (v : V)
    (d : dict V) :
  Forall (fun kv : string * V => R kv.2) d -> get k d = Some v -> R v.
Proof.
  intros Hd Hg. apply get_Some_in in Hg.
  by apply (proj1 (Forall_forall _ _) Hd (k, v)).
Qed.

Lemma store_ok_alt (store : metrics_store) :
  store_ok store
  <-> Forall (fun item : string * dict (list Q) =>
                Forall (fun mv : string * list Q => mv.2 <> []) item.2)
        store.
Proof.
  unfold store_ok, entries. induction store as [|item store IH]; simpl.
  - split; constructor.
  - rewrite Forall_app, Forall_cons, IH. done.
Qed.

Lemma store_ok_append (dataset_name name : string) (v : Q)
    (store : metrics_store) :
  store_ok store -> store_ok (append_metric dataset_name name v store).
Proof.
  rewrite !store_ok_alt. intros Hok. unfold append_metric.
  set (R := fun ms : dict (list Q) =>
              Forall (fun mv : string * list Q => mv.2 <> []) ms) in *.
  set (store1 := if negb (mem dataset_name store)
                 then set dataset_name [] store else store).
  assert (Hok1 : Forall (fun item : string * dict (list Q) => R item.2)
                   store1).
  { subst store1. destruct (negb (mem dataset_name store)); [|done].
    apply (Forall_set R); [done | constructor]. }
  set (metrics := default [] (get dataset_name store1)).
  assert (Hm : R metrics).
  { subst metrics. destruct (get dataset_name store1) eqn:Hg; simpl.
    - by apply (Forall_get R dataset_name _ store1).
    - constructor. }
  apply (Forall_set R); [done|].
  destruct (negb (mem name metrics)).
  - rewrite set_set.
    apply (Forall_set (fun vs : list Q => vs <> [])); [done|].
    by destruct (default [] (get name (set name [] metrics))).
  - apply (Forall_set (fun vs : list Q => vs <> [])); [done|].
    by destruct (default [] (get name metrics)).
Qed.

(** From the start hook through any steps of the epoch, every list of
    the accumulator has a value: the end hook divides by no zero. *)
Lemma epoch_store_ok `{Externals} (ctx : context)
    (steps : list (dict batch_val * nat * nat)) (s : state) :
  store_ok
    (current_val_metrics
       (run_steps ctx steps (on_validation_epoch_start ctx s).2).2).
Proof.
  apply (keeps_run_steps (fun _ store => store_ok store)).
  - intros names store dataset_name name v. apply store_ok_append.
  - simpl. unfold store_ok. constructor.
Qed.

(** The end hook on an accumulator without empty lists *)
Lemma epoch_end_means `{Externals} (ctx : context) (s : state) :
  store_ok (current_val_metrics s) ->
  let store := current_val_metrics s in
  exists evs averages,
    on_validation_epoch_end ctx s = (Ok tt, logging s evs)
    /\ scalars evs = dataset_means store ++ map average_tag averages
    /\ logged evs = map average_tag averages
    /\ (forall dataset_name metrics m values,
           (dataset_name, metrics) ∈ store -> (m, values) ∈ metrics ->
           ("metrics/" +:+ dataset_name +:+ "/" +:+ m, mean values)
           ∈ scalars evs)
    /\ (forall m, m ∈ keys (entries store) ->
                  (m, global_mean m store) ∈ averages)
    /\ (forall m v, (m, v) ∈ averages ->
                    m ∈ keys (entries store) /\ v = global_mean m store).
Proof.
  intros Hok store.
  destruct (totals_counts store Hok) as (Hwf & Hinv & Hcnt).
  destruct (epoch_end_run ctx s Hok) as (evs & Hrun & Hsc & Hlg).
  fold store in Hsc, Hlg.
  set (totals := foldl add_total [] (entries store)) in *.
  exists evs, (map average_of totals).
  split; [done|]. split; [done|]. split; [done|].
  split; [|split].
  - intros dataset_name metrics m values Hd Hm. rewrite Hsc.
    apply elem_of_app. left. unfold dataset_means.
    apply list_elem_of_In, in_flat_map. exists (dataset_name, metrics).
    split; [by apply list_elem_of_In|]. simpl.
    apply in_map_iff. exists (m, values). split; [done|].
    by apply list_elem_of_In.
  - intros m Hm. specialize (Hinv m).
    destruct (get m totals) as [t|] eqn:Hget; [|contradiction].
    destruct Hinv as (Hval & Hc & _).
    apply list_elem_of_fmap. exists (m, t). split.
    + unfold average_of at 1. cbn [fst snd]. f_equal.
      symmetry. by apply (average_of_total m t store).
    + by apply get_Some_in.
  - intros m v Hin. apply list_elem_of_fmap in Hin as ([k t] & Heq & Hin).
    unfold average_of in Heq. simpl in Heq. inversion Heq; subst.
    pose proof (get_in_wf k t totals Hwf Hin) as Hget.
    specialize (Hinv k). rewrite Hget in Hinv.
    destruct Hinv as (Hval & Hc & Hk). split; [done|].
    by apply (average_of_total k t store).
Qed.

(** Where no operation rounds, the reported values are the means. *)
Lemma exact_means `{Externals} (store : metrics_store) :
  exact_on store ->
  (forall dataset_name metrics m values,
      (dataset_name, metrics) ∈ store -> (m, values) ∈ metrics ->
      (mean values == exact_mean values)%Q)
  /\ (forall m, m ∈ keys (entries store) ->
                (global_mean m store == exact_mean (all_values m store))%Q).
Proof.
  intros [Hlists Htotals]. split.
  - intros dataset_name metrics m values Hd Hm.
    assert (Hin : (m, values) ∈ entries store).
    { unfold entries. apply list_elem_of_In, in_flat_map.
      exists (dataset_name, metrics). split; by apply list_elem_of_In. }
    rewrite Forall_forall in Hlists.
    destruct (Hlists _ Hin) as [Hsum Hmean]. cbn [snd] in Hsum, Hmean.
    rewrite Hmean, Hsum. reflexivity.
  - intros m Hm. destruct (Htotals m Hm) as [Hadds Hdiv].
    rewrite Hdiv. unfold exact_mean, all_values.
    rewrite (running_total_exact m (entries store)); [reflexivity | | done].
    eapply Forall_impl; [exact Hlists|]. by intros mv [Hsum _].
Qed.

(** C1, as stated, fails: the reported values are floats, and the sums
    and quotients that make them round.  On the accumulator
    [{dsA: {psnr: [0.1, 0.2]}, dsB: {psnr: [0.3]}}] the value reported for
    [dsA] is [0.15000000000000002], which is not the mean of the two
    values, and the global value is [0.20000000000000004], which is not
    the sum of the three values divided by three. *)
Lemma float_means_are_rounded :
  let s := State ∅ float_store None [] in
  let reported :=
    scalars (trace (on_validation_epoch_end (H:=binary64) (demo_ctx None)
                      s).2) in
  exists per_dataset other global_value,
    reported = [("metrics/dsA/psnr", per_dataset);
                ("metrics/dsB/psnr", other);
                ("metrics/average/psnr", global_value)]
    /\ ~ (per_dataset == exact_mean [tenth; fifth])%Q
    /\ ~ (global_value == exact_mean [tenth; fifth; three_tenths])%Q.
Proof.
  intros s reported. subst s reported. vm_compute.
  eexists _, _, _. split; [reflexivity|]. split; discriminate.
Qed.

(** C1, amended.  At the end of a validation epoch the module reports,
    for every dataset and every metric of the accumulator, the quotient
    [sum(values) / len(values)] of that dataset's list under
    [metrics/<dataset>/<metric>], and for every metric, under
    [metrics/average/<metric>], the running total of the sums of its
    lists across the datasets divided by the number of all its values:
    weighted by sample count, not the mean of the per-dataset means.  The
    values are those of Python's arithmetic, which rounds; where no
    operation rounds they are the arithmetic means.  This holds for every
    accumulator without an empty list, and the accumulator of an epoch has
    none. *)
Theorem epoch_end_reports_means `{Externals} (ctx : context) :
  (forall s : state,
      store_ok (current_val_metrics s) ->
      let store := current_val_metrics s in
      exists evs averages,
        on_validation_epoch_end ctx s = (Ok tt, logging s evs)
        /\ scalars evs = dataset_means store ++ map average_tag averages
        /\ logged evs = map average_tag averages
        /\ (forall dataset_name metrics m values,
               (dataset_name, metrics) ∈ store -> (m, values) ∈ metrics ->
               ("metrics/" +:+ dataset_name +:+ "/" +:+ m, mean values)
               ∈ scalars evs)
        /\ (forall m, m ∈ keys (entries store) ->
                      (m, global_mean m store) ∈ averages)
        /\ (forall m v, (m, v) ∈ averages ->
                        m ∈ keys (entries store)
                        /\ v = global_mean m store)
        /\ (exact_on store ->
            (forall dataset_name metrics m values,
                (dataset_name, metrics) ∈ store -> (m, values) ∈ metrics ->
                (mean values == exact_mean values)%Q)
            /\ (forall m, m ∈ keys (entries store) ->
                          (global_mean m store
                           == exact_mean (all_values m store))%Q)))
  /\ (forall (steps : list (dict batch_val * nat * nat)) (s0 : state),
         store_ok
           (current_val_metrics
              (run_steps ctx steps (on_validation_epoch_start ctx s0).2).2)).
Proof.
  split.
  - intros s Hok store.
    destruct (epoch_end_means ctx s Hok)
      as (evs & averages & Hrun & Hsc & Hlg & Hds & Havg & Hfrom).
    exists evs, averages. repeat (split; [done|]).
    apply exact_means.
  - intros steps s0. apply epoch_store_ok.
Qed.

(** The accumulator of the example under the arithmetic of floats:
    nothing rounds, and the reported values are 15, 30 and 20, where the
    mean of the per-dataset means would be 22.5. *)
Lemma example_is_exact : exact_on (H:=binary64) example_store.
Proof.
  split.
  - repeat constructor; by vm_compute.
  - intros m Hm. cbn in Hm.
    assert (m = "psnr") as ->.
    { rewrite !elem_of_cons, elem_of_nil in Hm. tauto. }
    split; by vm_compute.
Qed.

Lemma epoch_end_reports_means_witness :
  let s := State ∅ example_store None [] in
  exists evs,
    on_validation_epoch_end (H:=binary64) (demo_ctx None) s
    = (Ok tt, logging s evs)
    /\ ("metrics/dsA/psnr", mean (H:=binary64) [10%Q; 20%Q]) ∈ scalars evs
    /\ ("metrics/dsB/psnr", mean (H:=binary64) [30%Q]) ∈ scalars evs
    /\ ("metrics/average/psnr", global_mean (H:=binary64) "psnr"
                                  example_store) ∈ scalars evs
    /\ ("metrics/average/psnr", global_mean (H:=binary64) "psnr"
                                  example_store) ∈ logged evs
    /\ (mean (H:=binary64) [10%Q; 20%Q] == 15)%Q
    /\ (mean (H:=binary64) [30%Q] == 30)%Q
    /\ (global_mean (H:=binary64) "psnr" example_store == 20)%Q
    /\ ~ (global_mean (H:=binary64) "psnr" example_store
          == (15 + 30) / 2)%Q.
Proof.
  intros s.
  assert (Hok : store_ok (current_val_metrics s)).
  { unfold store_ok. simpl. repeat constructor; discriminate. }
  destruct (epoch_end_reports_means (H:=binary64) (demo_ctx None))
    as [Hend _].
  destruct (Hend s Hok)
    as (evs & averages & Hrun & Hsc & Hlg & Hds & Havg & _ & Hexact).
  destruct (Hexact example_is_exact) as [Hmeans Hglobal].
  pose proof (Havg "psnr") as Hv.
  assert (Hkey : "psnr" ∈ keys (entries (current_val_metrics s))).
  { simpl. apply list_elem_of_here. }
  specialize (Hv Hkey).
  exists evs. split; [exact Hrun|].
  split; [apply (Hds "dsA" [("psnr", [10%Q; 20%Q])]); simpl;
          [apply list_elem_of_here | apply list_elem_of_here]|].
  split; [apply (Hds "dsB" [("psnr", [30%Q])]); simpl;
          [apply list_elem_of_further, list_elem_of_here
          | apply list_elem_of_here]|].
  assert (Htag : ("metrics/average/psnr",
                  global_mean (H:=binary64) "psnr" example_store)
                 ∈ map average_tag averages).
  { apply list_elem_of_fmap.
    by exists ("psnr", global_mean (H:=binary64) "psnr" example_store). }
  split; [rewrite Hsc; apply elem_of_app; by right|].
  split; [by rewrite Hlg|].
  split.
  { rewrite (Hmeans "dsA" [("psnr", [10%Q; 20%Q])] "psnr" [10%Q; 20%Q]);
      [reflexivity | apply list_elem_of_here | apply list_elem_of_here]. }
  split.
  { rewrite (Hmeans "dsB" [("psnr", [30%Q])] "psnr" [30%Q]);
      [reflexivity | apply list_elem_of_further, list_elem_of_here
      | apply list_elem_of_here]. }
  pose proof (Hglobal "psnr" Hkey) as Hg.
  change (current_val_metrics s) with example_store in Hg.
  split; [by rewrite Hg | rewrite Hg; discriminate].
Defined.

(** The example, run: the three reported values are 15, 30 and 20. *)
Example epoch_end_example :
  let s := State ∅ example_store None [] in
  (on_validation_epoch_end (H:=binary64) (demo_ctx None) s).1 = Ok tt
  /\ map (fun kv : string * Q => (kv.1, Qred kv.2))
       (scalars (trace (on_validation_epoch_end (H:=binary64)
                          (demo_ctx None) s).2))
     = [("metrics/dsA/psnr", 15%Q); ("metrics/dsB/psnr", 30%Q);
        ("metrics/average/psnr", 20%Q)].
Proof. split; by vm_compute. Qed.

End ValidationFacts.

(** ** Key prefixes *)

Module StripFacts.
Import BaseModel Notions.

Section Pass.
Context {V : Type}.
Variables (prefix : string) (n : nat).
Implicit Types (w d : dict V) (k : string).

Lemma keys_app (a b : dict V) : keys (a ++ b) = keys a ++ keys b.
Proof. unfold keys. apply map_app. Qed.

Lemma keys_cons (kv : string * V) (a : dict V) :
  keys (kv :: a) = kv.1 :: keys a.
Proof. reflexivity. Qed.

Lemma kept_cons (kv : string * V) (w : dict V) :
  kept prefix (kv :: w)
  = if startswith prefix kv.1 then kept prefix w else kv :: kept prefix w.
Proof.
  unfold kept. destruct (startswith prefix kv.1) eqn:Hp.
  - rewrite filter_cons_False; [done|]. rewrite Hp. intros Hf. by apply Hf.
  - rewrite filter_cons_True; [done|]. rewrite Hp. by intros Hf.
Qed.

Lemma moved_cons (kv : string * V) (w : dict V) :
  moved prefix n (kv :: w)
  = if startswith prefix kv.1 then (str_from n kv.1, kv.2) :: moved prefix n w
    else moved prefix n w.
Proof.
  unfold moved. destruct (startswith prefix kv.1) eqn:Hp.
  - rewrite filter_cons_True; [reflexivity|]. by rewrite Hp.
  - rewrite filter_cons_False; [reflexivity|]. rewrite Hp. by intros Hf.
Qed.

Lemma rename_step_eval (d : dict V) (k : string) :
  rename_step prefix n (Ok d) k
  = if startswith prefix k then
      match pop k d with
      | Ok (v, d') => Ok (set (str_from n k) v d')
      | Raise e => Raise e
      end
    else Ok d.
Proof.
  unfold rename_step. simpl. destruct (startswith prefix k); [|done].
  by destruct (pop k d) as [[v d']|e].
Qed.

(** The loop when no renaming clashes: [a] holds the entries already
    passed and kept, [b] those already moved. *)
Lemma rename_loop_clean (todo : dict V) :
  forall a b : dict V,
    NoDup (keys a ++ keys todo ++ keys b ++ keys (moved prefix n todo)) ->
    foldl (rename_step prefix n) (Ok (a ++ todo ++ b)) (keys todo)
    = Ok (a ++ kept prefix todo ++ b ++ moved prefix n todo).
Proof.
  induction todo as [|[k v] todo IH]; intros a b Hnd.
  - simpl. by rewrite app_nil_r.
  - rewrite keys_cons, kept_cons, moved_cons in *. cbn [foldl fst snd] in *.
    rewrite rename_step_eval, <- (app_comm_cons todo b (k, v)).
    destruct (startswith prefix k) eqn:Hp.
    + rewrite keys_cons in Hnd. cbn [fst] in Hnd.
      assert (Hperm : keys a ++ k :: keys todo ++ keys b
                      ++ str_from n k :: keys (moved prefix n todo)
                      ≡ₚ k :: str_from n k
                         :: (keys a ++ keys todo ++ keys b
                             ++ keys (moved prefix n todo)))
        by solve_Permutation.
      rewrite Hperm in Hnd.
      apply NoDup_cons in Hnd as [Hk Hnd].
      apply NoDup_cons in Hnd as [Hk' Hnd].
      apply not_elem_of_cons in Hk as [_ Hk].
      pose proof Hk' as Hfresh.
      rewrite !not_elem_of_app in Hk, Hk'.
      destruct Hk as (Ha & _). destruct Hk' as (Ha' & Ht' & Hb' & _).
      rewrite pop_middle by exact Ha.
      rewrite set_fresh.
      2:{ by rewrite !keys_app, !not_elem_of_app. }
      rewrite <- !app_assoc.
      rewrite (IH a (b ++ [(str_from n k, v)])).
      * by rewrite <- !app_assoc.
      * rewrite keys_app. simpl.
        assert (Hq : keys a ++ keys todo ++ (keys b ++ [str_from n k])
                     ++ keys (moved prefix n todo)
                     ≡ₚ str_from n k
                        :: (keys a ++ keys todo ++ keys b
                            ++ keys (moved prefix n todo)))
          by solve_Permutation.
        rewrite Hq. apply NoDup_cons. by split.
    + replace (a ++ (k, v) :: todo ++ b)
        with ((a ++ [(k, v)]) ++ todo ++ b)
        by (by rewrite <- app_assoc).
      rewrite IH.
      * by rewrite <- !app_assoc.
      * rewrite keys_app. simpl. rewrite <- app_assoc. exact Hnd.
Qed.

Lemma strip_prefix_clean (w : dict V) :
  clean prefix n w -> strip_prefix prefix n w = Ok (renamed prefix n w).
Proof.
  intros Hc. unfold strip_prefix, renamed.
  pose proof (rename_loop_clean w [] []) as Hloop. simpl in Hloop.
  rewrite app_nil_r in Hloop. by apply Hloop.
Qed.

(** What became of every entry *)
Lemma renamed_perm (w : dict V) :
  renamed prefix n w
  ≡ₚ (fun kv : string * V => (strip_one prefix n kv.1, kv.2)) <$> w.
Proof.
  unfold renamed, strip_one. induction w as [|[k v] w IH]; [done|].
  rewrite kept_cons, moved_cons, fmap_cons. simpl.
  destruct (startswith prefix k).
  - rewrite <- IH. solve_Permutation.
  - simpl. by rewrite IH.
Qed.

(** The loop on any well-formed mapping: [pop] always finds its key,
    every key of the result is a key left alone or a shortened one, and
    a key the loop does not touch stays. *)
Lemma rename_loop_total (todo : list string) :
  forall d : dict V,
    wf d -> NoDup todo -> (forall k, k ∈ todo -> k ∈ keys d) ->
    exists d',
      foldl (rename_step prefix n) (Ok d) todo = Ok d'
      /\ wf d'
      /\ (forall k', k' ∈ keys d' ->
            (k' ∈ keys d /\ (k' ∉ todo \/ startswith prefix k' = false))
            \/ (exists k, k ∈ todo /\ startswith prefix k = true
                          /\ k' = str_from n k))
      /\ (forall k, k ∈ keys d ->
                    k ∉ todo \/ startswith prefix k = false ->
                    k ∈ keys d').
Proof.
  induction todo as [|k todo IH]; intros d Hwf Hnd Hsub.
  - exists d. split; [done|]. split; [done|]. split; [|done].
    intros k' Hk'. left. split; [done|]. left. apply not_elem_of_nil.
  - cbn [foldl]. rewrite rename_step_eval.
    apply NoDup_cons in Hnd as [Hk Hnd].
    destruct (startswith prefix k) eqn:Hp.
    + destruct (pop_present k d) as (v & a & t & -> & Hka & ->).
      { apply Hsub, list_elem_of_here. }
      apply wf_remove in Hwf as [Hwf Hkat].
      destruct (IH (set (str_from n k) v (a ++ t))) as (d' & -> & Hwf' & Hfrom & Hstay).
      * by apply wf_set.
      * done.
      * intros x Hx. apply elem_of_keys_set. left.
        assert (Hxd : x ∈ keys (a ++ (k, v) :: t))
          by (apply Hsub; by apply list_elem_of_further).
        apply elem_of_keys_middle in Hxd as [-> | Hxd]; done.
      * exists d'. split; [done|]. split; [done|]. split.
        -- intros k' Hk'. destruct (Hfrom k' Hk') as [[Hin Hnot] | Hex].
           ++ apply elem_of_keys_set in Hin as [Hin | ->].
              ** left. split; [apply elem_of_keys_middle; by right|].
                 destruct Hnot as [Hnot | Hnot]; [|by right].
                 left. rewrite not_elem_of_cons. split; [|done].
                 intros ->. contradiction.
              ** right. exists k. split; [apply list_elem_of_here|done].
           ++ destruct Hex as (k0 & Hk0 & Hp0 & ->). right. exists k0.
              split; [by apply list_elem_of_further | done].
        -- intros k0 Hk0 Hcond. apply Hstay.
           ++ apply elem_of_keys_set. left.
              apply elem_of_keys_middle in Hk0 as [-> | Hk0]; [|done].
              destruct Hcond as [Hcond | Hcond]; [|congruence].
              exfalso. apply Hcond, list_elem_of_here.
           ++ destruct Hcond as [Hcond | Hcond]; [|by right].
              left. rewrite not_elem_of_cons in Hcond. tauto.
    + destruct (IH d Hwf Hnd) as (d' & -> & Hwf' & Hfrom & Hstay).
      { intros x Hx. apply Hsub. by apply list_elem_of_further. }
      exists d'. split; [done|]. split; [done|]. split.
      * intros k' Hk'. destruct (Hfrom k' Hk') as [[Hin Hnot] | Hex].
        -- left. split; [done|].
           destruct Hnot as [Hnot | Hnot]; [|by right].
           destruct (decide (k' = k)) as [-> | Hne]; [by right|].
           left. rewrite not_elem_of_cons. done.
        -- destruct Hex as (k0 & Hk0 & Hp0 & ->). right. exists k0.
           split; [by apply list_elem_of_further | done].
      * intros k0 Hk0 Hcond. apply Hstay; [done|].
        destruct Hcond as [Hcond | Hcond]; [|by right].
        left. rewrite not_elem_of_cons in Hcond. tauto.
Qed.

(** One loop over a well-formed mapping *)
Lemma strip_prefix_total (w : dict V) :
  wf w ->
  exists w',
    strip_prefix prefix n w = Ok w'
    /\ wf w'
    /\ (forall k', k' ∈ keys w' ->
                   exists k, k ∈ keys w /\ k' = strip_one prefix n k)
    /\ (forall k, k ∈ keys w -> startswith prefix k = false ->
                  k ∈ keys w').
Proof.
  intros Hwf. unfold strip_prefix.
  destruct (rename_loop_total (keys w) w Hwf Hwf (fun k Hk => Hk))
    as (w' & Hrun & Hwf' & Hfrom & Hstay).
  exists w'. split; [done|]. split; [done|]. split.
  - intros k' Hk'. unfold strip_one.
    destruct (Hfrom k' Hk') as [[Hin [Hnot | Hnp]] | (k & Hk & Hp & ->)].
    + contradiction.
    + exists k'. by rewrite Hnp.
    + exists k. by rewrite Hp.
  - intros k Hk Hnp. apply Hstay; [done | by right].
Qed.

End Pass.

Lemma stripped_key_example : stripped_key "_orig_mod.module.foo" = "foo".
Proof. reflexivity. Qed.

Lemma stripped_key_plain (k : string) :
  startswith "_orig_mod." k = false -> startswith "module." k = false ->
  stripped_key k = k.
Proof. unfold stripped_key, strip_one. by intros -> ->. Qed.

(** C7, as stated, fails: not every key is stripped of its prefixes once.
    When a stripped name is itself a name of the mapping, the assignment
    overwrites that entry, and the loop, which runs over the keys it found
    at its start, strips the overwritten key again: of two entries one is
    lost and the other ends under a name stripped twice. *)
Lemma clashing_keys_are_not_stripped_once :
  let w : dict nat := [("_orig_mod._orig_mod.a", 1); ("_orig_mod.a", 2)] in
  wf w
  /\ strip_prefixes w = Ok [("a", 1)]
  /\ stripped_key "_orig_mod._orig_mod.a" = "_orig_mod.a"
  /\ ~ (exists w',
           strip_prefixes w = Ok w'
           /\ forall k v, get k w = Some v ->
                          get (stripped_key k) w' = Some v).
Proof.
  intros w. split; [unfold wf; compute_done|].
  split; [reflexivity|]. split; [reflexivity|].
  intros (w' & Hrun & Hall).
  assert (Hw' : w' = [("a", 1)]) by (by injection Hrun as <-).
  specialize (Hall "_orig_mod.a" 2 eq_refl). rewrite Hw' in Hall.
  discriminate Hall.
Qed.

(** C7, amended.  Before the keys are matched against the model,
    [load_weights] strips the prefix ['_orig_mod.'] and then the prefix
    ['module.'] from
    the keys that carry them: the two loops never fail on a mapping,
    every key they leave is an original key with the prefixes stripped,
    a key without these prefixes stays as it is, and when no stripped name
    clashes with another name every entry is kept under its stripped key.
    In particular ['_orig_mod.module.foo'] becomes ['foo']. *)
Theorem load_weights_strips_prefixes {V : Type} (w : dict V) :
  wf w ->
  exists w',
    strip_prefixes w = Ok w'
    /\ wf w'
    /\ (forall k', k' ∈ keys w' ->
                   exists k, k ∈ keys w /\ k' = stripped_key k)
    /\ (forall k, k ∈ keys w ->
                  startswith "_orig_mod." k = false ->
                  startswith "module." k = false ->
                  k ∈ keys w' /\ stripped_key k = k)
    /\ (clean "_orig_mod." 10 w ->
        clean "module." 7 (renamed "_orig_mod." 10 w) ->
        w' ≡ₚ (fun kv : string * V => (stripped_key kv.1, kv.2)) <$> w)
    /\ stripped_key "_orig_mod.module.foo" = "foo"
    /\ (forall v : V,
           strip_prefixes [("_orig_mod.module.foo", v)] = Ok [("foo", v)]).
Proof.
  intros Hwf. unfold strip_prefixes.
  destruct (strip_prefix_total "_orig_mod." 10 w Hwf)
    as (w1 & Hrun1 & Hwf1 & Hfrom1 & Hstay1).
  destruct (strip_prefix_total "module." 7 w1 Hwf1)
    as (w2 & Hrun2 & Hwf2 & Hfrom2 & Hstay2).
  exists w2. rewrite Hrun1. simpl. split; [done|]. split; [done|].
  split; [|split; [|split; [|split]]].
  - intros k' Hk'. destruct (Hfrom2 k' Hk') as (k1 & Hk1 & ->).
    destruct (Hfrom1 k1 Hk1) as (k & Hk & ->). by exists k.
  - intros k Hk Hp1 Hp2. split; [|by apply stripped_key_plain].
    apply Hstay2; [|done]. by apply Hstay1.
  - intros Hc1 Hc2.
    rewrite (strip_prefix_clean "_orig_mod." 10 w Hc1) in Hrun1.
    inversion Hrun1; subst w1.
    rewrite (strip_prefix_clean "module." 7 _ Hc2) in Hrun2.
    inversion Hrun2; subst w2.
    rewrite renamed_perm, renamed_perm. rewrite <- list_fmap_compose.
    reflexivity.
  - reflexivity.
  - reflexivity.
Qed.

Lemma load_weights_strips_prefixes_witness :
  let w : dict nat :=
    [("_orig_mod.module.conv.weight", 1); ("_orig_mod.module.conv.bias", 2);
     ("module.fc.weight", 3); ("step", 4)] in
  exists w',
    strip_prefixes w = Ok w'
    /\ w' ≡ₚ [("conv.weight", 1); ("conv.bias", 2); ("fc.weight", 3);
              ("step", 4)]
    /\ "step" ∈ keys w'.
Proof.
  intros w.
  assert (Hwf : wf w) by (unfold wf; compute_done).
  destruct (load_weights_strips_prefixes w Hwf)
    as (w' & Hrun & _ & _ & Hstay & Hperm & _).
  exists w'. split; [exact Hrun|]. split.
  - apply Hperm; unfold clean; compute_done.
  - apply (Hstay "step"); [|reflexivity|reflexivity].
    unfold keys. simpl. compute_done.
Defined.

(** When stripped names clash the loops still run, but an entry is lost:
    the order of the keys decides which one. *)
Example strip_prefixes_clash :
  strip_prefixes [("_orig_mod._orig_mod.a", 1); ("_orig_mod.a", 2)]
  = Ok [("a", 1)]
  /\ strip_prefixes [("_orig_mod.a", 2); ("_orig_mod._orig_mod.a", 1)]
     = Ok [("a", 2); ("_orig_mod.a", 1)].
Proof. split; reflexivity. Qed.

End StripFacts.

(** ** More on the data-loader builder *)

Module DataMore.
Import Data DataFacts Fixtures.

(** X1.  A seed that a worker gets is shared with no other worker.  For
    integer arguments and worker ids below [num_workers], when
    [worker_init_fn] seeds one (rank, worker) pair, that is when its
    worker seed lies in the range numpy accepts, every other pair is
    seeded with another number or not at all. *)
Theorem worker_seeds_differ (num_workers seed rank rank' w w' : Z) :
  (0 <= w < num_workers)%Z -> (0 <= w' < num_workers)%Z ->
  (rank, w) <> (rank', w') ->
  (0 <= num_workers * rank + w + seed < 2 ^ 32)%Z ->
  worker_init_fn (PInt w) (PInt num_workers) (PInt rank) (PInt seed)
  = Ok [NumpySeed (num_workers * rank + w + seed);
        RandomSeed (num_workers * rank + w + seed)]
  /\ worker_init_fn (PInt w) (PInt num_workers) (PInt rank) (PInt seed)
     <> worker_init_fn (PInt w') (PInt num_workers) (PInt rank') (PInt seed).
Proof.
  intros Hw Hw' Hne Hrange.
  rewrite (worker_init_fn_in_range w num_workers rank seed Hrange).
  split; [done|]. rewrite worker_init_fn_ints. cbv zeta.
  destruct (_ && _); [|discriminate]. intros Heq.
  assert (Hsum : (num_workers * rank + w = num_workers * rank' + w')%Z)
    by (inversion Heq; lia).
  apply Hne.
  assert (rank = rank') by nia. subst. f_equal. lia.
Qed.

Lemma worker_seeds_differ_witness :
  worker_init_fn (PInt 3) (PInt 4) (PInt 0) (PInt 7)
  = Ok [NumpySeed 10; RandomSeed 10]
  /\ worker_init_fn (PInt 3) (PInt 4) (PInt 0) (PInt 7)
     <> worker_init_fn (PInt 0) (PInt 4) (PInt 1) (PInt 7).
Proof.
  apply (worker_seeds_differ 4 7 0 1 3 0); [lia | lia | discriminate | lia].
Defined.

(** X2.  What [build_dataloader] needs of the configuration: without
    ['phase'] it raises [KeyError]; a training configuration must hold
    ['batch_size_per_gpu'] and ['num_worker_per_gpu'], read in this order,
    and the first one missing is the [KeyError].  With both present the
    call reaches the constructor, and nothing but the constructor can
    still refuse. *)
Theorem build_dataloader_required_keys `{LoaderInit}
    (environ : dict string) (dataset : dataset_handle)
    (dataset_opt : dict pyval) (seed : pyval)
    (sampler : option sampler_handle) :
  (get "phase" dataset_opt = None ->
   build_dataloader environ dataset dataset_opt seed sampler
   = Raise (KeyError "phase"))
  /\ (get "phase" dataset_opt = Some (PStr "train") ->
      get "batch_size_per_gpu" dataset_opt = None ->
      build_dataloader environ dataset dataset_opt seed sampler
      = Raise (KeyError "batch_size_per_gpu"))
  /\ (get "phase" dataset_opt = Some (PStr "train") ->
      is_Some (get "batch_size_per_gpu" dataset_opt) ->
      get "num_worker_per_gpu" dataset_opt = None ->
      build_dataloader environ dataset dataset_opt seed sampler
      = Raise (KeyError "num_worker_per_gpu"))
  /\ (get "phase" dataset_opt = Some (PStr "train") ->
      is_Some (get "batch_size_per_gpu" dataset_opt) ->
      is_Some (get "num_worker_per_gpu" dataset_opt) ->
      exists l,
        build_dataloader environ dataset dataset_opt seed sampler
        = construct l
        /\ (loader_init (loader_args l) = Ok tt ->
            build_dataloader environ dataset dataset_opt seed sampler
            = Ok l))
  /\ (get "phase" dataset_opt = Some (PStr "train") ->
      forall l,
        build_dataloader environ dataset dataset_opt seed sampler = Ok l ->
        is_Some (get "batch_size_per_gpu" dataset_opt)
        /\ is_Some (get "num_worker_per_gpu" dataset_opt)
        /\ loader_init (loader_args l) = Ok tt).
Proof.
  unfold build_dataloader, getitem. split; [|split; [|split; [|split]]].
  - by intros ->.
  - intros -> Hbs. simpl. by rewrite Hbs.
  - intros -> [bs Hbs] Hnw. simpl. by rewrite Hbs, Hnw.
  - intros -> [bs ->] [nw ->]. simpl.
    destruct (pyval_eqb _ (PStr "cpu")); eexists; (split; [reflexivity|]);
      unfold construct; by intros ->.
  - intros -> l. simpl.
    destruct (get "batch_size_per_gpu" dataset_opt); [|discriminate].
    simpl.
    destruct (get "num_worker_per_gpu" dataset_opt); [|discriminate].
    simpl. unfold construct.
    destruct (pyval_eqb _ (PStr "cpu")); simpl;
      destruct (loader_init _) as [[]|e] eqn:Hinit; simpl;
      try discriminate; intros [= <-]; by eauto.
Qed.

Lemma build_dataloader_required_keys_witness :
  build_dataloader (H:=torch_checks) [] (DatasetHandle 0)
    [("phase", PStr "train"); ("num_worker_per_gpu", PInt 2)] (PInt 7) None
  = Raise (KeyError "batch_size_per_gpu").
Proof.
  destruct (build_dataloader_required_keys (H:=torch_checks) []
              (DatasetHandle 0)
              [("phase", PStr "train"); ("num_worker_per_gpu", PInt 2)]
              (PInt 7) None) as (_ & Hbs & _).
  apply Hbs; reflexivity.
Defined.

(** X3.  ['prefetch_mode'] only chooses the class of the loader.  Two
    configurations that agree on every other key (['num_prefetch_queue']
    apart) give loaders with the same arguments, or fail with the same
    error; the result is a [PrefetchDataLoader], with the configured queue
    depth or depth 1, exactly when ['prefetch_mode'] is ['cpu']. *)
Theorem prefetch_mode_only_wraps `{LoaderInit} (environ : dict string)
    (dataset : dataset_handle) (dataset_opt dataset_opt' : dict pyval)
    (seed : pyval) (sampler : option sampler_handle) :
  (forall k, k <> "prefetch_mode" -> k <> "num_prefetch_queue" ->
             get k dataset_opt = get k dataset_opt') ->
  match build_dataloader environ dataset dataset_opt seed sampler,
        build_dataloader environ dataset dataset_opt' seed sampler with
  | Ok l, Ok l' => loader_args l = loader_args l'
  | Raise e, Raise e' => e = e'
  | _, _ => False
  end
  /\ (forall l,
         build_dataloader environ dataset dataset_opt seed sampler = Ok l ->
         if bool_decide (get "prefetch_mode" dataset_opt = Some (PStr "cpu"))
         then l = PrefetchDataLoader
                    (default (PInt 1) (get "num_prefetch_queue" dataset_opt))
                    (loader_args l)
         else l = DataLoader (loader_args l)).
Proof.
  intros Hagree.
  assert (Hcpu : forall o : dict pyval,
             pyval_eqb (get_default "prefetch_mode" PNone o) (PStr "cpu")
             = bool_decide (get "prefetch_mode" o = Some (PStr "cpu"))).
  { intros o. unfold get_default.
    destruct (get "prefetch_mode" o) as [v|]; case_bool_decide as Hd.
    - by inversion Hd.
    - apply pyval_neqb_str. congruence.
    - discriminate.
    - reflexivity. }
  unfold build_dataloader, getitem. rewrite !Hcpu. unfold get_default.
  rewrite <- (Hagree "phase"), <- (Hagree "batch_size_per_gpu"),
    <- (Hagree "num_worker_per_gpu"), <- (Hagree "pin_memory"),
    <- (Hagree "persistent_workers"), <- (Hagree "use_shuffle")
    by discriminate.
  unfold construct.
  destruct (get "phase" dataset_opt) as [phase|]; simpl; [|by split].
  destruct (pyval_eqb phase (PStr "train")); simpl.
  - destruct (get "batch_size_per_gpu" dataset_opt); simpl; [|by split].
    destruct (get "num_worker_per_gpu" dataset_opt); simpl; [|by split].
    split.
    + repeat case_bool_decide; simpl;
        by destruct (loader_init _) as [[]|e].
    + intros l. case_bool_decide; simpl;
        destruct (loader_init _) as [[]|e]; simpl; try discriminate;
        by intros [= <-].
  - destruct (pyval_eqb phase (PStr "val") || pyval_eqb phase (PStr "test"));
      simpl; [|by split].
    split.
    + repeat case_bool_decide; simpl;
        by destruct (loader_init _) as [[]|e].
    + intros l. case_bool_decide; simpl;
        destruct (loader_init _) as [[]|e]; simpl; try discriminate;
        by intros [= <-].
Qed.

Lemma prefetch_mode_only_wraps_witness :
  let opt : dict pyval := [("phase", PStr "val")] in
  let opt' : dict pyval :=
    [("phase", PStr "val"); ("prefetch_mode", PStr "cpu")] in
  exists a a',
    build_dataloader (H:=torch_checks) [] (DatasetHandle 0) opt PNone None
    = Ok (DataLoader a)
    /\ build_dataloader (H:=torch_checks) [] (DatasetHandle 0) opt' PNone
         None
       = Ok (PrefetchDataLoader (PInt 1) a')
    /\ a = a'.
Proof.
  intros opt opt'.
  assert (Hagree : forall k, k <> "prefetch_mode" ->
                             k <> "num_prefetch_queue" ->
                             get k opt = get k opt').
  { intros k Hk _. subst opt opt'. cbn -[String.eqb].
    destruct (String.eqb "phase" k); [done|].
    destruct (String.eqb_spec "prefetch_mode" k); [congruence | done]. }
  eexists _, _. split; [reflexivity|]. split; [reflexivity|].
  exact (proj1 (prefetch_mode_only_wraps (H:=torch_checks) []
                  (DatasetHandle 0) opt opt' PNone None Hagree)).
Defined.

(** X4.  [reset] of a [DataLoader] that [build_dataloader] made resets the
    dataset exactly for the training phase: the validation and test loaders
    are built without a phase and their [reset] does nothing. *)
Theorem built_loader_reset `{LoaderInit} (environ : dict string)
    (dataset : dataset_handle) (dataset_opt : dict pyval) (seed : pyval)
    (sampler : option sampler_handle) (a : dataloader_args) :
  build_dataloader environ dataset dataset_opt seed sampler
  = Ok (DataLoader a) ->
  reset (DataLoader a)
  = if bool_decide (get "phase" dataset_opt = Some (PStr "train"))
    then Some dataset else None.
Proof.
  unfold build_dataloader, getitem, construct.
  destruct (get "phase" dataset_opt) as [phase|]; simpl; [|discriminate].
  destruct (pyval_eqb phase (PStr "train")) eqn:Hp; simpl.
  - apply pyval_eqb_str in Hp. subst phase.
    rewrite bool_decide_eq_true_2 by done.
    destruct (get "batch_size_per_gpu" dataset_opt); simpl; [|discriminate].
    destruct (get "num_worker_per_gpu" dataset_opt); simpl; [|discriminate].
    destruct (pyval_eqb _ (PStr "cpu")); simpl;
      destruct (loader_init _) as [[]|e]; simpl; try discriminate.
    by intros [= <-].
  - apply pyval_neqb_str in Hp.
    rewrite bool_decide_eq_false_2 by congruence.
    destruct (pyval_eqb phase (PStr "val") || pyval_eqb phase (PStr "test"));
      simpl; [|discriminate].
    destruct (pyval_eqb _ (PStr "cpu")); simpl;
      destruct (loader_init _) as [[]|e]; simpl; try discriminate.
    by intros [= <-].
Qed.

Lemma built_loader_reset_witness :
  reset (DataLoader
           (DataloaderArgs (DatasetHandle 5) (PInt 1) (PBool false) (PInt 0)
              None None None None (PBool false) (PBool false)))
  = None.
Proof.
  apply (built_loader_reset (H:=torch_checks) [] (DatasetHandle 5)
           [("phase", PStr "test")] PNone None _ eq_refl).
Defined.

End DataMore.

(** ** More on optimizers, schedulers and loading *)

Module LoadMore.
Import Data DataFacts BaseModel Notions BaseModelMore MoreNotions StripFacts.

(** X5.  [get_optimizer] knows exactly seven type names, each spelled as
    its class and each selecting its own class; every other value raises
    [NotImplementedError] with a message that names it. *)
Theorem get_optimizer_names (optim_type : pyval) :
  (forall k, get_optimizer optim_type = Ok k
             <-> optim_type = PStr (optimizer_name k))
  /\ ((forall k, optim_type <> PStr (optimizer_name k)) ->
      get_optimizer optim_type
      = Raise (NotImplementedError
                 ("optimizer " +:+ py_str optim_type
                  +:+ " is not supported yet."))).
Proof.
  assert (Hdec : forall s, pyval_eqb optim_type (PStr s)
                           = bool_decide (optim_type = PStr s)).
  { intros s. destruct (pyval_eqb optim_type (PStr s)) eqn:He.
    - apply pyval_eqb_str in He. by rewrite bool_decide_eq_true_2.
    - apply pyval_neqb_str in He. by rewrite bool_decide_eq_false_2. }
  unfold get_optimizer. rewrite !Hdec. split.
  - intros k. split.
    + repeat case_bool_decide; subst; try discriminate;
        intros [= <-]; reflexivity.
    + intros ->. by destruct k.
  - intros Hnone.
    rewrite !bool_decide_eq_false_2; [done|..].
    + apply (Hnone Rprop).
    + apply (Hnone RMSprop).
    + apply (Hnone ASGD).
    + apply (Hnone SGD).
    + apply (Hnone Adamax).
    + apply (Hnone AdamW).
    + apply (Hnone Adam).
Qed.

Lemma get_optimizer_names_witness :
  get_optimizer (PStr "adam")
  = Raise (NotImplementedError "optimizer adam is not supported yet.").
Proof.
  destruct (get_optimizer_names (PStr "adam")) as [_ Hnone].
  apply Hnone. intros k. by destruct k.
Defined.

Lemma get_without_type (scheduler_opt : dict optval) (k : string) :
  get k (without_type scheduler_opt)
  = if String.eqb k "type" then None else get k scheduler_opt.
Proof.
  unfold without_type.
  induction scheduler_opt as [|[k' v] o IH]; cbn -[String.eqb].
  - by destruct (String.eqb k "type").
  - destruct (String.eqb_spec k' "type") as [->|Hne]; cbn -[String.eqb].
    + rewrite IH. destruct (String.eqb_spec k "type") as [Heq|Hk]; [done|].
      destruct (String.eqb_spec "type" k); [congruence | done].
    + rewrite IH. destruct (String.eqb_spec k' k) as [->|Hk]; [|done].
      destruct (String.eqb_spec k "type"); [congruence | done].
Qed.

(** X6.  When [configure_optimizers] returns, both constructors have
    accepted their arguments; the scheduler steps once per epoch, is
    monitored on the configured metric or on ['val/psnr'], and has
    received every scheduler option except ['type'], under its key and in
    the configured order.  An unknown optimizer, and an optimizer that
    cannot be constructed, are reported before the scheduler is looked
    at. *)
Theorem configure_optimizers_bundle `{Optim} (optim_type : pyval)
    (scheduler_opt : dict optval) (checkpoint_monitor : option pyval) :
  (forall b,
      configure_optimizers optim_type scheduler_opt checkpoint_monitor = Ok b ->
      interval b = "epoch" /\ frequency b = 1%Z
      /\ monitor b = default (PStr "val/psnr") checkpoint_monitor
      /\ get_optimizer optim_type = Ok (optimizer b)
      /\ new_optimizer (optimizer b) = Ok tt
      /\ configure_scheduler scheduler_opt = Ok (scheduler_of b)
      /\ new_scheduler (scheduler (scheduler_of b))
           (scheduler_config (scheduler_of b)) = Ok tt
      /\ (forall k, get k (scheduler_config (scheduler_of b))
                    = if String.eqb k "type" then None
                      else get k scheduler_opt)
      /\ scheduler_config (scheduler_of b)
         = List.filter (fun kv => negb (String.eqb kv.1 "type")) scheduler_opt)
  /\ (forall e,
         get_optimizer optim_type = Raise e ->
         configure_optimizers optim_type scheduler_opt checkpoint_monitor
         = Raise e)
  /\ (forall o e,
         get_optimizer optim_type = Ok o -> new_optimizer o = Raise e ->
         configure_optimizers optim_type scheduler_opt checkpoint_monitor
         = Raise e).
Proof.
  unfold configure_optimizers. split; [|split].
  - intros b Hb.
    destruct (get_optimizer optim_type) as [o|e]; [|discriminate].
    simpl in Hb.
    destruct (new_optimizer o) as [[]|e] eqn:Ho; [|discriminate].
    simpl in Hb.
    destruct (configure_scheduler scheduler_opt) as [sch|e] eqn:Hs;
      [|discriminate].
    simpl in Hb. inversion Hb; subst b; clear Hb. simpl.
    assert (Hcfg : scheduler_config sch = without_type scheduler_opt
                   /\ new_scheduler (scheduler sch) (scheduler_config sch)
                      = Ok tt).
    { unfold configure_scheduler in Hs.
      destruct (getitem "type" scheduler_opt) as [ty|e]; [|discriminate].
      simpl in Hs.
      destruct (select_scheduler ty) as [kind|e]; [|discriminate].
      simpl in Hs. unfold construct_scheduler in Hs.
      destruct (new_scheduler kind _) as [[]|e] eqn:Hk; [|discriminate].
      simpl in Hs. by inversion Hs. }
    destruct Hcfg as [Hcfg Hnew].
    repeat split; try done.
    intros k. rewrite Hcfg. apply get_without_type.
  - intros e ->. reflexivity.
  - intros o e Ho Hnew. rewrite Ho. simpl. by rewrite Hnew.
Qed.

Lemma configure_optimizers_bundle_witness :
  configure_optimizers (H:=Fixtures.torch_optim) (PStr "Adam")
    [("milestones", Object "[100, 200]");
     ("type", Plain (PStr "MultiStepLR")); ("gamma", Object "0.5")]
    None
  = Ok (Optimizers Adam
          (LrScheduler MultiStepLR
             [("milestones", Object "[100, 200]"); ("gamma", Object "0.5")])
          (PStr "val/psnr") "epoch" 1).
Proof.
  destruct (configure_optimizers_bundle (H:=Fixtures.torch_optim)
              (PStr "Adam")
              [("milestones", Object "[100, 200]");
               ("type", Plain (PStr "MultiStepLR")); ("gamma", Object "0.5")]
              None) as [Hok _].
  destruct (Hok _ eq_refl) as (_ & _ & _ & _ & _ & _ & _).
  reflexivity.
Defined.

Lemma rename_loop_noop {V : Type} (prefix : string) (n : nat)
    (todo : list string) (d : dict V) :
  (forall k, k ∈ todo -> startswith prefix k = false) ->
  foldl (rename_step prefix n) (Ok d) todo = Ok d.
Proof.
  induction todo as [|k todo IH]; intros Hno; [done|].
  cbn [foldl]. rewrite rename_step_eval.
  rewrite (Hno k) by apply list_elem_of_here.
  apply IH. intros k' Hk'. apply Hno. by apply list_elem_of_further.
Qed.

(** X8.  A mapping none of whose keys starts with ['_orig_mod.'] or
    ['module.'] passes the two loops unchanged: same entries, same order. *)
Theorem strip_prefixes_plain {V : Type} (w : dict V) :
  (forall k, k ∈ keys w ->
             startswith "_orig_mod." k = false
             /\ startswith "module." k = false) ->
  strip_prefixes w = Ok w.
Proof.
  intros Hplain. unfold strip_prefixes, strip_prefix.
  rewrite rename_loop_noop by (intros k Hk; by apply Hplain).
  simpl. apply rename_loop_noop. intros k Hk. by apply Hplain.
Qed.

Lemma strip_prefixes_plain_witness :
  strip_prefixes [("conv.weight", 1); ("conv.bias", 2)]
  = Ok [("conv.weight", 1); ("conv.bias", 2)].
Proof.
  apply strip_prefixes_plain. intros k Hk.
  apply elem_of_cons in Hk as [-> | Hk]; [done|].
  apply elem_of_cons in Hk as [-> | Hk]; [done|].
  by apply elem_of_nil in Hk.
Defined.

(** X9.  When no stripped name clashes with another name, every value of
    the mapping is found after the loops under its stripped key, and every
    entry of the result comes from such a key. *)
Theorem strip_prefixes_lookup {V : Type} (w : dict V) :
  clean "_orig_mod." 10 w ->
  clean "module." 7 (renamed "_orig_mod." 10 w) ->
  exists w',
    strip_prefixes w = Ok w'
    /\ (forall k v, get k w = Some v -> get (stripped_key k) w' = Some v)
    /\ (forall k' v, get k' w' = Some v ->
                     exists k, k' = stripped_key k /\ get k w = Some v).
Proof.
  intros Hc1 Hc2.
  assert (Hwf : wf w).
  { unfold clean in Hc1. apply NoDup_app in Hc1 as [Hwf _]. exact Hwf. }
  assert (Hwf1 : wf (renamed "_orig_mod." 10 w)).
  { unfold clean in Hc2. apply NoDup_app in Hc2 as [Hwf1 _]. exact Hwf1. }
  set (w' := renamed "module." 7 (renamed "_orig_mod." 10 w)).
  assert (Hrun : strip_prefixes w = Ok w').
  { unfold strip_prefixes.
    rewrite (strip_prefix_clean "_orig_mod." 10 w Hc1). simpl.
    apply (strip_prefix_clean "module." 7 _ Hc2). }
  assert (Hwf' : wf w').
  { destruct (strip_prefix_total "module." 7 _ Hwf1) as (w2 & Hrun2 & Hw2 & _).
    rewrite (strip_prefix_clean "module." 7 _ Hc2) in Hrun2.
    by inversion Hrun2; subst. }
  assert (Hperm : w' ≡ₚ (fun kv : string * V => (stripped_key kv.1, kv.2))
                        <$> w).
  { subst w'. rewrite renamed_perm, renamed_perm.
    by rewrite <- list_fmap_compose. }
  exists w'. split; [done|]. split.
  - intros k v Hget. apply get_in_wf; [done|]. rewrite Hperm.
    apply list_elem_of_fmap. exists (k, v). split; [done|].
    by apply get_Some_in.
  - intros k' v Hget. apply get_Some_in in Hget. rewrite Hperm in Hget.
    apply list_elem_of_fmap in Hget as ([k v0] & [= -> ->] & Hin).
    exists k. split; [done|]. by apply get_in_wf.
Qed.

Lemma strip_prefixes_lookup_witness :
  let w : dict nat :=
    [("_orig_mod.module.conv.weight", 1); ("module.fc.weight", 3);
     ("step", 4)] in
  exists w',
    strip_prefixes w = Ok w'
    /\ get "conv.weight" w' = Some 1
    /\ get "fc.weight" w' = Some 3
    /\ get "step" w' = Some 4.
Proof.
  intros w.
  destruct (strip_prefixes_lookup w) as (w' & Hrun & Hget & _).
  - unfold clean. compute_done.
  - unfold clean. compute_done.
  - exists w'. split; [exact Hrun|].
    split; [apply (Hget "_orig_mod.module.conv.weight"); reflexivity|].
    split; [apply (Hget "module.fc.weight"); reflexivity|].
    apply (Hget "step"); reflexivity.
Defined.

(** *** The key report *)

Lemma pop_lookup {V : Type} (k : string) (v : V) (d : dict V) :
  wf d -> get k d = Some v ->
  exists d',
    pop k d = Ok (v, d') /\ wf d'
    /\ forall k', get k' d' = if String.eqb k' k then None else get k' d.
Proof.
  intros Hwf Hget.
  destruct (pop_present k d) as (v0 & a & t & -> & Hka & Hpop).
  { apply get_Some_in in Hget. unfold keys. apply list_elem_of_fmap.
    by exists (k, v). }
  assert (Hv : v0 = v).
  { assert (Hin : (k, v0) ∈ a ++ (k, v0) :: t)
      by (apply elem_of_app; right; apply list_elem_of_here).
    apply (get_in_wf _ _ _ Hwf) in Hin. congruence. }
  subst v0. apply wf_remove in Hwf as [Hwf' Hk].
  exists (a ++ t). split; [done|]. split; [done|].
  intros k'. destruct (String.eqb_spec k' k) as [->|Hne].
  - by apply get_None_keys.
  - clear -Hne. induction a as [|[ka va] a IH]; simpl.
    + destruct (String.eqb_spec k k'); [congruence | done].
    + by rewrite IH.
Qed.

Lemma append_length (a b : string) :
  String.length (a +:+ b) = String.length a + String.length b.
Proof. induction a as [|c a IH]; simpl; [done | by rewrite IH]. Qed.

Lemma append_inj_l (s : string) :
  forall a b : string, a +:+ s = b +:+ s -> a = b.
Proof.
  intros a b Heq.
  assert (Hlen : String.length a = String.length b).
  { pose proof (f_equal String.length Heq) as Hl.
    rewrite !append_length in Hl. lia. }
  revert b Heq Hlen. induction a as [|c a IH]; intros [|c' b] Heq Hlen;
    simpl in *; try discriminate; [done|].
  inversion Heq; subst. f_equal. apply IH; [done | lia].
Qed.

Lemma append_ne_self (a : string) : a <> a +:+ ".ignore".
Proof.
  intros Heq. pose proof (f_equal String.length Heq) as Hl.
  rewrite append_length in Hl. simpl in Hl. lia.
Qed.

Section PrintKeysFacts.
Context {V : Type}.
Variables (size : V -> list Z) (str_of_size : list Z -> string).
Variables (crt_net : dict (list Z)) (load_net : dict V).

Local Abbreviation mism := (mismatched size crt_net load_net).
Local Abbreviation after := (foldl (ignore_lookup size crt_net load_net)
                     (fun k => get k load_net)).

Lemma after_snoc (l : list string) (x k : string) :
  after (l ++ [x]) k
  = if mism x then
      if String.eqb k (x +:+ ".ignore") then get x load_net
      else if String.eqb k x then None
      else after l k
    else after l k.
Proof.
  rewrite foldl_app. simpl. unfold ignore_lookup at 1.
  by destruct (mism x).
Qed.

(** A key that no turn renames and no turn renames onto keeps its value. *)
Lemma after_untouched (l : list string) (k : string) :
  (k ∈ l -> mism k = false) ->
  (forall k0, k0 ∈ l -> mism k0 = true -> k <> k0 +:+ ".ignore") ->
  after l k = get k load_net.
Proof.
  induction l as [|x l IH] using rev_ind; intros Hk Hfresh; [done|].
  rewrite after_snoc.
  assert (Hl : after l k = get k load_net).
  { apply IH.
    - intros Hin. apply Hk, elem_of_app. by left.
    - intros k0 Hin. apply Hfresh, elem_of_app. by left. }
  destruct (mism x) eqn:Hx; [|done].
  destruct (String.eqb_spec k (x +:+ ".ignore")) as [->|Hne].
  { exfalso. apply (Hfresh x); [|done..].
    apply elem_of_app. right. apply list_elem_of_here. }
  destruct (String.eqb_spec k x) as [->|Hne']; [|done].
  rewrite Hk in Hx; [discriminate|].
  apply elem_of_app. right. apply list_elem_of_here.
Qed.

Lemma after_moved (l : list string) (k : string) :
  NoDup l ->
  (forall k0 k1, k0 ∈ l -> k1 ∈ l -> k1 <> k0 +:+ ".ignore") ->
  k ∈ l -> mism k = true ->
  after l k = None /\ after l (k +:+ ".ignore") = get k load_net.
Proof.
  induction l as [|x l IH] using rev_ind; intros Hnd Hsep Hin Hk.
  { by apply elem_of_nil in Hin. }
  apply NoDup_app in Hnd as (Hnd & Hdisj & _).
  assert (Hxl : forall y, y ∈ l -> y <> x).
  { intros y Hy ->. apply (Hdisj x Hy), list_elem_of_here. }
  assert (Hx_in : x ∈ l ++ [x])
    by (apply elem_of_app; right; apply list_elem_of_here).
  assert (Hsep' : forall k0 k1, k0 ∈ l -> k1 ∈ l -> k1 <> k0 +:+ ".ignore").
  { intros k0 k1 H0 H1. apply Hsep; apply elem_of_app; by left. }
  rewrite !after_snoc.
  apply elem_of_app in Hin as [Hin | Hin].
  - destruct (IH Hnd Hsep' Hin Hk) as [Hnone Hmoved].
    assert (Hkin : k ∈ l ++ [x]) by (apply elem_of_app; by left).
    destruct (mism x); [|done].
    destruct (String.eqb_spec k (x +:+ ".ignore")) as [Heq|_].
    { by destruct (Hsep x k Hx_in Hkin). }
    destruct (String.eqb_spec k x) as [Heq|_].
    { by destruct (Hxl k Hin). }
    split; [done|].
    destruct (String.eqb_spec (k +:+ ".ignore") (x +:+ ".ignore"))
      as [Heq|_].
    { apply append_inj_l in Heq. by destruct (Hxl k Hin). }
    destruct (String.eqb_spec (k +:+ ".ignore") x) as [Heq|_]; [|done].
    by destruct (Hsep k x Hkin Hx_in).
  - apply list_elem_of_singleton in Hin. subst x. rewrite Hk.
    rewrite String.eqb_refl.
    destruct (String.eqb_spec k (k +:+ ".ignore")) as [Heq|_].
    { by destruct (append_ne_self k). }
    by rewrite String.eqb_refl.
Qed.

(** The loop over the common keys, from a state that agrees with the
    turns made so far *)
Lemma ignore_loop (todo : list string) :
  forall (done : list string) (evs : list event) (d : dict V),
    NoDup (done ++ todo) ->
    (forall k, k ∈ done ++ todo ->
               is_Some (get k crt_net) /\ is_Some (get k load_net)) ->
    (forall k0 k1, k0 ∈ done ++ todo -> k1 ∈ done ++ todo ->
                   k1 <> k0 +:+ ".ignore") ->
    wf d -> (forall k, get k d = after done k) ->
    exists evs' d',
      foldl (ignore_step size str_of_size crt_net) (Ok (evs, d)) todo
      = Ok (evs', d')
      /\ wf d' /\ forall k, get k d' = after (done ++ todo) k.
Proof.
  induction todo as [|k0 todo IH]; intros done evs d Hnd Hin Hsep Hwf Hd.
  { exists evs, d. by rewrite app_nil_r. }
  assert (Hk0 : k0 ∈ done ++ k0 :: todo)
    by (apply elem_of_app; right; apply list_elem_of_here).
  destruct (Hin k0 Hk0) as [[c Hc] [v Hv]].
  assert (Hcur : get k0 d = Some v).
  { rewrite Hd, <- Hv. apply after_untouched.
    - intros Hdone. apply NoDup_app in Hnd as (_ & Hdisj & _).
      destruct (Hdisj k0 Hdone). apply list_elem_of_here.
    - intros k1 Hk1 _. apply Hsep; [|done]. apply elem_of_app. by left. }
  assert (Hnext : done ++ k0 :: todo = (done ++ [k0]) ++ todo)
    by (by rewrite <- app_assoc).
  rewrite Hnext in Hnd, Hin, Hsep |- *.
  cbn [foldl]. unfold ignore_step at 2. simpl. unfold getitem.
  rewrite Hc, Hcur. simpl.
  assert (Hm : mism k0 = negb (bool_decide (c = size v))).
  { unfold mismatched. by rewrite Hc, Hv. }
  destruct (negb (bool_decide (c = size v))) eqn:Hneq.
  - destruct (pop_lookup k0 v d Hwf Hcur) as (d1 & -> & Hwf1 & Hd1). simpl.
    apply IH; try done.
    + by apply wf_set.
    + intros k. rewrite after_snoc, Hm.
      destruct (String.eqb_spec k (k0 +:+ ".ignore")) as [->|Hne].
      * by rewrite get_set_eq.
      * rewrite get_set_ne by done. rewrite Hd1.
        destruct (String.eqb k k0); [done | apply Hd].
  - apply IH; try done.
    intros k. rewrite after_snoc, Hm. apply Hd.
Qed.

End PrintKeysFacts.

(** X10.  In non-strict mode on rank zero, a loaded entry whose size
    differs from the model's is taken out of the way: provided no common
    key is another common key followed by ['.ignore'], the call returns,
    every mismatching key is gone and its value sits under
    [key + '.ignore'], and every other key keeps its value, in whatever
    order the common keys are visited. *)
Theorem ignore_mismatched_sizes {V : Type} (size : V -> list Z)
    (str_of_size : list Z -> string) (common_keys : list string)
    (crt_net : dict (list Z)) (load_net : dict V) :
  wf load_net -> NoDup common_keys ->
  (forall k, k ∈ common_keys <-> k ∈ keys crt_net /\ k ∈ keys load_net) ->
  (forall k0 k1, k0 ∈ common_keys -> k1 ∈ common_keys ->
                 k1 <> k0 +:+ ".ignore") ->
  exists evs load_net',
    _print_different_keys_loading size str_of_size true common_keys crt_net
      load_net false = Ok (evs, load_net')
    /\ wf load_net'
    /\ (forall k, k ∈ common_keys ->
                  mismatched size crt_net load_net k = true ->
                  get k load_net' = None
                  /\ get (k +:+ ".ignore") load_net' = get k load_net)
    /\ (forall k,
           (k ∈ common_keys -> mismatched size crt_net load_net k = false) ->
           (forall k0, k0 ∈ common_keys ->
                       mismatched size crt_net load_net k0 = true ->
                       k <> k0 +:+ ".ignore") ->
           get k load_net' = get k load_net).
Proof.
  intros Hwf Hnd Hcommon Hsep.
  unfold _print_different_keys_loading. simpl.
  destruct (ignore_loop size str_of_size crt_net load_net common_keys []
              (key_warnings (key_set crt_net) (key_set load_net)) load_net)
    as (evs & d' & Hrun & Hwf' & Hd'); try done.
  { intros k Hk. apply Hcommon in Hk as [Hc Hl].
    split.
    - destruct (get k crt_net) eqn:Hg; [eauto|].
      by apply get_None_keys in Hg.
    - destruct (get k load_net) eqn:Hg; [eauto|].
      by apply get_None_keys in Hg. }
  exists evs, d'. split; [done|]. split; [done|]. split.
  - intros k Hk Hm. rewrite !Hd'. by apply after_moved.
  - intros k Hk Hfresh. rewrite Hd'. by apply after_untouched.
Qed.

Lemma ignore_mismatched_sizes_witness :
  let crt : dict (list Z) := [("conv.weight", [3; 3]%Z); ("fc.bias", [10]%Z)] in
  let load : dict (list Z) := [("fc.bias", [5]%Z); ("conv.weight", [3; 3]%Z)] in
  exists evs load',
    _print_different_keys_loading (fun v => v) (fun _ => "") true
      ["fc.bias"; "conv.weight"] crt load false = Ok (evs, load')
    /\ get "fc.bias" load' = None
    /\ get "fc.bias.ignore" load' = Some [5]%Z
    /\ get "conv.weight" load' = Some [3; 3]%Z.
Proof.
  intros crt load.
  destruct (ignore_mismatched_sizes (fun v => v) (fun _ => "")
              ["fc.bias"; "conv.weight"] crt load)
    as (evs & load' & Hrun & _ & Hmoved & Hkept).
  - unfold wf. compute_done.
  - compute_done.
  - intros k. unfold keys. simpl. rewrite !elem_of_cons, !elem_of_nil.
    intuition (subst; auto).
  - intros k0 k1 H0 H1. rewrite !elem_of_cons, elem_of_nil in H0, H1.
    destruct H0 as [-> | [-> | []]], H1 as [-> | [-> | []]]; discriminate.
  - exists evs, load'. split; [exact Hrun|].
    destruct (Hmoved "fc.bias") as [Hgone Hthere];
      [apply list_elem_of_here | reflexivity |].
    split; [exact Hgone|]. split; [exact Hthere|].
    apply Hkept; [reflexivity|].
    intros k0 Hk0 Hm. rewrite !elem_of_cons, elem_of_nil in Hk0.
    destruct Hk0 as [-> | [-> | []]]; discriminate.
Defined.

Lemma sorted_spec (ks : gset string) :
  Sorted (fun a b : string => String.leb a b) (sorted (elements ks))
  /\ NoDup (sorted (elements ks))
  /\ forall k, k ∈ sorted (elements ks) <-> k ∈ ks.
Proof.
  unfold sorted. split; [|split].
  - apply Sorted_merge_sort. intros a b.
    destruct (String.leb_total a b) as [Hab | Hba].
    + left. by apply Is_true_true.
    + right. by apply Is_true_true.
  - rewrite merge_sort_Permutation. apply NoDup_elements.
  - intros k. rewrite merge_sort_Permutation. apply elem_of_elements.
Qed.

Lemma key_set_eq {A B : Type} (a : dict A) (b : dict B) :
  key_set a = key_set b <-> forall k, k ∈ keys a <-> k ∈ keys b.
Proof.
  unfold key_set. split.
  - intros Heq k. by rewrite <- !(elem_of_list_to_set (C:=gset string)), Heq.
  - intros Hk. apply set_eq. intros k. rewrite !elem_of_list_to_set. apply Hk.
Qed.

(** X11.  The key report.  In strict mode, and on every rank but zero,
    [load_net] is handed back as it came.  On rank zero the log is empty
    when both nets have the same keys; otherwise it lists, under the two
    headings, the keys only the current net has and the keys only the
    loaded net has, each list sorted and without repetition. *)
Theorem key_report {V : Type} (size : V -> list Z)
    (str_of_size : list Z -> string) (common_keys : list string)
    (crt_net : dict (list Z)) (load_net : dict V) :
  let run := fun rank_zero strict =>
    _print_different_keys_loading size str_of_size rank_zero common_keys
      crt_net load_net strict in
  let line := fun v : string => Warn ("  " +:+ v) in
  (forall strict, run false strict = Ok ([], load_net))
  /\ ((forall k, k ∈ keys crt_net <-> k ∈ keys load_net) ->
      run true true = Ok ([], load_net))
  /\ (~ (forall k, k ∈ keys crt_net <-> k ∈ keys load_net) ->
      exists missing unexpected,
        run true true
        = Ok (Warn "Current net - loaded net:" :: (line <$> missing)
              ++ Warn "Loaded net - current net:" :: (line <$> unexpected),
              load_net)
        /\ Sorted (fun a b : string => String.leb a b) missing
        /\ Sorted (fun a b : string => String.leb a b) unexpected
        /\ NoDup missing /\ NoDup unexpected
        /\ (forall k, k ∈ missing <-> k ∈ keys crt_net /\ k ∉ keys load_net)
        /\ (forall k, k ∈ unexpected
                      <-> k ∈ keys load_net /\ k ∉ keys crt_net)).
Proof.
  intros run line. subst run. unfold _print_different_keys_loading.
  simpl. unfold key_warnings. split; [done|]. split.
  - intros Hsame. apply key_set_eq in Hsame.
    by rewrite bool_decide_eq_false_2 by (intros Hne; by apply Hne).
  - intros Hdiff.
    rewrite bool_decide_eq_true_2 by (intros Heq; by apply Hdiff, key_set_eq).
    destruct (sorted_spec (key_set crt_net ∖ key_set load_net))
      as (Hs1 & Hn1 & Hm1).
    destruct (sorted_spec (key_set load_net ∖ key_set crt_net))
      as (Hs2 & Hn2 & Hm2).
    eexists _, _. split; [reflexivity|].
    split; [done|]. split; [done|]. split; [done|]. split; [done|]. split.
    + intros k. rewrite Hm1, elem_of_difference. unfold key_set.
      by rewrite !elem_of_list_to_set.
    + intros k. rewrite Hm2, elem_of_difference. unfold key_set.
      by rewrite !elem_of_list_to_set.
Qed.

Lemma key_report_witness :
  _print_different_keys_loading (fun v : list Z => v) (fun _ => "") true
    ["a"] [("a", [1]%Z)] [("a", [2]%Z)] true
  = Ok ([], [("a", [2]%Z)]).
Proof.
  destruct (key_report (fun v : list Z => v) (fun _ => "") ["a"]
              [("a", [1]%Z)] [("a", [2]%Z)]) as (_ & Hsame & _).
  apply Hsame. done.
Defined.

End LoadMore.

(** ** Loading as a whole, and [setup] *)

Module SetupMore.
Import Data DataFacts BaseModel Notions BaseModelMore MoreNotions.
Import ValidationFacts StripFacts.

Lemma only_logs_say (primary : bool) (msg : string) :
  only_logs (say primary msg).
Proof.
  unfold say. destruct primary; [apply only_logs_emit | apply only_logs_ret].
Qed.

Lemma only_logs_emit_all (evs : list event) : only_logs (emit_all evs).
Proof.
  unfold emit_all. induction evs as [|e evs IH]; simpl.
  - apply only_logs_ret.
  - apply only_logs_bind; [apply only_logs_emit | intros _; apply IH].
Qed.

Lemma say_run (primary : bool) (msg : string) (s : state) :
  say primary msg s
  = (Ok tt, logging s (if primary then [Info msg] else [])).
Proof.
  unfold say. destruct primary; [done|]. by rewrite logging_nil.
Qed.

Lemma emit_all_run (evs : list event) :
  forall s, emit_all evs s = (Ok tt, logging s evs).
Proof.
  unfold emit_all. induction evs as [|e evs IH]; intros s; simpl.
  - by rewrite logging_nil.
  - rewrite bind_run. unfold emit at 1. rewrite IH.
    unfold logging. simpl. by rewrite <- app_assoc.
Qed.

Lemma only_logs_load_weights `{Externals} (primary rank_zero : bool)
    (l : loading) :
  only_logs (load_weights primary rank_zero l).
Proof.
  unfold load_weights.
  apply only_logs_bind; [apply only_logs_say | intros _].
  apply only_logs_bind; [apply only_logs_lift | intros checkpoint].
  apply only_logs_bind; [apply only_logs_say | intros _].
  apply only_logs_bind; [apply only_logs_lift | intros [b weights]].
  apply only_logs_bind; [apply only_logs_say | intros _].
  apply only_logs_bind; [apply only_logs_lift | intros w].
  apply only_logs_bind; [apply only_logs_lift | intros w1].
  apply only_logs_bind; [apply only_logs_lift | intros [evs w2]].
  apply only_logs_bind; [apply only_logs_emit_all | intros _].
  apply only_logs_bind; [apply only_logs_emit | intros _].
  apply only_logs_lift.
Qed.

(** The key report only warns. *)
Lemma key_lines_quiet (ks : gset string) : network_calls (key_lines ks) = [].
Proof.
  unfold key_lines, network_calls.
  by induction (sorted (elements ks)) as [|k ks' IH].
Qed.

Lemma key_warnings_quiet (a b : gset string) :
  network_calls (key_warnings a b) = [].
Proof.
  unfold key_warnings. case_bool_decide; [|done].
  unfold network_calls. cbn [List.filter network_call].
  rewrite List.filter_app. cbn [List.filter network_call].
  fold (network_calls (key_lines (a ∖ b))).
  fold (network_calls (key_lines (b ∖ a))).
  by rewrite !key_lines_quiet.
Qed.

Lemma ignore_loop_quiet {V : Type} (size : V -> list Z)
    (str_of_size : list Z -> string) (crt_net : dict (list Z))
    (evs0 : list event) (load0 : dict V) (common_keys : list string) :
  network_calls evs0 = [] ->
  forall evs load_net,
    foldl (ignore_step size str_of_size crt_net) (Ok (evs0, load0))
      common_keys = Ok (evs, load_net) ->
    network_calls evs = [].
Proof.
  intros Hquiet.
  induction common_keys as [|k common_keys IH] using rev_ind;
    intros evs load_net Hrun.
  { by injection Hrun as <- <-. }
  rewrite foldl_app in Hrun. cbn [foldl] in Hrun.
  destruct (foldl _ _ common_keys) as [[evs1 load1]|e]; [|done].
  specialize (IH evs1 load1 eq_refl).
  unfold ignore_step in Hrun. cbn -[getitem pop] in Hrun.
  destruct (getitem k crt_net) as [crt|e]; [|done].
  cbn -[getitem pop] in Hrun.
  destruct (getitem k load1) as [v|e]; [|done].
  cbn -[getitem pop] in Hrun.
  destruct (negb _).
  - destruct (pop k load1) as [[v' rest]|e]; [|done].
    cbn in Hrun. injection Hrun as <- <-.
    unfold network_calls in *. rewrite List.filter_app, IH. done.
  - cbn in Hrun. by injection Hrun as <- <-.
Qed.

Lemma print_keys_quiet {V : Type} (size : V -> list Z)
    (str_of_size : list Z -> string) (rank_zero : bool)
    (common_keys : list string) (crt_net : dict (list Z))
    (load_net : dict V) (strict : bool) (evs : list event)
    (load_net' : dict V) :
  _print_different_keys_loading size str_of_size rank_zero common_keys
    crt_net load_net strict = Ok (evs, load_net') ->
  network_calls evs = [].
Proof.
  unfold _print_different_keys_loading.
  destruct rank_zero; [|by intros [= <- <-]].
  destruct strict; cbn [negb].
  - intros [= <- <-]. apply key_warnings_quiet.
  - apply ignore_loop_quiet, key_warnings_quiet.
Qed.

(** [load_weights], run: what it logs and where it stops *)
Lemma load_weights_run `{Externals} (primary rank_zero : bool)
    (l : loading) (s : state) :
  load_weights primary rank_zero l s
  = match torch_load l with
    | Raise e => (Raise e, logging s (announcement primary l))
    | Ok checkpoint =>
        let lines2 :=
          announcement primary l ++ available_keys primary checkpoint in
        match select_weights (default "params" (param_key_g l))
                checkpoint with
        | Raise e => (Raise e, logging s lines2)
        | Ok (b, weights) =>
            let lines := lines2 ++ selection_line primary l b in
            match (w ← items weights; strip_prefixes w) with
            | Raise e => (Raise e, logging s lines)
            | Ok w =>
                match _print_different_keys_loading (size_of l)
                        (str_of_size l) rank_zero (common_keys l)
                        (crt_net l) w (default true (strict_load_g l)) with
                | Raise e => (Raise e, logging s lines)
                | Ok (evs, w') =>
                    (load_state_dict l w' (default true (strict_load_g l)),
                     logging s
                       (lines ++ evs
                        ++ [LoadStateDict w'
                              (default true (strict_load_g l))]))
                end
            end
        end
    end.
Proof.
  unfold load_weights, announcement, available_keys, selection_line.
  cbv zeta. rewrite bind_run, say_run. rewrite bind_run. unfold lift at 1.
  destruct (torch_load l) as [checkpoint|e]; [|done].
  rewrite bind_run, say_run, logging_logging.
  rewrite bind_run. unfold lift at 1.
  destruct (select_weights _ checkpoint) as [[b weights]|e]; [|done].
  rewrite bind_run, say_run, logging_logging.
  rewrite bind_run. unfold lift at 1.
  destruct (items weights) as [w|e]; cbn -[strip_prefixes];
    [|by rewrite <- app_assoc].
  rewrite bind_run. unfold lift at 1.
  destruct (strip_prefixes w) as [w1|e]; [|by rewrite <- app_assoc].
  rewrite bind_run. unfold lift at 1.
  destruct (_print_different_keys_loading _ _ _ _ _ _ _)
    as [[evs w2]|e]; [|by rewrite <- app_assoc].
  rewrite bind_run, emit_all_run, logging_logging.
  rewrite bind_run. unfold emit at 1. unfold lift, logging. cbn.
  by rewrite <- !app_assoc.
Qed.

(** X7.  [load_weights] needs the selected entry to be a mapping.  If it
    is one (without repeated keys) the prefix loops cannot fail: the
    function logs its three lines on the primary process and nothing
    elsewhere, hands the stripped weights to the key report, and calls
    [load_state_dict] with what the report leaves; it returns exactly when
    [load_state_dict] does.  If the selected entry is a tensor or a number
    the function raises [AttributeError], naming the type, after the three
    lines and without a call of [load_state_dict]. *)
Theorem load_weights_outcome `{Externals} (primary rank_zero : bool)
    (l : loading) (s : state) (checkpoint : dict pyobj) (b : branch)
    (o : pyobj) :
  torch_load l = Ok checkpoint ->
  select_weights (default "params" (param_key_g l)) checkpoint = Ok (b, o) ->
  let lines :=
    announcement primary l ++ available_keys primary checkpoint
    ++ selection_line primary l b in
  let strict_load := default true (strict_load_g l) in
  (forall w, o = ODict w -> wf w ->
             exists w',
               strip_prefixes w = Ok w'
               /\ forall evs w'',
                    _print_different_keys_loading (size_of l)
                      (str_of_size l) rank_zero (common_keys l) (crt_net l)
                      w' strict_load = Ok (evs, w'') ->
                    load_weights primary rank_zero l s
                    = (load_state_dict l w'' strict_load,
                       logging s
                         (lines ++ evs ++ [LoadStateDict w'' strict_load])))
  /\ (forall z, o = OInt z ->
                load_weights primary rank_zero l s
                = (Raise (AttributeError
                            "'int' object has no attribute 'items'"),
                   logging s lines))
  /\ (forall t, o = OTensor t ->
                load_weights primary rank_zero l s
                = (Raise (AttributeError
                            "'Tensor' object has no attribute 'items'"),
                   logging s lines)).
Proof.
  intros Hload Hsel lines strict_load. subst lines strict_load.
  rewrite load_weights_run, Hload. cbv zeta. rewrite Hsel.
  rewrite <- !app_assoc.
  split; [|split].
  - intros w -> Hwf.
    destruct (strip_prefix_total "_orig_mod." 10 w Hwf)
      as (w1 & Hrun1 & Hwf1 & _).
    destruct (strip_prefix_total "module." 7 w1 Hwf1) as (w2 & Hrun2 & _).
    assert (Hstrip : strip_prefixes w = Ok w2).
    { unfold strip_prefixes. rewrite Hrun1. simpl. exact Hrun2. }
    exists w2. split; [done|]. intros evs w'' Hreport.
    cbn -[strip_prefixes _print_different_keys_loading].
    rewrite Hstrip, Hreport. by rewrite <- !app_assoc.
  - by intros z ->.
  - by intros t ->.
Qed.

Lemma load_weights_outcome_witness :
  load_weights (H:=Fixtures.demo) false true
    (Loading "net.pth" None None (Ok [("params", OInt 3)]) []
       (fun _ => []) (fun _ => "") [] (fun _ _ => Ok tt))
    after_setup
  = (Raise (AttributeError "'int' object has no attribute 'items'"),
     after_setup).
Proof.
  destruct (load_weights_outcome (H:=Fixtures.demo) false true
              (Loading "net.pth" None None (Ok [("params", OInt 3)]) []
                 (fun _ => []) (fun _ => "") [] (fun _ _ => Ok tt))
              after_setup [("params", OInt 3)] UseParamKey (OInt 3)
              eq_refl eq_refl) as (_ & Hint & _).
  exact (Hint 3%Z eq_refl).
Defined.

(** X12.  What loading changes.  [load_weights] leaves the names, the
    accumulator and the stored outputs alone.  It changes the network
    through one call at most, the call of [load_state_dict] at its end,
    whose outcome is then the outcome of [load_weights].  If the
    checkpoint cannot be read, the error of the read is raised after the
    single line that announces the load (on the primary process), and if
    the key selection, the mapping test or the prefix loops fail their
    error is raised: in both cases the network has not been touched. *)
Theorem load_weights_failures `{Externals} (primary rank_zero : bool)
    (l : loading) (s : state) :
  (exists r evs,
      load_weights primary rank_zero l s = (r, logging s evs)
      /\ (network_calls evs = []
          \/ exists evs0 w strict,
               evs = evs0 ++ [LoadStateDict w strict]
               /\ network_calls evs0 = []
               /\ r = load_state_dict l w strict))
  /\ (forall e,
         torch_load l = Raise e ->
         load_weights primary rank_zero l s
         = (Raise e, logging s (announcement primary l)))
  /\ (forall checkpoint e,
         torch_load l = Ok checkpoint ->
         ('(b, weights) ← select_weights (default "params" (param_key_g l))
                            checkpoint;
          w ← items weights;
          strip_prefixes w) = Raise e ->
         exists evs,
           load_weights primary rank_zero l s = (Raise e, logging s evs)
           /\ network_calls evs = []).
Proof.
  assert (Hlines : forall checkpoint b,
             network_calls
               ((announcement primary l
                 ++ available_keys primary checkpoint)
                ++ selection_line primary l b) = []).
  { intros checkpoint b.
    unfold announcement, available_keys, selection_line.
    by destruct primary. }
  assert (Hlines2 : forall checkpoint,
             network_calls
               (announcement primary l
                ++ available_keys primary checkpoint) = []).
  { intros checkpoint. unfold announcement, available_keys.
    by destruct primary. }
  assert (Hline1 : network_calls (announcement primary l) = []).
  { unfold announcement. by destruct primary. }
  rewrite load_weights_run. split; [|split].
  - destruct (torch_load l) as [checkpoint|e]; [|by eexists _, _; eauto].
    cbv zeta.
    destruct (select_weights _ checkpoint) as [[b weights]|e];
      [|by eexists _, _; eauto].
    destruct (w ← items weights; strip_prefixes w) as [w|e];
      [|by eexists _, _; eauto].
    destruct (_print_different_keys_loading _ _ _ _ _ _ _)
      as [[evs w']|e] eqn:Hreport; [|by eexists _, _; eauto].
    eexists _, _. split; [reflexivity|]. right.
    eexists _, w', _. rewrite app_assoc. split; [reflexivity|].
    split; [|reflexivity].
    unfold network_calls in *. rewrite List.filter_app, Hlines.
    apply (print_keys_quiet _ _ _ _ _ _ _ _ _ Hreport).
  - by intros e ->.
  - intros checkpoint e -> Hfail. cbv zeta.
    destruct (select_weights _ checkpoint) as [[b weights]|e0].
    + cbn -[strip_prefixes items] in Hfail. rewrite Hfail. by eexists.
    + injection Hfail as ->. by eexists.
Qed.

Lemma load_weights_failures_witness :
  load_weights (H:=Fixtures.demo) true true
    (Loading "net.pth" None None (Raise (ValueError "no such file")) []
       (fun _ => []) (fun _ => "") [] (fun _ _ => Ok tt))
    after_setup
  = (Raise (ValueError "no such file"),
     logging after_setup
       [Info "Loading weights from net.pth with param key: [params]"]).
Proof.
  destruct (load_weights_failures (H:=Fixtures.demo) true true
              (Loading "net.pth" None None (Raise (ValueError "no such file"))
                 [] (fun _ => []) (fun _ => "") [] (fun _ _ => Ok tt))
              after_setup) as (_ & Hread & _).
  exact (Hread _ eq_refl).
Defined.

(** X13.  [setup] leaves the accumulator alone.  When it returns, the name
    mapping is empty, so that until [on_validation_epoch_start] has run
    every validation step, and every test step, raises [KeyError] whatever
    the batch; when loading fails, [setup] fails and the mapping is as it
    was.  Without a pretrained path [setup] always returns. *)
Theorem setup_then_steps `{Externals} (primary rank_zero : bool)
    (network_line : string) (pretrain : option loading)
    (stage : option string) (s : state) :
  let r := (setup primary rank_zero network_line pretrain stage s).1 in
  let s' := (setup primary rank_zero network_line pretrain stage s).2 in
  current_val_metrics s' = current_val_metrics s
  /\ (r = Ok tt ->
      val_dataset_names s' = ∅
      /\ (forall ctx batch batch_idx dataloader_idx,
             validation_step ctx batch batch_idx dataloader_idx s'
             = (Raise (KeyError (str_of_nat dataloader_idx)), s'))
      /\ (forall ctx batch batch_idx,
             test_step ctx batch batch_idx s' = (Raise (KeyError "0"), s')))
  /\ (r <> Ok tt -> val_dataset_names s' = val_dataset_names s)
  /\ (pretrain = None -> r = Ok tt).
Proof.
  intros r s'. subst r s'. unfold setup. rewrite bind_run.
  assert (Hline : exists evs,
             (if rank_zero then emit (Info network_line) else mret tt) s
             = (Ok tt, logging s evs)).
  { destruct rank_zero; [by exists [Info network_line]|].
    exists []. by rewrite logging_nil. }
  destruct Hline as (evs0 & ->). rewrite bind_run.
  assert (Hload : exists r1 evs1,
             match pretrain with
             | Some l => load_weights primary rank_zero l
             | None => mret tt
             end (logging s evs0) = (r1, logging (logging s evs0) evs1)
             /\ (pretrain = None -> r1 = Ok tt)).
  { destruct pretrain as [l|].
    - destruct (only_logs_load_weights primary rank_zero l
                  (logging s evs0)) as (r1 & evs1 & Hr).
      exists r1, evs1. by split.
    - exists (Ok tt), []. by rewrite logging_nil. }
  destruct Hload as (r1 & evs1 & -> & Hnone).
  destruct r1 as [[]|e]; simpl.
  - split; [done|]. split; [|split; [done|done]].
    intros _. split; [done|]. split.
    + intros ctx batch batch_idx dataloader_idx.
      by apply validation_step_unknown_loader.
    + intros ctx batch batch_idx. unfold test_step.
      by apply validation_step_unknown_loader.
  - split; [done|]. split; [discriminate|]. split; [done|].
    intros Hp. by specialize (Hnone Hp).
Qed.

Lemma setup_then_steps_witness :
  let s := State {[0 := "dsA"]} [("dsA", [("psnr", [30%Q])])] None [] in
  let s' := (setup (H:=Fixtures.demo) true true "Network" None (Some "test")
               s).2 in
  val_dataset_names s' = ∅
  /\ test_step (H:=Fixtures.demo) (Fixtures.demo_ctx None)
       [("input", BTensor (Tensor 1)); ("target_t", BTensor (Tensor 2))] 0 s'
     = (Raise (KeyError "0"), s').
Proof.
  intros s s'.
  destruct (setup_then_steps (H:=Fixtures.demo) true true "Network" None
              (Some "test") s) as (_ & Hok & _).
  destruct (Hok eq_refl) as (Hnames & _ & Htest).
  split; [exact Hnames | apply Htest].
Defined.

End SetupMore.

(** ** More on the validation step and the epoch hooks *)

Module ValidationMore.
Import Data DataFacts BaseModel Notions BaseModelMore MoreNotions.
Import ValidationFacts.

(** The step on a batch with a tensor under ['input'], up to the point
    where it names the sample *)
Ltac step_head Hname Hinp :=
  unfold validation_step; rewrite bind_run;
  unfold lookup_dataset_name; rewrite Hname; simpl;
  unfold mem; rewrite Hinp; simpl;
  rewrite bind_run; unfold lift at 1, getitem; rewrite Hinp; simpl;
  rewrite bind_run; unfold testing, set_output; simpl;
  rewrite bind_run; unfold get_output; simpl.

Section StepMore.
Context `{Externals}.

Lemma sample_name_run (batch : dict batch_val) (batch_idx : nat) (s : state) :
  (forall t, get "inp_path" batch <> Some (BTensor t)) ->
  sample_name batch batch_idx s
  = (Ok (img_name_of batch batch_idx),
     logging s (sample_events batch batch_idx)).
Proof.
  intros Hpath. unfold sample_name, img_name_of, sample_events.
  destruct (get "inp_path" batch) as [[t|[|p l]]|].
  - by destruct (Hpath t).
  - reflexivity.
  - unfold mret, M_ret. by rewrite logging_nil.
  - reflexivity.
Qed.

Lemma validation_step_run2 (ctx : context) (batch : dict batch_val)
    (batch_idx dataloader_idx : nat) (s : state) (dataset_name : string)
    (inp target_t : tensor) (save_evs : list event) :
  val_dataset_names s !! dataloader_idx = Some dataset_name ->
  get "input" batch = Some (BTensor inp) ->
  get "target_t" batch = Some (BTensor target_t) ->
  (forall t, get "inp_path" batch <> Some (BTensor t)) ->
  let out := (if use_ema ctx then ema_model else net_g) inp in
  let clean_img := tensor2img out.1 in
  let target_t_img := tensor2img target_t in
  let metrics := default [] (opt_metrics (opt ctx)) in
  (forall s1,
      save_block ctx dataset_name (img_name_of batch batch_idx) clean_img
        (tensor2img out.2) s1 = (Ok tt, logging s1 save_evs)) ->
  validation_step ctx batch batch_idx dataloader_idx s
  = (Ok (step_output out (img_name_of batch batch_idx) dataset_name),
     State (val_dataset_names s)
       (foldl (record_pure dataset_name clean_img target_t_img)
          (current_val_metrics s) metrics)
       (Some out)
       (trace s ++ sample_events batch batch_idx ++ save_evs
        ++ omap (metric_warning clean_img target_t_img) metrics)).
Proof.
  intros Hname Hinp Htgt Hpath out clean_img target_t_img metrics Hsave.
  step_head Hname Hinp.
  fold out. destruct out as [output_clean output_reflection] eqn:Hout.
  rewrite bind_run, sample_name_run by done.
  rewrite bind_run. unfold lift at 1, getitem. rewrite Htgt. simpl.
  rewrite bind_run.
  unfold save_block in Hsave. simpl in Hsave. rewrite Hsave.
  rewrite bind_run. subst metrics clean_img target_t_img.
  unfold logging, step_output. simpl.
  destruct (opt_metrics (opt ctx)) as [metrics|]; simpl.
  - rewrite record_metrics_run. simpl. by rewrite <- !app_assoc.
  - unfold mret, M_ret. by rewrite <- !app_assoc, app_nil_r.
Qed.

Lemma save_block_disabled (ctx : context) (dataset_name img_name : string)
    (clean_img reflection_img : image) (s1 : state) :
  is_global_zero (the_trainer ctx) && opt_save_img (opt ctx) = false ->
  save_block ctx dataset_name img_name clean_img reflection_img s1
  = (Ok tt, logging s1 []).
Proof.
  intros Hoff. unfold save_block. rewrite Hoff.
  unfold mret, M_ret. by rewrite logging_nil.
Qed.

Lemma save_block_written (ctx : context) (visualization : string)
    (dataset_name img_name : string) (clean_img reflection_img : image)
    (s1 : state) :
  is_global_zero (the_trainer ctx) && opt_save_img (opt ctx) = true ->
  opt_visualization (opt ctx) = Some visualization ->
  let dir := save_dir ctx visualization dataset_name img_name in
  let clean_path :=
    image_path ctx visualization dataset_name img_name "clean" in
  let reflection_path :=
    image_path ctx visualization dataset_name img_name "reflection" in
  os_makedirs dir = Ok tt ->
  imwrite clean_img clean_path = Ok tt ->
  imwrite reflection_img reflection_path = Ok tt ->
  save_block ctx dataset_name img_name clean_img reflection_img s1
  = (Ok tt,
     logging s1 [Makedirs dir; Imwrite clean_img clean_path;
                 Imwrite reflection_img reflection_path]).
Proof.
  intros Hon Hvis dir clean_path reflection_path Hdir Hclean Hrefl.
  subst dir clean_path reflection_path.
  unfold save_block, image_path, save_dir, file_tag in *. rewrite Hon.
  unfold try_except, save_images. rewrite Hvis.
  destruct (opt_is_train (opt ctx)).
  - rewrite bind_run. unfold lift at 1. rewrite bind_run.
    rewrite bind_run. unfold lift at 1. rewrite Hdir.
    rewrite bind_run. unfold emit at 1.
    unfold mret at 1, M_ret at 1.
    rewrite bind_run. unfold lift at 1. rewrite Hclean.
    rewrite bind_run. unfold emit at 1.
    rewrite bind_run. unfold lift at 1. rewrite Hrefl.
    unfold emit, logging. simpl. by rewrite <- !app_assoc.
  - rewrite bind_run. unfold lift at 1. rewrite bind_run.
    rewrite bind_run. unfold lift at 1. rewrite Hdir.
    rewrite bind_run. unfold emit at 1.
    unfold mret at 1, M_ret at 1.
    rewrite bind_run. unfold lift at 1. rewrite Hclean.
    rewrite bind_run. unfold emit at 1.
    rewrite bind_run. unfold lift at 1. rewrite Hrefl.
    unfold emit, logging. simpl. by rewrite <- !app_assoc.
Qed.

Lemma save_block_no_directory (ctx : context) (visualization : string)
    (dataset_name img_name : string) (clean_img reflection_img : image)
    (e : exn) (s1 : state) :
  is_global_zero (the_trainer ctx) && opt_save_img (opt ctx) = true ->
  opt_visualization (opt ctx) = Some visualization ->
  os_makedirs (save_dir ctx visualization dataset_name img_name) = Raise e ->
  save_block ctx dataset_name img_name clean_img reflection_img s1
  = (Ok tt,
     logging s1 [Warn ("Error saving validation images: " +:+ exn_str e)]).
Proof.
  intros Hon Hvis Hdir. unfold save_block, save_dir in *. rewrite Hon.
  unfold try_except, save_images. rewrite Hvis.
  destruct (opt_is_train (opt ctx)).
  - rewrite bind_run. unfold lift at 1. rewrite bind_run.
    rewrite bind_run. unfold lift at 1. by rewrite Hdir.
  - rewrite bind_run. unfold lift at 1. rewrite bind_run.
    rewrite bind_run. unfold lift at 1. by rewrite Hdir.
Qed.

Lemma sample_events_quiet (batch : dict batch_val) (batch_idx : nat) :
  file_events (sample_events batch batch_idx) = [].
Proof.
  unfold sample_events. by destruct (get "inp_path" batch) as [[t|[|p l]]|].
Qed.

Lemma metric_warnings_quiet (clean_img target_t_img : image)
    (metrics : dict (dict pyval)) :
  file_events (omap (metric_warning clean_img target_t_img) metrics) = [].
Proof.
  induction metrics as [|[name opt_] metrics IH]; [done|].
  cbn [omap list_omap]. unfold metric_warning at 1. cbn [fst snd].
  by destruct (calculate_metric clean_img target_t_img opt_).
Qed.

Lemma no_files_ret {A : Type} (a : A) : no_files (mret a).
Proof. by intros s. Qed.

Lemma no_files_lift {A : Type} (r : result A) : no_files (lift r).
Proof. by intros s. Qed.

Lemma no_files_emit (ev : event) :
  file_event ev = false -> no_files (emit ev).
Proof.
  intros Hev s. unfold emit, file_events. cbn [snd trace].
  rewrite List.filter_app. cbn [List.filter]. rewrite Hev.
  by rewrite app_nil_r.
Qed.

Lemma no_files_bind {A B : Type} (c : M A) (k : A -> M B) :
  no_files c -> (forall a, no_files (k a)) -> no_files (x ← c; k x).
Proof.
  intros Hc Hk s. rewrite bind_run. specialize (Hc s).
  destruct (c s) as [[a|e] s1]; cbn [snd] in *; [|done].
  by rewrite Hk.
Qed.

Lemma no_files_try {A : Type} (body : M A) (handler : exn -> M A) :
  no_files body -> (forall e, no_files (handler e)) ->
  no_files (try_except body handler).
Proof.
  intros Hb Hh s. unfold try_except. specialize (Hb s).
  destruct (body s) as [[a|e] s1]; cbn [snd] in *; [done|].
  by rewrite Hh.
Qed.

Lemma no_files_for_each {A : Type} (l : list A) (body : A -> M unit) :
  (forall x, no_files (body x)) -> no_files (for_each l body).
Proof.
  intros Hb. induction l as [|x l IH]; cbn [for_each].
  - apply no_files_ret.
  - apply no_files_bind; [apply Hb | intros _; apply IH].
Qed.

Lemma no_files_record_metric (dataset_name : string)
    (clean_img target_t_img : image) (item : string * dict pyval) :
  no_files (record_metric dataset_name clean_img target_t_img item).
Proof.
  destruct item as [name opt_]. unfold record_metric.
  apply no_files_try; [|intros e; by apply no_files_emit].
  apply no_files_bind; [apply no_files_lift|]. by intros v s.
Qed.

Lemma no_files_sample_name (batch : dict batch_val) (batch_idx : nat) :
  no_files (sample_name batch batch_idx).
Proof.
  unfold sample_name.
  destruct (get "inp_path" batch) as [[t|[|p l]]|];
    first [apply no_files_lift | apply no_files_ret
          | apply no_files_bind;
            [by apply no_files_emit | intros ?; apply no_files_ret]].
Qed.

Lemma no_files_validation_step (ctx : context) (batch : dict batch_val)
    (batch_idx dataloader_idx : nat) :
  is_global_zero (the_trainer ctx) && opt_save_img (opt ctx) = false ->
  no_files (validation_step ctx batch batch_idx dataloader_idx).
Proof.
  intros Hoff. unfold validation_step. rewrite Hoff.
  apply no_files_bind.
  { intros s. unfold lookup_dataset_name.
    by destruct (val_dataset_names s !! dataloader_idx). }
  intros dataset_name.
  destruct (first_missing ["input"] batch) as [key|].
  { apply no_files_bind; [by apply no_files_emit|].
    intros _. apply no_files_ret. }
  apply no_files_bind; [apply no_files_lift | intros inp].
  apply no_files_bind; [by intros s | intros _].
  apply no_files_bind.
  { intros s. unfold get_output. by destruct (output s). }
  intros [output_clean output_reflection].
  apply no_files_bind; [apply no_files_sample_name | intros img_name].
  apply no_files_bind; [apply no_files_lift | intros target_t].
  apply no_files_bind; [apply no_files_ret | intros _].
  apply no_files_bind; [|intros _; apply no_files_ret].
  destruct (opt_metrics (opt ctx)) as [metrics|]; [|apply no_files_ret].
  apply no_files_for_each. intros item. apply no_files_record_metric.
Qed.

Lemma save_block_no_write (ctx : context) (visualization : string)
    (dataset_name img_name : string) (clean_img reflection_img : image)
    (e : exn) (s1 : state) :
  is_global_zero (the_trainer ctx) && opt_save_img (opt ctx) = true ->
  opt_visualization (opt ctx) = Some visualization ->
  let dir := save_dir ctx visualization dataset_name img_name in
  os_makedirs dir = Ok tt ->
  imwrite clean_img
    (image_path ctx visualization dataset_name img_name "clean") = Raise e ->
  save_block ctx dataset_name img_name clean_img reflection_img s1
  = (Ok tt,
     logging s1 [Makedirs dir;
                 Warn ("Error saving validation images: " +:+ exn_str e)]).
Proof.
  intros Hon Hvis dir Hdir Hclean. subst dir.
  unfold save_block, image_path, save_dir, file_tag in *. rewrite Hon.
  unfold try_except, save_images. rewrite Hvis.
  destruct (opt_is_train (opt ctx)).
  - rewrite bind_run. unfold lift at 1. rewrite bind_run.
    rewrite bind_run. unfold lift at 1. rewrite Hdir.
    rewrite bind_run. unfold emit at 1.
    unfold mret at 1, M_ret at 1.
    rewrite bind_run. unfold lift at 1. rewrite Hclean.
    unfold emit, logging. simpl. by rewrite <- !app_assoc.
  - rewrite bind_run. unfold lift at 1. rewrite bind_run.
    rewrite bind_run. unfold lift at 1. rewrite Hdir.
    rewrite bind_run. unfold emit at 1.
    unfold mret at 1, M_ret at 1.
    rewrite bind_run. unfold lift at 1. rewrite Hclean.
    unfold emit, logging. simpl. by rewrite <- !app_assoc.
Qed.

End StepMore.

(** X14.  Only ['input'] is checked up front.  A batch that has ['input']
    but no ['target_t'] makes the step raise [KeyError] after the network
    has run: the outputs are stored in the module, the accumulator is as it
    was, and no image is written. *)
Theorem validation_step_needs_target `{Externals} (ctx : context)
    (batch : dict batch_val) (batch_idx dataloader_idx : nat) (s : state)
    (dataset_name : string) (inp : tensor) :
  val_dataset_names s !! dataloader_idx = Some dataset_name ->
  get "input" batch = Some (BTensor inp) ->
  get "target_t" batch = None ->
  (forall t, get "inp_path" batch <> Some (BTensor t)) ->
  validation_step ctx batch batch_idx dataloader_idx s
  = (Raise (KeyError "target_t"),
     State (val_dataset_names s) (current_val_metrics s)
       (Some ((if use_ema ctx then ema_model else net_g) inp))
       (trace s ++ sample_events batch batch_idx)).
Proof.
  intros Hname Hinp Htgt Hpath. step_head Hname Hinp.
  destruct ((if use_ema ctx then ema_model else net_g) inp)
    as [output_clean output_reflection] eqn:Hout.
  rewrite bind_run, sample_name_run by done.
  rewrite bind_run. unfold lift at 1, getitem. by rewrite Htgt.
Qed.

Lemma validation_step_needs_target_witness :
  let s := State {[0 := "dsA"]} [] None [] in
  validation_step (H:=Fixtures.demo) (Fixtures.demo_ctx None)
    [("input", BTensor (Tensor 1)); ("inp_path", BList ["a.png"])] 0 0 s
  = (Raise (KeyError "target_t"),
     State {[0 := "dsA"]} [] (Some (Tensor 2, Tensor 3)) []).
Proof.
  intros s.
  exact (validation_step_needs_target (H:=Fixtures.demo)
           (Fixtures.demo_ctx None)
           [("input", BTensor (Tensor 1)); ("inp_path", BList ["a.png"])]
           0 0 s "dsA" (Tensor 1) eq_refl eq_refl eq_refl
           (fun t (E : Some (BList ["a.png"]) = Some (BTensor t)) =>
              eq_ind (Some (BList ["a.png"]))
                (fun o => match o with
                          | Some (BList _) => True
                          | _ => False
                          end) I _ E)).
Defined.

(** X15.  Where the images go.  On the global-zero process with
    [save_img] set, when the directory can be made and both writes succeed,
    the step makes one directory and writes the clean and the reflection
    image into it, as [<name>_clean_<tag>.png] and
    [<name>_reflection_<tag>.png].  In training the directory is
    [visualization/dataset/name] and the tag the global step (the epoch
    during the sanity check); in testing the directory is
    [visualization/dataset] and the tag the configured suffix, or the run
    name when the suffix is missing or empty. *)
Theorem validation_step_writes_images `{Externals} (ctx : context)
    (batch : dict batch_val) (batch_idx dataloader_idx : nat) (s : state)
    (dataset_name visualization : string) (inp target_t : tensor) :
  val_dataset_names s !! dataloader_idx = Some dataset_name ->
  get "input" batch = Some (BTensor inp) ->
  get "target_t" batch = Some (BTensor target_t) ->
  (forall t, get "inp_path" batch <> Some (BTensor t)) ->
  is_global_zero (the_trainer ctx) && opt_save_img (opt ctx) = true ->
  opt_visualization (opt ctx) = Some visualization ->
  let out := (if use_ema ctx then ema_model else net_g) inp in
  let img_name := img_name_of batch batch_idx in
  let dir := save_dir ctx visualization dataset_name img_name in
  let clean_path :=
    image_path ctx visualization dataset_name img_name "clean" in
  let reflection_path :=
    image_path ctx visualization dataset_name img_name "reflection" in
  os_makedirs dir = Ok tt ->
  imwrite (tensor2img out.1) clean_path = Ok tt ->
  imwrite (tensor2img out.2) reflection_path = Ok tt ->
  exists s',
    validation_step ctx batch batch_idx dataloader_idx s
    = (Ok (step_output out img_name dataset_name), s')
    /\ trace s'
       = trace s ++ sample_events batch batch_idx
         ++ [Makedirs dir; Imwrite (tensor2img out.1) clean_path;
             Imwrite (tensor2img out.2) reflection_path]
         ++ omap (metric_warning (tensor2img out.1) (tensor2img target_t))
              (default [] (opt_metrics (opt ctx))).
Proof.
  intros Hname Hinp Htgt Hpath Hon Hvis out img_name dir clean_path
    reflection_path Hdir Hclean Hrefl.
  eexists. split.
  - apply (validation_step_run2 ctx batch batch_idx dataloader_idx s
             dataset_name inp target_t
             [Makedirs dir; Imwrite (tensor2img out.1) clean_path;
              Imwrite (tensor2img out.2) reflection_path]);
      try done.
    intros s1. by apply save_block_written.
  - reflexivity.
Qed.

Lemma validation_step_writes_images_witness :
  let s := State {[0 := "dsA"]} [] None [] in
  exists s',
    validation_step (H:=Fixtures.demo) MoreFixtures.saving_ctx
      [("input", BTensor (Tensor 1)); ("target_t", BTensor (Tensor 5));
       ("inp_path", BList ["a"])] 0 0 s
    = (Ok [("output_clean", VTensor (Tensor 2));
           ("output_reflection", VTensor (Tensor 3));
           ("img_name", VStr "a"); ("dataset_name", VStr "dsA")], s')
    /\ trace s'
       = [Makedirs "vis/dsA/a/"; Imwrite (Image 2) "vis/dsA/a//a_clean_7.png/";
          Imwrite (Image 3) "vis/dsA/a//a_reflection_7.png/"].
Proof.
  intros s.
  exact (validation_step_writes_images (H:=Fixtures.demo)
           MoreFixtures.saving_ctx
           [("input", BTensor (Tensor 1)); ("target_t", BTensor (Tensor 5));
            ("inp_path", BList ["a"])] 0 0 s "dsA" "vis" (Tensor 1)
           (Tensor 5) eq_refl eq_refl eq_refl
           (fun t (E : Some (BList ["a"]) = Some (BTensor t)) =>
              eq_ind (Some (BList ["a"]))
                (fun o => match o with
                          | Some (BList _) => True
                          | _ => False
                          end) I _ E)
           eq_refl eq_refl eq_refl eq_refl eq_refl).
Defined.

(** X16.  A directory that cannot be made costs the images, not the step.
    When [os.makedirs] raises, no write is attempted and the exception
    becomes one warning; the step returns the dictionary it returns with
    saving switched off, and the metrics are recorded as they are then. *)
Theorem image_directory_failure_is_isolated `{Externals} (ctx : context)
    (batch : dict batch_val) (batch_idx dataloader_idx : nat) (s : state)
    (dataset_name visualization : string) (inp target_t : tensor)
    (e : exn) :
  val_dataset_names s !! dataloader_idx = Some dataset_name ->
  get "input" batch = Some (BTensor inp) ->
  get "target_t" batch = Some (BTensor target_t) ->
  (forall t, get "inp_path" batch <> Some (BTensor t)) ->
  is_global_zero (the_trainer ctx) && opt_save_img (opt ctx) = true ->
  opt_visualization (opt ctx) = Some visualization ->
  let out := (if use_ema ctx then ema_model else net_g) inp in
  let img_name := img_name_of batch batch_idx in
  let metrics := default [] (opt_metrics (opt ctx)) in
  os_makedirs (save_dir ctx visualization dataset_name img_name) = Raise e ->
  validation_step ctx batch batch_idx dataloader_idx s
  = (Ok (step_output out img_name dataset_name),
     State (val_dataset_names s)
       (foldl (record_pure dataset_name (tensor2img out.1)
                 (tensor2img target_t))
          (current_val_metrics s) metrics)
       (Some out)
       (trace s ++ sample_events batch batch_idx
        ++ [Warn ("Error saving validation images: " +:+ exn_str e)]
        ++ omap (metric_warning (tensor2img out.1) (tensor2img target_t))
             metrics)).
Proof.
  intros Hname Hinp Htgt Hpath Hon Hvis out img_name metrics Hdir.
  apply (validation_step_run2 ctx batch batch_idx dataloader_idx s
           dataset_name inp target_t
           [Warn ("Error saving validation images: " +:+ exn_str e)]);
    try done.
  intros s1. by apply save_block_no_directory with visualization.
Qed.

Lemma image_directory_failure_is_isolated_witness :
  let s := State {[0 := "dsA"]} [] None [] in
  validation_step (H:=MoreFixtures.read_only) MoreFixtures.saving_ctx
    [("input", BTensor (Tensor 1)); ("target_t", BTensor (Tensor 5));
     ("inp_path", BList ["a"])] 0 0 s
  = (Ok [("output_clean", VTensor (Tensor 2));
         ("output_reflection", VTensor (Tensor 3));
         ("img_name", VStr "a"); ("dataset_name", VStr "dsA")],
     State {[0 := "dsA"]} [] (Some (Tensor 2, Tensor 3))
       [Warn "Error saving validation images: read-only file system"]).
Proof.
  intros s.
  exact (image_directory_failure_is_isolated (H:=MoreFixtures.read_only)
           MoreFixtures.saving_ctx
           [("input", BTensor (Tensor 1)); ("target_t", BTensor (Tensor 5));
            ("inp_path", BList ["a"])] 0 0 s "dsA" "vis" (Tensor 1)
           (Tensor 5) (ValueError "read-only file system")
           eq_refl eq_refl eq_refl
           (fun t (E : Some (BList ["a"]) = Some (BTensor t)) =>
              eq_ind (Some (BList ["a"]))
                (fun o => match o with
                          | Some (BList _) => True
                          | _ => False
                          end) I _ E)
           eq_refl eq_refl eq_refl).
Defined.

(** X17.  The two writes are one [try]: when writing the clean image
    raises, the reflection image is not attempted.  The directory has been
    made, the exception becomes one warning, and the step goes on to the
    metrics and returns. *)
Theorem failed_write_skips_reflection `{Externals} (ctx : context)
    (batch : dict batch_val) (batch_idx dataloader_idx : nat) (s : state)
    (dataset_name visualization : string) (inp target_t : tensor)
    (e : exn) :
  val_dataset_names s !! dataloader_idx = Some dataset_name ->
  get "input" batch = Some (BTensor inp) ->
  get "target_t" batch = Some (BTensor target_t) ->
  (forall t, get "inp_path" batch <> Some (BTensor t)) ->
  is_global_zero (the_trainer ctx) && opt_save_img (opt ctx) = true ->
  opt_visualization (opt ctx) = Some visualization ->
  let out := (if use_ema ctx then ema_model else net_g) inp in
  let img_name := img_name_of batch batch_idx in
  let dir := save_dir ctx visualization dataset_name img_name in
  os_makedirs dir = Ok tt ->
  imwrite (tensor2img out.1)
    (image_path ctx visualization dataset_name img_name "clean") = Raise e ->
  exists s',
    validation_step ctx batch batch_idx dataloader_idx s
    = (Ok (step_output out img_name dataset_name), s')
    /\ file_events (trace s') = file_events (trace s) ++ [Makedirs dir]
    /\ Warn ("Error saving validation images: " +:+ exn_str e) ∈ trace s'.
Proof.
  intros Hname Hinp Htgt Hpath Hon Hvis out img_name dir Hdir Hclean.
  eexists. split.
  - apply (validation_step_run2 ctx batch batch_idx dataloader_idx s
             dataset_name inp target_t
             [Makedirs dir;
              Warn ("Error saving validation images: " +:+ exn_str e)]);
      try done.
    intros s1. by apply (save_block_no_write ctx visualization).
  - cbn [trace]. split.
    + unfold file_events. rewrite !List.filter_app. cbn [List.filter file_event].
      rewrite sample_events_quiet, metric_warnings_quiet.
      by rewrite app_nil_r.
    + rewrite !elem_of_app, !elem_of_cons. right. right. left. right. by left.
Qed.

Lemma failed_write_skips_reflection_witness :
  let s := State {[0 := "dsA"]} [] None [] in
  exists s',
    validation_step (H:=MoreFixtures.disk_full) MoreFixtures.saving_ctx
      [("input", BTensor (Tensor 1)); ("target_t", BTensor (Tensor 5));
       ("inp_path", BList ["a"])] 0 0 s
    = (Ok [("output_clean", VTensor (Tensor 2));
           ("output_reflection", VTensor (Tensor 3));
           ("img_name", VStr "a"); ("dataset_name", VStr "dsA")], s')
    /\ file_events (trace s') = [Makedirs "vis/dsA/a/"]
    /\ Warn "Error saving validation images: no space left on device"
       ∈ trace s'.
Proof.
  intros s.
  exact (failed_write_skips_reflection (H:=MoreFixtures.disk_full)
           MoreFixtures.saving_ctx
           [("input", BTensor (Tensor 1)); ("target_t", BTensor (Tensor 5));
            ("inp_path", BList ["a"])] 0 0 s "dsA" "vis" (Tensor 1)
           (Tensor 5) (ValueError "no space left on device")
           eq_refl eq_refl eq_refl
           (fun t (E : Some (BList ["a"]) = Some (BTensor t)) =>
              eq_ind (Some (BList ["a"]))
                (fun o => match o with
                          | Some (BList _) => True
                          | _ => False
                          end) I _ E)
           eq_refl eq_refl eq_refl eq_refl).
Defined.

(** X18.  Only the global-zero process with [save_img] set touches the
    file system.  On any other process, or with [save_img] off, a
    validation step, a test step and a whole run of steps call neither
    [os.makedirs] nor [imwrite], whatever the batches hold and whether the
    steps return or raise. *)
Theorem no_files_unless_saving `{Externals} (ctx : context) :
  is_global_zero (the_trainer ctx) && opt_save_img (opt ctx) = false ->
  (forall batch batch_idx dataloader_idx s,
      file_events
        (trace (validation_step ctx batch batch_idx dataloader_idx s).2)
      = file_events (trace s))
  /\ (forall batch batch_idx s,
         file_events (trace (test_step ctx batch batch_idx s).2)
         = file_events (trace s))
  /\ (forall steps s,
         file_events (trace (run_steps ctx steps s).2)
         = file_events (trace s)).
Proof.
  intros Hoff. split; [|split].
  - intros batch batch_idx dataloader_idx s.
    by apply no_files_validation_step.
  - intros batch batch_idx s. unfold test_step.
    by apply no_files_validation_step.
  - intros steps s. unfold run_steps.
    apply no_files_for_each. intros [[batch bi] di].
    apply no_files_bind; [by apply no_files_validation_step|].
    intros _. apply no_files_ret.
Qed.

Lemma no_files_unless_saving_witness :
  let batch := [("input", BTensor (Tensor 1));
                ("target_t", BTensor (Tensor 5))] in
  let s := State {[0 := "dsA"]} [] None [Makedirs "old"] in
  file_events
    (trace (validation_step (H:=Fixtures.demo) (Fixtures.demo_ctx None)
              batch 3 0 s).2)
  = [Makedirs "old"].
Proof.
  intros batch s.
  exact (proj1 (no_files_unless_saving (H:=Fixtures.demo)
                  (Fixtures.demo_ctx None) eq_refl) batch 3 0 s).
Defined.

End ValidationMore.

(* ===================================================================== *)
(** ** The epoch hooks at their edges                                      *)
(* ===================================================================== *)

Module EpochMore.
Import Data DataFacts BaseModel Notions BaseModelMore MoreNotions.
Import ValidationFacts.

Lemma nonempty_or_empty (mvs : dict (list Q)) :
  Forall (fun mv : string * list Q => mv.2 <> []) mvs
  \/ Exists (fun mv : string * list Q => mv.2 = []) mvs.
Proof.
  induction mvs as [|[m [|v values]] mvs IH].
  - by left.
  - right. by left.
  - destruct IH as [Hall|Hex]; [left | right].
    + by constructor.
    + by right.
Qed.

Lemma scalars_of_dataset `{Externals} (dataset_name : string) (epoch : Z)
    (mvs : dict (list Q)) :
  scalars (map (fun mv : string * list Q =>
                  AddScalar ("metrics/" +:+ dataset_name +:+ "/" +:+ mv.1)
                    (mean mv.2) epoch) mvs)
  = map (fun mv : string * list Q =>
           ("metrics/" +:+ dataset_name +:+ "/" +:+ mv.1, mean mv.2)) mvs
  /\ logged (map (fun mv : string * list Q =>
                    AddScalar ("metrics/" +:+ dataset_name +:+ "/" +:+ mv.1)
                      (mean mv.2) epoch) mvs) = [].
Proof.
  unfold scalars, logged.
  induction mvs as [|mv mvs [IH1 IH2]]; [done|].
  cbn [map omap list_omap]. by rewrite IH1, IH2.
Qed.

Section EndMore.
Context `{Externals}.

Lemma report_metrics_fail (ctx : context) (dataset_name : string)
    (mvs : dict (list Q)) :
  forall (log_str : string) (totals : dict total) (s : state),
    Exists (fun mv : string * list Q => mv.2 = []) mvs ->
    exists evs,
      for_fold mvs (log_str, totals) (report_metric ctx dataset_name) s
      = (Raise ZeroDivisionError, logging s evs)
      /\ scalars evs
         `prefix_of`
         map (fun mv : string * list Q =>
                ("metrics/" +:+ dataset_name +:+ "/" +:+ mv.1, mean mv.2))
           mvs
      /\ logged evs = [].
Proof.
  induction mvs as [|[m values] mvs IH]; intros log_str totals s Hex.
  { inversion Hex. }
  cbn [for_fold map]. rewrite bind_run. destruct values as [|v values].
  - exists []. rewrite logging_nil. split; [done|].
    split; [apply prefix_nil | done].
  - destruct (report_metric_run ctx dataset_name log_str totals
                (m, v :: values) s) as (log_str1 & ->); [done|].
    apply Exists_cons in Hex as [Hbad|Hex]; [done|].
    match goal with
    | |- context [for_fold mvs (?l, ?t) _ ?s1] =>
        destruct (IH l t s1 Hex) as (evs & -> & Hpre & Hlog)
    end.
    eexists (_ :: evs). rewrite logging_logging. split; [done|].
    split; [|done]. cbn [scalars omap list_omap fst snd].
    by apply prefix_cons.
Qed.

Lemma report_dataset_fail (ctx : context) (totals : dict total)
    (item : string * dict (list Q)) (s : state) :
  Exists (fun mv : string * list Q => mv.2 = []) item.2 ->
  exists evs,
    report_dataset ctx totals item s
    = (Raise ZeroDivisionError, logging s evs)
    /\ scalars evs
       `prefix_of`
       map (fun mv : string * list Q =>
              ("metrics/" +:+ item.1 +:+ "/" +:+ mv.1, mean mv.2)) item.2
    /\ logged evs = [].
Proof.
  destruct item as [dataset_name mvs]. cbn [fst snd]. intros Hex.
  unfold report_dataset. rewrite bind_run.
  match goal with
  | |- context [for_fold mvs (?l, ?t) _ ?s1] =>
      destruct (report_metrics_fail ctx dataset_name mvs l t s1 Hex)
        as (evs & -> & Hpre & Hlog)
  end.
  by exists evs.
Qed.

Lemma report_datasets_fail (ctx : context) (store : metrics_store) :
  forall (totals : dict total) (s : state),
    ~ store_ok store ->
    exists evs,
      for_fold store totals (report_dataset ctx) s
      = (Raise ZeroDivisionError, logging s evs)
      /\ scalars evs `prefix_of` dataset_means store
      /\ logged evs = [].
Proof.
  induction store as [|item store IH]; intros totals s Hbad.
  { destruct Hbad. constructor. }
  cbn [for_fold]. rewrite bind_run.
  unfold dataset_means. cbn [flat_map]. fold (dataset_means store).
  destruct (nonempty_or_empty item.2) as [Hok|Hex].
  - destruct (report_dataset_run ctx totals item s Hok) as (log_str & ->).
    assert (Hrest : ~ store_ok store).
    { intros Hs. apply Hbad. unfold store_ok, entries. cbn [flat_map].
      by apply Forall_app. }
    match goal with
    | |- context [for_fold store ?t _ ?s1] =>
        destruct (IH t s1 Hrest) as (evs & -> & Hpre & Hlog)
    end.
    exists ((map (fun mv : string * list Q =>
                    AddScalar ("metrics/" +:+ item.1 +:+ "/" +:+ mv.1)
                      (mean mv.2) (current_epoch ctx)) item.2
             ++ [Info log_str]) ++ evs).
    rewrite logging_logging. split; [done|].
    destruct (scalars_of_dataset item.1 (current_epoch ctx) item.2)
      as [Hsc Hlg].
    rewrite !scalars_app, !logged_app, Hsc, Hlg, Hlog. split; [|done].
    cbn [scalars omap list_omap app]. rewrite app_nil_r.
    by apply prefix_app.
  - destruct (report_dataset_fail ctx totals item s Hex)
      as (evs & -> & Hpre & Hlog).
    exists evs. split; [done|]. split; [|done].
    by apply prefix_app_r.
Qed.

End EndMore.

(** X19.  The end hook divides by the length of every list it finds.  If
    any list of the accumulator is empty it raises [ZeroDivisionError]: by
    then it has reported some of the per-dataset means, in their order, and
    nothing under [metrics/average/]; the names, the accumulator and the
    stored outputs are as they were.  The hook returns exactly when no
    list is empty. *)
Theorem epoch_end_division_by_zero `{Externals} (ctx : context)
    (s : state) :
  (~ store_ok (current_val_metrics s) ->
   exists evs,
     on_validation_epoch_end ctx s
     = (Raise ZeroDivisionError, logging s evs)
     /\ scalars evs `prefix_of` dataset_means (current_val_metrics s)
     /\ logged evs = [])
  /\ ((exists s', on_validation_epoch_end ctx s = (Ok tt, s'))
      <-> store_ok (current_val_metrics s)).
Proof.
  assert (Hfail : ~ store_ok (current_val_metrics s) ->
                  exists evs,
                    on_validation_epoch_end ctx s
                    = (Raise ZeroDivisionError, logging s evs)
                    /\ scalars evs
                       `prefix_of` dataset_means (current_val_metrics s)
                    /\ logged evs = []).
  { intros Hbad. unfold on_validation_epoch_end.
    destruct (current_val_metrics s) as [|item store] eqn:Hst.
    { destruct Hbad. constructor. }
    destruct (report_datasets_fail ctx (item :: store) [] s Hbad)
      as (evs & Hrun & Hpre & Hlog).
    exists evs. by rewrite bind_run, Hrun. }
  split; [exact Hfail|]. split.
  - intros [s' Hrun].
    assert (Hcases : store_ok (current_val_metrics s)
                     \/ ~ store_ok (current_val_metrics s)).
    { unfold store_ok.
      destruct (nonempty_or_empty (entries (current_val_metrics s)))
        as [Hall|Hex]; [by left | right].
      intros Hall. apply Exists_exists in Hex as (mv & Hin & Hmv).
      rewrite Forall_forall in Hall. by apply (Hall mv). }
    destruct Hcases as [Hok|Hbad]; [done|].
    destruct (Hfail Hbad) as (evs & Hrun' & _). congruence.
  - intros Hok. destruct (epoch_end_run ctx s Hok) as (evs & Hrun & _).
    by eexists.
Qed.

Lemma epoch_end_division_by_zero_witness :
  let s := State ∅ [("dsA", [("psnr", [30%Q]); ("ssim", [])])] None [] in
  exists evs,
    on_validation_epoch_end (H:=Fixtures.demo) (Fixtures.demo_ctx None) s
    = (Raise ZeroDivisionError, logging s evs)
    /\ scalars evs
       `prefix_of` dataset_means (H:=Fixtures.demo) (current_val_metrics s)
    /\ logged evs = [].
Proof.
  intros s.
  apply (proj1 (epoch_end_division_by_zero (H:=Fixtures.demo)
                  (Fixtures.demo_ctx None) s)).
  unfold store_ok. simpl. intros Hall.
  apply Forall_cons in Hall as [_ Hall].
  apply Forall_cons in Hall as [Hssim _]. by apply Hssim.
Defined.

(** X20.  Validation steps only ever append to the accumulator and never
    touch the name mapping: after any run of steps, returned or cut short
    by an exception, each list of the accumulator starts with what it held
    before. *)
Theorem steps_only_append `{Externals} (ctx : context)
    (steps : list (dict batch_val * nat * nat)) (s : state) :
  let s' := (run_steps ctx steps s).2 in
  val_dataset_names s' = val_dataset_names s
  /\ forall dataset_name name,
       values_at dataset_name name (current_val_metrics s)
       `prefix_of` values_at dataset_name name (current_val_metrics s').
Proof.
  apply (keeps_run_steps
           (fun names store =>
              names = val_dataset_names s
              /\ forall dataset_name name,
                   values_at dataset_name name (current_val_metrics s)
                   `prefix_of` values_at dataset_name name store)).
  - intros names store dataset_name name v [Hnames Hpre]. split; [done|].
    intros dataset_name' name'. rewrite values_at_append.
    by apply prefix_app_r.
  - done.
Qed.

(** X21.  Epochs do not leak into each other.  Whatever the steps of an
    epoch stored, the next start hook empties the accumulator, and it
    leaves the name mapping as the first start hook made it; the stored
    outputs and the log are not touched by the hook. *)
Theorem epochs_are_independent `{Externals} (ctx : context)
    (steps : list (dict batch_val * nat * nat)) (s : state) :
  let s1 := (on_validation_epoch_start ctx s).2 in
  let s2 := (run_steps ctx steps s1).2 in
  let s3 := (on_validation_epoch_start ctx s2).2 in
  current_val_metrics s3 = []
  /\ val_dataset_names s3 = val_dataset_names s1
  /\ output s3 = output s2
  /\ trace s3 = trace s2.
Proof.
  intros s1 s2 s3. subst s3. cbn [on_validation_epoch_start snd
    current_val_metrics val_dataset_names output trace].
  split; [done|]. split; [|done].
  subst s2. rewrite run_steps_keeps_names. subst s1.
  cbn [on_validation_epoch_start snd val_dataset_names].
  unfold update_dataset_names.
  destruct (trainer_val_dataloaders (the_trainer ctx))
    as [[loaders|loader]|] eqn:Hl; [| |done].
  - apply map_eq. intros idx. unfold enumerate.
    rewrite !foldl_name_loader.
    destruct (decide (0 <= idx)); [|lia].
    by destruct (loaders !! (idx - 0)).
  - apply insert_insert_eq.
Qed.

Lemma to_int_not_nil (z : Z) :
  Z.to_int z <> Decimal.Pos Decimal.Nil
  /\ Z.to_int z <> Decimal.Neg Decimal.Nil.
Proof.
  assert (Hn : Z.to_int z = Decimal.norm (Z.to_int z)).
  { rewrite <- DecimalZ.to_of. by rewrite DecimalZ.of_to. }
  split; intros Heq; rewrite Heq in Hn; discriminate.
Qed.

Lemma str_of_Z_inj (a b : Z) : str_of_Z a = str_of_Z b -> a = b.
Proof.
  unfold str_of_Z. intros Heq. apply DecimalZ.to_int_inj.
  destruct (to_int_not_nil a) as [Ha1 Ha2].
  destruct (to_int_not_nil b) as [Hb1 Hb2].
  pose proof (NilZero.isi _ Ha1 Ha2) as Ia.
  pose proof (NilZero.isi _ Hb1 Hb2) as Ib.
  rewrite Heq in Ia. congruence.
Qed.

Lemma str_of_nat_inj (a b : nat) : str_of_nat a = str_of_nat b -> a = b.
Proof.
  unfold str_of_nat. intros Heq. apply str_of_Z_inj in Heq. lia.
Qed.

(** X22.  Loaders without a configured name never share a name.  In a
    list of validation loaders, two different positions whose datasets
    have no ['name'] get the names [val_<i>] and [val_<j>], and these
    differ: their metrics are accumulated apart. *)
Theorem fallback_names_distinct (ctx : context) (names : gmap nat string)
    (loaders : list val_loader) (i j : nat) (li lj : val_loader) :
  trainer_val_dataloaders (the_trainer ctx) = Some (LoaderList loaders) ->
  loaders !! i = Some li -> loaders !! j = Some lj ->
  has_name li = false -> has_name lj = false ->
  i <> j ->
  let names' := update_dataset_names ctx names in
  names' !! i = Some ("val_" +:+ str_of_nat i)
  /\ names' !! j = Some ("val_" +:+ str_of_nat j)
  /\ names' !! i <> names' !! j.
Proof.
  intros Hl Hi Hj Hni Hnj Hij names'. subst names'.
  assert (Hfb : forall (l : val_loader) (fallback : string),
             has_name l = false -> loader_name fallback l = fallback).
  { intros l fallback. unfold has_name, loader_name, mem.
    destruct (dataset_opt l) as [o|]; [|done].
    by destruct (get "name" o). }
  rewrite !(update_names_list ctx names loaders _ Hl), Hi, Hj.
  rewrite !Hfb by done. split; [done|]. split; [done|].
  intros Heq. apply Hij, str_of_nat_inj.
  injection Heq as Heq. exact Heq.
Qed.

Lemma fallback_names_distinct_witness :
  let ctx := Fixtures.demo_ctx
               (Some (LoaderList [ValLoader None;
                                  ValLoader (Some [("name", "real")]);
                                  ValLoader (Some [])])) in
  let names' := update_dataset_names ctx ∅ in
  names' !! 0 = Some "val_0" /\ names' !! 2 = Some "val_2"
  /\ names' !! 0 <> names' !! 2.
Proof.
  intros ctx.
  exact (fallback_names_distinct ctx ∅
           [ValLoader None; ValLoader (Some [("name", "real")]);
            ValLoader (Some [])] 0 2 (ValLoader None) (ValLoader (Some []))
           eq_refl eq_refl eq_refl eq_refl eq_refl
           (fun E : 0 = 2 => eq_ind 0 (fun n => match n with
                                                | O => True
                                                | S _ => False
                                                end) I 2 E)).
Defined.

End EpochMore.

(* ===================================================================== *)
(** ** The dictionary of visuals                                           *)
(* ===================================================================== *)

Module VisualsFacts.
Import BaseModel Visuals PyDictFacts.

(** *** Keys that end differently are different *)

Lemma chars_app (a b : string) :
  list_ascii_of_string (a +:+ b)
  = list_ascii_of_string a ++ list_ascii_of_string b.
Proof. induction a as [|c a IH]; [done|]. simpl. by f_equal. Qed.

Lemma chars_inj (a b : string) :
  list_ascii_of_string a = list_ascii_of_string b -> a = b.
Proof.
  intros Heq. rewrite <- (string_of_list_ascii_of_string a).
  rewrite <- (string_of_list_ascii_of_string b). by rewrite Heq.
Qed.

Lemma append_inv_tail (a b c : string) : a +:+ c = b +:+ c -> a = b.
Proof.
  intros Heq. apply chars_inj.
  apply (app_inv_tail (list_ascii_of_string c)).
  by rewrite <- !chars_app, Heq.
Qed.

Lemma ends_alike (a x b y : string) :
  a +:+ x = b +:+ y ->
  rev (list_ascii_of_string x) ++ rev (list_ascii_of_string a)
  = rev (list_ascii_of_string y) ++ rev (list_ascii_of_string b).
Proof.
  intros Heq. rewrite <- !rev_app_distr, <- !chars_app. by rewrite Heq.
Qed.

(** Refutes an equation between keys whose last characters differ *)
Ltac ends_differ H :=
  apply ends_alike in H; cbn in H; discriminate H.

Lemma dataset_key_not_training (prefix k t : string) :
  k ∈ dataset_keys prefix ->
  t ∈ ["inp"; "result_clean"; "result_reflection"; "target_t"] ->
  t <> k.
Proof.
  unfold dataset_keys. rewrite !elem_of_cons, !elem_of_nil.
  intros [->|[->|[->|[->|[]]]]] [->|[->|[->|[->|[]]]]] Heq;
    symmetry in Heq;
    match type of Heq with
    | _ = ?lit => change lit with ("" +:+ lit) in Heq
    end;
    ends_differ Heq.
Qed.

Lemma dataset_keys_apart (p q k : string) :
  k ∈ dataset_keys p -> k ∈ dataset_keys q -> p = q.
Proof.
  unfold dataset_keys. rewrite !elem_of_cons, !elem_of_nil.
  intros [->|[->|[->|[->|[]]]]] [Heq|[Heq|[Heq|[Heq|[]]]]];
    first [by apply append_inv_tail in Heq | ends_differ Heq].
Qed.

(** Refutes an equation between two keys of one dataset *)
Ltac same_prefix_differ :=
  let Heq := fresh "Heq" in
  intros Heq; apply (inj (String.app _)) in Heq; discriminate Heq.

(** *** One turn of the loop *)

Lemma add_visuals_other (out_dict : dict tensor)
    (item : string * dict tensor) (out_dict' : dict tensor) (k : string) :
  add_visuals out_dict item = Ok out_dict' ->
  k ∉ dataset_keys (visual_prefix item.1) ->
  get k out_dict' = get k out_dict.
Proof.
  destruct item as [dataset_name visuals]. cbn [fst].
  unfold add_visuals, dataset_keys, getitem.
  rewrite !not_elem_of_cons. intros Hrun (H1 & H2 & H3 & H4 & _).
  destruct (get "inp" visuals) as [inp|]; [|done].
  destruct (get "output_clean" visuals) as [output_clean|]; [|done].
  destruct (get "output_reflection" visuals) as [output_reflection|];
    [|done].
  cbn in Hrun. injection Hrun as <-.
  destruct (get "target_t" visuals) as [target_t|];
    rewrite ?get_set_ne by done; done.
Qed.

Lemma add_visuals_same (out_dict : dict tensor) (dataset_name : string)
    (visuals : dict tensor) (out_dict' : dict tensor) :
  add_visuals out_dict (dataset_name, visuals) = Ok out_dict' ->
  let prefix := visual_prefix dataset_name in
  get (prefix +:+ "_inp") out_dict' = get "inp" visuals
  /\ get (prefix +:+ "_result_clean") out_dict' = get "output_clean" visuals
  /\ get (prefix +:+ "_result_reflection") out_dict'
     = get "output_reflection" visuals
  /\ get (prefix +:+ "_target_t") out_dict'
     = match get "target_t" visuals with
       | Some target_t => Some target_t
       | None => get (prefix +:+ "_target_t") out_dict
       end.
Proof.
  intros Hrun prefix. unfold add_visuals, getitem in Hrun. fold prefix in Hrun.
  destruct (get "inp" visuals) as [inp|]; [|done].
  destruct (get "output_clean" visuals) as [output_clean|]; [|done].
  destruct (get "output_reflection" visuals) as [output_reflection|];
    [|done].
  cbn in Hrun. injection Hrun as <-.
  destruct (get "target_t" visuals) as [target_t|].
  - repeat split.
    + do 3 (rewrite get_set_ne by same_prefix_differ). apply get_set_eq.
    + do 2 (rewrite get_set_ne by same_prefix_differ). apply get_set_eq.
    + rewrite get_set_ne by same_prefix_differ. apply get_set_eq.
    + apply get_set_eq.
  - repeat split.
    + do 2 (rewrite get_set_ne by same_prefix_differ). apply get_set_eq.
    + rewrite get_set_ne by same_prefix_differ. apply get_set_eq.
    + apply get_set_eq.
    + by do 3 (rewrite get_set_ne by same_prefix_differ).
Qed.

(** *** The loop *)

Lemma add_all_app (items1 items2 : dict (dict tensor)) :
  forall out_dict,
    add_all_visuals (items1 ++ items2) out_dict
    = (out_dict' ← add_all_visuals items1 out_dict;
       add_all_visuals items2 out_dict').
Proof.
  induction items1 as [|item items1 IH]; intros out_dict; [done|].
  cbn [add_all_visuals app].
  destruct (add_visuals out_dict item) as [out_dict1|e]; [|done].
  apply IH.
Qed.

Lemma add_all_other (k : string) (items : dict (dict tensor)) :
  forall out_dict out_dict',
    add_all_visuals items out_dict = Ok out_dict' ->
    Forall (fun item : string * dict tensor =>
              k ∉ dataset_keys (visual_prefix item.1)) items ->
    get k out_dict' = get k out_dict.
Proof.
  induction items as [|item items IH]; intros out_dict out_dict' Hrun Hk.
  { by injection Hrun as <-. }
  apply Forall_cons in Hk as [Hitem Hk]. cbn [add_all_visuals] in Hrun.
  destruct (add_visuals out_dict item) as [out_dict1|e] eqn:Hstep; [|done].
  rewrite (IH out_dict1 out_dict' Hrun Hk).
  by apply (add_visuals_other out_dict item).
Qed.

Lemma add_all_target (prefix : string) (items : dict (dict tensor)) :
  forall out_dict out_dict',
    add_all_visuals items out_dict = Ok out_dict' ->
    Forall (fun item : string * dict tensor =>
              visual_prefix item.1 = prefix ->
              get "target_t" item.2 = None) items ->
    get (prefix +:+ "_target_t") out_dict'
    = get (prefix +:+ "_target_t") out_dict.
Proof.
  induction items as [|[d v] items IH]; intros out_dict out_dict' Hrun Hk.
  { by injection Hrun as <-. }
  apply Forall_cons in Hk as [Hitem Hk]. cbn [add_all_visuals] in Hrun.
  destruct (add_visuals out_dict (d, v)) as [out_dict1|e] eqn:Hstep;
    [|done].
  rewrite (IH out_dict1 out_dict' Hrun Hk). cbn [fst snd] in Hitem.
  destruct (decide (visual_prefix d = prefix)) as [<-|Hne].
  - destruct (add_visuals_same _ _ _ _ Hstep) as (_ & _ & _ & ->).
    by rewrite Hitem.
  - apply (add_visuals_other out_dict (d, v)); [done|].
    intros Hin. apply Hne.
    apply (dataset_keys_apart _ _ (prefix +:+ "_target_t")); [done|].
    unfold dataset_keys. rewrite !elem_of_cons. auto.
Qed.

Lemma add_all_split (before after : dict (dict tensor)) (d : string)
    (v : dict tensor) (out_dict out_dict' : dict tensor) :
  add_all_visuals (before ++ (d, v) :: after) out_dict = Ok out_dict' ->
  exists out1 out2,
    add_all_visuals before out_dict = Ok out1
    /\ add_visuals out1 (d, v) = Ok out2
    /\ add_all_visuals after out2 = Ok out_dict'.
Proof.
  rewrite add_all_app. intros Hrun.
  destruct (add_all_visuals before out_dict) as [out1|e]; [|done].
  cbn -[add_visuals] in Hrun.
  destruct (add_visuals out1 (d, v)) as [out2|e] eqn:Hstep; [|done].
  by exists out1, out2.
Qed.

Lemma attrs_get (self : visual_attrs) :
  let out_dict :=
    add_attr "target_t" (last_target_t self)
      (add_attr "result_reflection" (last_output_reflection self)
         (add_attr "result_clean" (last_output_clean self)
            (add_attr "inp" (last_inp self) []))) in
  get "inp" out_dict = last_inp self
  /\ get "result_clean" out_dict = last_output_clean self
  /\ get "result_reflection" out_dict = last_output_reflection self
  /\ get "target_t" out_dict = last_target_t self.
Proof.
  by destruct (last_inp self), (last_output_clean self),
    (last_output_reflection self), (last_target_t self).
Qed.

(** *** Missing entries *)

Lemma add_visuals_complete (out_dict : dict tensor)
    (item : string * dict tensor) :
  complete item.2 = true -> exists out_dict', add_visuals out_dict item
                                              = Ok out_dict'.
Proof.
  destruct item as [d v]. unfold complete, add_visuals, getitem, mem.
  cbn [snd].
  destruct (get "inp" v); [|done].
  destruct (get "output_clean" v); [|done].
  destruct (get "output_reflection" v); [|done].
  intros _. by eexists.
Qed.

Lemma add_visuals_incomplete (out_dict : dict tensor)
    (item : string * dict tensor) :
  complete item.2 = false ->
  exists k, k ∈ ["inp"; "output_clean"; "output_reflection"]
            /\ get k item.2 = None
            /\ add_visuals out_dict item = Raise (KeyError k).
Proof.
  destruct item as [d v]. unfold complete, add_visuals, getitem, mem.
  cbn [snd].
  destruct (get "inp" v) eqn:H1.
  2:{ intros _. exists "inp". rewrite elem_of_cons. auto. }
  destruct (get "output_clean" v) eqn:H2.
  2:{ intros _. exists "output_clean". rewrite !elem_of_cons. auto. }
  destruct (get "output_reflection" v) eqn:H3; [done|].
  intros _. exists "output_reflection". rewrite !elem_of_cons. auto.
Qed.

Lemma add_all_complete (items : dict (dict tensor)) :
  forall out_dict,
    Forall (fun item : string * dict tensor => complete item.2 = true)
      items ->
    exists out_dict', add_all_visuals items out_dict = Ok out_dict'.
Proof.
  induction items as [|item items IH]; intros out_dict Hall.
  { by eexists. }
  apply Forall_cons in Hall as [Hitem Hall]. cbn [add_all_visuals].
  destruct (add_visuals_complete out_dict item Hitem) as [out1 ->].
  apply IH, Hall.
Qed.

Lemma add_all_incomplete (before after : dict (dict tensor))
    (item : string * dict tensor) (out_dict : dict tensor) :
  Forall (fun item : string * dict tensor => complete item.2 = true)
    before ->
  complete item.2 = false ->
  exists k, k ∈ ["inp"; "output_clean"; "output_reflection"]
            /\ get k item.2 = None
            /\ add_all_visuals (before ++ item :: after) out_dict
               = Raise (KeyError k).
Proof.
  intros Hbefore Hitem. rewrite add_all_app.
  destruct (add_all_complete before out_dict Hbefore) as [out1 ->].
  destruct (add_visuals_incomplete out1 item Hitem) as (k & Hk & Hget & Hrun).
  exists k. split; [done|]. split; [done|].
  cbn -[add_visuals]. by rewrite Hrun.
Qed.

Lemma complete_or_split (items : dict (dict tensor)) :
  Forall (fun item : string * dict tensor => complete item.2 = true) items
  \/ exists before item after,
       items = before ++ item :: after
       /\ Forall (fun item : string * dict tensor => complete item.2 = true)
            before
       /\ complete item.2 = false.
Proof.
  induction items as [|item items IH]; [by left|].
  destruct (complete item.2) eqn:Hitem.
  - destruct IH as [Hall|(before & item' & after & -> & Hbefore & Hbad)].
    + left. by constructor.
    + right. exists (item :: before), item', after.
      split; [done|]. split; [by constructor | done].
  - right. by exists [], item, items.
Qed.

(** X23.  The entries of the training visuals are never shadowed.  When
    [get_current_visuals] returns, ['inp'], ['result_clean'],
    ['result_reflection'] and ['target_t'] hold the module's own
    attributes, and are absent when the attribute is, whatever the
    validation datasets are called: no dataset's key, which ends in
    [_inp], [_result_clean], [_result_reflection] or [_target_t] after a
    prefix, is one of these four. *)
Theorem training_visuals_kept (self : visual_attrs)
    (out_dict : dict tensor) :
  get_current_visuals self = Ok out_dict ->
  get "inp" out_dict = last_inp self
  /\ get "result_clean" out_dict = last_output_clean self
  /\ get "result_reflection" out_dict = last_output_reflection self
  /\ get "target_t" out_dict = last_target_t self.
Proof.
  unfold get_current_visuals. intros Hrun.
  pose proof (attrs_get self) as Hattrs. cbv zeta in Hattrs.
  destruct (val_visualization self) as [visualization|].
  2:{ by injection Hrun as <-. }
  assert (Hkeep : forall t,
             t ∈ ["inp"; "result_clean"; "result_reflection"; "target_t"] ->
             get t out_dict
             = get t (add_attr "target_t" (last_target_t self)
                        (add_attr "result_reflection"
                           (last_output_reflection self)
                           (add_attr "result_clean" (last_output_clean self)
                              (add_attr "inp" (last_inp self) []))))).
  { intros t Ht. apply (add_all_other t visualization _ _ Hrun).
    apply Forall_forall. intros item _ Hin.
    by apply (dataset_key_not_training _ _ t Hin). }
  destruct Hattrs as (E1 & E2 & E3 & E4).
  rewrite !Hkeep by (rewrite !elem_of_cons; auto).
  by rewrite E1, E2, E3, E4.
Qed.

Lemma training_visuals_kept_witness :
  let self :=
    VisualAttrs (Some (Tensor 1)) None None (Some (Tensor 4))
      (Some [("inp", [("inp", Tensor 5); ("output_clean", Tensor 6);
                      ("output_reflection", Tensor 7);
                      ("target_t", Tensor 8)]);
             ("", [("inp", Tensor 9); ("output_clean", Tensor 10);
                   ("output_reflection", Tensor 11)])]) in
  exists out_dict,
    get_current_visuals self = Ok out_dict
    /\ get "inp" out_dict = Some (Tensor 1)
    /\ get "result_clean" out_dict = None
    /\ get "result_reflection" out_dict = None
    /\ get "target_t" out_dict = Some (Tensor 4).
Proof.
  intros self. eexists. split; [reflexivity|].
  apply (training_visuals_kept self). reflexivity.
Defined.

(** X24.  Of the datasets that get the same prefix, the last one wins.
    When [get_current_visuals] returns, the keys [<prefix>_inp],
    [<prefix>_result_clean] and [<prefix>_result_reflection] hold the
    visuals of the last dataset whose name gives that prefix once its
    spaces are underscores; datasets with other prefixes do not touch
    them. *)
Theorem dataset_visuals_last_wins (self : visual_attrs)
    (out_dict : dict tensor) (before after : dict (dict tensor))
    (dataset_name : string) (visuals : dict tensor) :
  get_current_visuals self = Ok out_dict ->
  val_visualization self = Some (before ++ (dataset_name, visuals) :: after) ->
  Forall (fun item : string * dict tensor =>
            visual_prefix item.1 <> visual_prefix dataset_name) after ->
  let prefix := visual_prefix dataset_name in
  get (prefix +:+ "_inp") out_dict = get "inp" visuals
  /\ get (prefix +:+ "_result_clean") out_dict = get "output_clean" visuals
  /\ get (prefix +:+ "_result_reflection") out_dict
     = get "output_reflection" visuals.
Proof.
  intros Hrun Hvis Hafter prefix.
  unfold get_current_visuals in Hrun. rewrite Hvis in Hrun.
  apply add_all_split in Hrun as (out1 & out2 & _ & Hstep & Hrest).
  destruct (add_visuals_same _ _ _ _ Hstep) as (H1 & H2 & H3 & _).
  fold prefix in H1, H2, H3. rewrite <- H1, <- H2, <- H3.
  assert (Hkeep : forall k, k ∈ dataset_keys prefix ->
                            get k out_dict = get k out2).
  { intros k Hk. apply (add_all_other k after _ _ Hrest).
    eapply Forall_impl; [exact Hafter|]. intros item Hne Hin.
    apply Hne. by apply (dataset_keys_apart _ _ k). }
  repeat split; apply Hkeep; unfold dataset_keys; rewrite !elem_of_cons;
    auto.
Qed.

Lemma dataset_visuals_last_wins_witness :
  let first := [("inp", Tensor 1); ("output_clean", Tensor 2);
                ("output_reflection", Tensor 3)] in
  let second := [("inp", Tensor 4); ("output_clean", Tensor 5);
                 ("output_reflection", Tensor 6)] in
  let self :=
    VisualAttrs None None None None
      (Some [("my set", first); ("my_set", second)]) in
  exists out_dict,
    get_current_visuals self = Ok out_dict
    /\ get "my_set_inp" out_dict = Some (Tensor 4)
    /\ get "my_set_result_clean" out_dict = Some (Tensor 5)
    /\ get "my_set_result_reflection" out_dict = Some (Tensor 6).
Proof.
  intros first second self. eexists. split; [reflexivity|].
  apply (dataset_visuals_last_wins self _ [("my set", first)] []
           "my_set" second); [reflexivity | reflexivity | constructor].
Defined.

(** X25.  A target can outlive its dataset's other entries.  The key
    [<prefix>_target_t] is written only by a dataset that has a
    ['target_t']: it holds the target of the last such dataset with the
    prefix, also when a later dataset with the same prefix, lacking a
    target, has replaced the other three entries. *)
Theorem target_of_earlier_dataset_stays (self : visual_attrs)
    (out_dict : dict tensor) (before after : dict (dict tensor))
    (dataset_name : string) (visuals : dict tensor) (target_t : tensor) :
  get_current_visuals self = Ok out_dict ->
  val_visualization self = Some (before ++ (dataset_name, visuals) :: after) ->
  get "target_t" visuals = Some target_t ->
  Forall (fun item : string * dict tensor =>
            visual_prefix item.1 = visual_prefix dataset_name ->
            get "target_t" item.2 = None) after ->
  get (visual_prefix dataset_name +:+ "_target_t") out_dict = Some target_t.
Proof.
  unfold get_current_visuals. intros Hrun Hvis Htarget Hafter.
  rewrite Hvis in Hrun.
  apply add_all_split in Hrun as (out1 & out2 & _ & Hstep & Hrest).
  rewrite (add_all_target _ after _ _ Hrest Hafter).
  destruct (add_visuals_same _ _ _ _ Hstep) as (_ & _ & _ & ->).
  by rewrite Htarget.
Qed.

Lemma target_of_earlier_dataset_stays_witness :
  let first := [("inp", Tensor 1); ("output_clean", Tensor 2);
                ("output_reflection", Tensor 3); ("target_t", Tensor 7)] in
  let second := [("inp", Tensor 4); ("output_clean", Tensor 5);
                 ("output_reflection", Tensor 6)] in
  let self :=
    VisualAttrs None None None None
      (Some [("my set", first); ("my_set", second)]) in
  exists out_dict,
    get_current_visuals self = Ok out_dict
    /\ get "my_set_inp" out_dict = Some (Tensor 4)
    /\ get "my_set_target_t" out_dict = Some (Tensor 7).
Proof.
  intros first second self. eexists. split; [reflexivity|].
  split; [reflexivity|].
  apply (target_of_earlier_dataset_stays self _ [] [("my_set", second)]
           "my set" first (Tensor 7));
    [reflexivity | reflexivity | reflexivity |].
  constructor; [|constructor]. reflexivity.
Defined.

(** X26.  Every dataset's visuals must have ['inp'], ['output_clean'] and
    ['output_reflection'].  [get_current_visuals] returns exactly when
    all of them do; otherwise it raises [KeyError] for an entry that the
    first incomplete dataset lacks, and no dictionary is returned, not
    even the training entries.  ['target_t'] is optional. *)
Theorem visuals_need_three_entries (self : visual_attrs)
    (visualization : dict (dict tensor)) :
  val_visualization self = Some visualization ->
  ((exists out_dict, get_current_visuals self = Ok out_dict)
   <-> Forall (fun item : string * dict tensor => complete item.2 = true)
         visualization)
  /\ (forall before item after,
         visualization = before ++ item :: after ->
         Forall (fun item : string * dict tensor => complete item.2 = true)
           before ->
         complete item.2 = false ->
         exists k, k ∈ ["inp"; "output_clean"; "output_reflection"]
                   /\ get k item.2 = None
                   /\ get_current_visuals self = Raise (KeyError k)).
Proof.
  unfold get_current_visuals. intros ->.
  assert (Hfail : forall out_dict before item after,
             visualization = before ++ item :: after ->
             Forall (fun item : string * dict tensor =>
                       complete item.2 = true) before ->
             complete item.2 = false ->
             exists k, k ∈ ["inp"; "output_clean"; "output_reflection"]
                       /\ get k item.2 = None
                       /\ add_all_visuals visualization out_dict
                          = Raise (KeyError k)).
  { intros out_dict before item after -> Hbefore Hitem.
    by apply add_all_incomplete. }
  split; [split|].
  - intros [out_dict Hrun].
    destruct (complete_or_split visualization)
      as [Hall|(before & item & after & Heq & Hbefore & Hbad)]; [done|].
    match type of Hrun with
    | add_all_visuals _ ?d = _ =>
        destruct (Hfail d before item after Heq Hbefore Hbad)
          as (k & _ & _ & Hrun')
    end.
    congruence.
  - intros Hall. by apply add_all_complete.
  - intros before item after. apply Hfail.
Qed.

Lemma visuals_need_three_entries_witness :
  let self :=
    VisualAttrs (Some (Tensor 1)) None None None
      (Some [("a", [("inp", Tensor 2); ("output_clean", Tensor 3);
                    ("output_reflection", Tensor 4)]);
             ("b", [("inp", Tensor 5); ("target_t", Tensor 6)])]) in
  exists k, k ∈ ["inp"; "output_clean"; "output_reflection"]
            /\ get k [("inp", Tensor 5); ("target_t", Tensor 6)] = None
            /\ get_current_visuals self = Raise (KeyError k).
Proof.
  intros self.
  apply (proj2 (visuals_need_three_entries self _ eq_refl)
           [("a", [("inp", Tensor 2); ("output_clean", Tensor 3);
                   ("output_reflection", Tensor 4)])]
           ("b", [("inp", Tensor 5); ("target_t", Tensor 6)]) []);
    [reflexivity | by repeat constructor | reflexivity].
Defined.

End VisualsFacts.
